(** * The Multinomial distribution of tensorflow/contrib/distributions

    A shallow embedding of [multinomial.py] and the properties of its
    constructor, its shape methods, [log_prob], [prob], [mean] and
    [variance].

    Numbers are the reals extended with the IEEE special values (no rounding,
    no signed zero); a tensor is a static shape and an element accessor, with
    shapes and indices written innermost axis first; a graph tensor is a
    tensor together with the assertions that failed among its control
    dependencies, any of which may be the one reported when it is evaluated.
    The log-gamma function of the array library is a parameter. *)

From Stdlib Require Import String Ascii.
From Stdlib Require Import ZArith Reals Lra Lia List Bool Arith.
Import ListNotations.

Local Open Scope R_scope.

(** ** Numbers *)

Module Num.

(** A floating point value: a real, an infinity, or not-a-number. *)
Inductive num : Type :=
| Fin (r : R)
| PInf
| NInf
| NaN.

Definition nneg (x : num) : num :=
  match x with
  | Fin r => Fin (- r)
  | PInf => NInf
  | NInf => PInf
  | NaN => NaN
  end.

Definition nadd (x y : num) : num :=
  match x, y with
  | NaN, _ | _, NaN => NaN
  | Fin a, Fin b => Fin (a + b)
  | PInf, NInf | NInf, PInf => NaN
  | PInf, _ | _, PInf => PInf
  | NInf, _ | _, NInf => NInf
  end.

Definition nsub (x y : num) : num := nadd x (nneg y).

(** An infinity of the given sign times the real [a]; zero times an infinity
    is not a number. *)
Definition inf_times (positive : bool) (a : R) : num :=
  if Req_dec_T a 0 then NaN
  else if Rlt_dec 0 a then (if positive then PInf else NInf)
  else (if positive then NInf else PInf).

Definition nmul (x y : num) : num :=
  match x, y with
  | NaN, _ | _, NaN => NaN
  | Fin a, Fin b => Fin (a * b)
  | Fin a, PInf | PInf, Fin a => inf_times true a
  | Fin a, NInf | NInf, Fin a => inf_times false a
  | PInf, PInf | NInf, NInf => PInf
  | PInf, NInf | NInf, PInf => NInf
  end.

Definition ninv (x : num) : num :=
  match x with
  | Fin r => if Req_dec_T r 0 then PInf else Fin (/ r)
  | PInf | NInf => Fin 0
  | NaN => NaN
  end.

Definition ndiv (x y : num) : num := nmul x (ninv y).

(** [log 0 = -inf]; the logarithm of a negative number is not a number. *)
Definition nlog (x : num) : num :=
  match x with
  | Fin r => if Req_dec_T r 0 then NInf
             else if Rlt_dec 0 r then Fin (ln r) else NaN
  | PInf => PInf
  | NInf | NaN => NaN
  end.

Definition nexp (x : num) : num :=
  match x with
  | Fin r => Fin (exp r)
  | PInf => PInf
  | NInf => Fin 0
  | NaN => NaN
  end.

Definition nabs (x : num) : num :=
  match x with
  | Fin r => Fin (Rabs r)
  | PInf | NInf => PInf
  | NaN => NaN
  end.

(** Comparisons; every comparison with not-a-number is false. *)
Definition nleb (x y : num) : bool :=
  match x, y with
  | NaN, _ | _, NaN => false
  | NInf, _ | _, PInf => true
  | Fin a, Fin b => if Rle_dec a b then true else false
  | _, _ => false
  end.

Definition nltb (x y : num) : bool :=
  match x, y with
  | NaN, _ | _, NaN => false
  | PInf, _ | _, NInf => false
  | Fin a, Fin b => if Rlt_dec a b then true else false
  | _, _ => true
  end.

Definition neqb (x y : num) : bool :=
  match x, y with
  | Fin a, Fin b => if Req_dec_T a b then true else false
  | PInf, PInf | NInf, NInf => true
  | _, _ => false
  end.

(** Sum of a list of numbers, as a reduction does it. *)
Definition nsum (l : list num) : num := fold_right nadd (Fin 0) l.

Definition is_fin (x : num) : Prop :=
  match x with Fin _ => True | _ => False end.

End Num.
Export Num.

(** ** Tensors *)

Module Tensor.

(** Python exceptions raised while the graph is built. *)
Inductive exn : Type :=
| ConfigurationError
| ShapeError.

Inductive result (A : Type) : Type :=
| Ok (a : A)
| Raise (e : exn).
Arguments Ok {A} a.
Arguments Raise {A} e.

Definition bind {A B : Type} (m : result A) (k : A -> result B) : result B :=
  match m with
  | Ok a => k a
  | Raise e => Raise e
  end.

Notation "x <- m ;; k" := (bind m (fun x => k))
  (at level 61, m at next level, right associativity).

(** Shapes and indices list the innermost axis first: the shape written
    [[N1, ..., Nm, k]] in Python is [k :: Nm :: ... :: N1 :: nil] here, and the
    element [t[b1, ..., bm, j]] is [get t (j :: bm :: ... :: b1 :: nil)].  Axis
    [-1] is the head of the list, and broadcasting, which aligns trailing
    axes, is structural. *)
Record tensor : Type := mkTensor {
  shape : list nat;
  get : list nat -> num
}.

Fixpoint valid_index (s idx : list nat) : Prop :=
  match s, idx with
  | [], [] => True
  | d :: s', i :: idx' => (i < d)%nat /\ valid_index s' idx'
  | _, _ => False
  end.

(** Two tensors are the same value when they agree on shape and elements. *)
Definition tensor_eq (a b : tensor) : Prop :=
  shape a = shape b /\
  forall idx, valid_index (shape a) idx -> get a idx = get b idx.

Definition scalar (x : num) : tensor := mkTensor [] (fun _ => x).

Definition vector (l : list num) : tensor :=
  mkTensor [length l] (fun idx => nth (hd 0%nat idx) l NaN).

(** A batch of vectors, Python shape [[length rows, k]]. *)
Definition matrix (k : nat) (rows : list (list num)) : tensor :=
  mkTensor [k; length rows]
    (fun idx => nth (hd 0%nat idx) (nth (hd 0%nat (tl idx)) rows []) NaN).

(** *** Broadcasting *)

(** Modelled from the spec: the broadcasting of the array library is not part
    of the sources; two axes are compatible when their lengths are equal or
    one of them is 1, which is stretched (sections 6 and 9). *)
Definition bdim (x y : nat) : option nat :=
  if (x =? y)%nat then Some x
  else if (x =? 1)%nat then Some y
  else if (y =? 1)%nat then Some x
  else None.

(** Modelled from the spec: the shape inference of the array library is not
    part of the sources; two shapes are aligned on their trailing axes, the
    shorter one being completed by leading axes of the other. *)
Fixpoint broadcast_shape (a b : list nat) : option (list nat) :=
  match a, b with
  | [], _ => Some b
  | _, [] => Some a
  | x :: a', y :: b' =>
      match bdim x y, broadcast_shape a' b' with
      | Some d, Some r => Some (d :: r)
      | _, _ => None
      end
  end.

(** The broadcast of two shapes either of which may already be undefined, for
    chains of broadcasts. *)
Definition join (a b : option (list nat)) : option (list nat) :=
  match a, b with
  | Some x, Some y => broadcast_shape x y
  | _, _ => None
  end.

(** The index of the operand of shape [s] read for the result index [idx]:
    the trailing axes of [idx], with 0 on the axes of length 1. *)
Fixpoint bindex (s idx : list nat) : list nat :=
  match s, idx with
  | d :: s', i :: idx' => (if (d =? 1)%nat then 0%nat else i) :: bindex s' idx'
  | _, _ => []
  end.

(** Modelled from the spec: elementwise arithmetic with broadcasting is not
    part of the sources; operands whose shapes do not broadcast are refused
    when the graph is built. *)
Definition broadcast2 (f : num -> num -> num) (a b : tensor) : result tensor :=
  match broadcast_shape (shape a) (shape b) with
  | Some s =>
      Ok (mkTensor s (fun idx =>
            f (get a (bindex (shape a) idx)) (get b (bindex (shape b) idx))))
  | None => Raise ShapeError
  end.

Definition tmap (f : num -> num) (a : tensor) : tensor :=
  mkTensor (shape a) (fun idx => f (get a idx)).

(** *** The array operations the module calls, on values *)

(** Modelled from the spec: [array_ops.identity] is not part of the sources;
    the same value. *)
Definition identity (a : tensor) : tensor := a.

(** Modelled from the spec: [array_ops.ones_like] is not part of the sources;
    the tensor of ones of the same shape. *)
Definition ones_like (a : tensor) : tensor :=
  mkTensor (shape a) (fun _ => Fin 1).

(** Modelled from the spec: [array_ops.expand_dims] is not part of the
    sources; [expand_dims(a, -1)] adds a last axis of length 1. *)
Definition expand_dims_last (a : tensor) : tensor :=
  mkTensor (1%nat :: shape a) (fun idx => get a (tl idx)).

(** Modelled from the spec: [array_ops.expand_dims] is not part of the
    sources; [expand_dims(a, -2)] adds an axis of length 1 before the last
    one; a scalar has no axis [-2]. *)
Definition expand_dims_before_last (a : tensor) : result tensor :=
  match shape a with
  | k :: s =>
      Ok (mkTensor (k :: 1%nat :: s)
            (fun idx => get a (hd 0%nat idx :: tl (tl idx))))
  | [] => Raise ShapeError
  end.

(** Modelled from the spec: [math_ops.reduce_sum] is not part of the sources;
    [reduce_sum(a, reduction_indices=[-1])] sums along the last axis, which a
    scalar does not have. *)
Definition reduce_sum_last (a : tensor) : result tensor :=
  match shape a with
  | k :: s =>
      Ok (mkTensor s (fun idx => nsum (map (fun j => get a (j :: idx)) (seq 0 k))))
  | [] => Raise ShapeError
  end.

Definition shape_eqb (a b : list nat) : bool :=
  if list_eq_dec Nat.eq_dec a b then true else false.

(** Modelled from the spec: [math_ops.batch_matmul] is not part of the
    sources; Python shapes [[..., m, k]] and [[..., k, n]] with equal batch
    axes (no broadcasting) give the matrix products, of shape
    [[..., m, n]]. *)
Definition batch_matmul (a b : tensor) : result tensor :=
  match shape a, shape b with
  | k :: m :: sa, n :: k' :: sb =>
      if (k =? k')%nat && shape_eqb sa sb then
        Ok (mkTensor (n :: m :: sa)
              (fun idx =>
                 let j := hd 0%nat idx in
                 let i := hd 0%nat (tl idx) in
                 let bt := tl (tl idx) in
                 nsum (map (fun l => nmul (get a (l :: i :: bt))
                                          (get b (j :: l :: bt)))
                           (seq 0 k))))
      else Raise ShapeError
  | _, _ => Raise ShapeError
  end.

(** Modelled from the spec: [array_ops.batch_matrix_set_diag] is not part of
    the sources; the matrices of [input] with their main diagonals replaced
    by the vectors of [diagonal]. *)
Definition batch_matrix_set_diag (input diagonal : tensor) : result tensor :=
  match shape input with
  | n :: m :: s =>
      if shape_eqb (shape diagonal) (Nat.min m n :: s) then
        Ok (mkTensor (n :: m :: s)
              (fun idx =>
                 let j := hd 0%nat idx in
                 let i := hd 0%nat (tl idx) in
                 if (i =? j)%nat then get diagonal (i :: tl (tl idx))
                 else get input idx))
      else Raise ShapeError
  | _ => Raise ShapeError
  end.

(** All the indices of a shape. *)
Fixpoint indices (s : list nat) : list (list nat) :=
  match s with
  | [] => [[]]
  | d :: s' => flat_map (fun idx => map (fun i => i :: idx) (seq 0 d)) (indices s')
  end.

(** Whether every element satisfies a test. *)
Definition all_elements (f : num -> bool) (a : tensor) : bool :=
  forallb (fun idx => f (get a idx)) (indices (shape a)).

(** *** Shapes as tensors *)

(** Modelled from the spec: [array_ops.shape] is not part of the sources; the
    vector of the lengths of the axes, outermost axis first, as Python writes
    a shape (section 6, shape introspection). *)
Definition shape_tensor (a : tensor) : tensor :=
  vector (map (fun d => Fin (INR d)) (rev (shape a))).

(** Modelled from the spec: [array_ops.rank] is not part of the sources; the
    number of axes, a scalar. *)
Definition rank (a : tensor) : tensor :=
  scalar (Fin (INR (length (shape a)))).

(** Modelled from the spec: a Python list of tensors used as a tensor is
    packed along a new outermost axis; the tensors must have one shape. *)
Definition pack (l : list tensor) : result tensor :=
  match l with
  | [] => Ok (vector [])
  | t :: _ =>
      if forallb (fun u => shape_eqb (shape u) (shape t)) l then
        Ok (mkTensor (shape t ++ [length l])
              (fun idx => get (nth (last idx 0%nat) l t) (removelast idx)))
      else Raise ShapeError
  end.

(** The position an entry of a tensor of indices designates: the entry is a
    natural number. *)
Definition index_of (x : num) : option nat :=
  match x with
  | Fin r =>
      if Req_dec_T r (IZR (Int_part r)) then
        if Rle_dec 0 r then Some (Z.to_nat (Int_part r)) else None
      else None
  | _ => None
  end.

(** Modelled from the spec: [array_ops.gather] is not part of the sources;
    the slices of [params] along its outermost axis at the positions held by
    [indices], Python shape [[indices.shape, params.shape[1:]]]. *)
Definition gather (params indices : tensor) : result tensor :=
  match shape params with
  | [] => Raise ShapeError
  | _ :: _ =>
      let inner := removelast (shape params) in
      Ok (mkTensor (inner ++ shape indices)
            (fun idx =>
               match index_of (get indices (skipn (length inner) idx)) with
               | Some i => get params (firstn (length inner) idx ++ [i])
               | None => NaN
               end))
  end.

(** Whether every position held by [indices] lies on the outermost axis of
    [params]. *)
Definition gather_in_range (params indices : tensor) : bool :=
  all_elements
    (fun x => match index_of x with
              | Some i => (i <? last (shape params) 0)%nat
              | None => false
              end)
    indices.

End Tensor.
Export Tensor.

(** ** Graph tensors and assertions *)

Module Graph.

(** A tensor of the computation graph: its value, and the messages of the
    assertions that fail among the control dependencies it (transitively)
    carries.  The value is only observed when no assertion fails. *)
Record node : Type := mkNode {
  failed : list string;
  val : tensor
}.

(** A value supplied by the caller carries no dependency. *)
Definition constant (t : tensor) : node := mkNode [] t.

(** An operation runs after the dependencies of its inputs. *)
Definition op1 (f : tensor -> tensor) (x : node) : node :=
  mkNode (failed x) (f (val x)).

Definition op1r (f : tensor -> result tensor) (x : node) : result node :=
  t <- f (val x) ;; Ok (mkNode (failed x) t).

Definition op2 (f : tensor -> tensor -> result tensor) (x y : node)
  : result node :=
  t <- f (val x) (val y) ;; Ok (mkNode (failed x ++ failed y) t).

(** The failures an assertion operation contributes: those of its inputs,
    and its own message when its condition is false. *)
Definition assertion : Type := list string.

Definition Assert (inputs : list node) (condition : bool) (message : string)
  : assertion :=
  flat_map failed inputs ++ (if condition then [] else [message]).

(** Modelled from the spec: [control_flow_ops.with_dependencies] and
    [ops.control_dependencies] of the graph library are not part of the
    sources; the tensor produced runs after the given assertions (section 5:
    a validation failure surfaces together with the result it guards). *)
Definition with_dependencies (dependencies : list assertion) (x : node) : node :=
  mkNode (concat dependencies ++ failed x) (val x).

Definition control_dependencies (dependencies : list assertion) (x : node)
  : node :=
  with_dependencies dependencies x.

(** What evaluating a graph tensor gives.  The assertions run in no fixed
    order: any one of those that fail may be the one reported. *)
Inductive outcome : Type :=
| Returns (t : tensor)
| Fails (message : string).

Definition run (x : node) (o : outcome) : Prop :=
  match o with
  | Returns t => failed x = [] /\ t = val x
  | Fails message => In message (failed x)
  end.

(** Modelled from the spec: [check_ops.assert_non_negative] is not part of the
    sources; every entry is at least 0. *)
Definition assert_non_negative (x : node) (message : string) : assertion :=
  Assert [x] (all_elements (nleb (Fin 0)) (val x)) message.

(** Modelled from the spec: [check_ops.assert_equal] is not part of the
    sources; the two tensors, broadcast against each other, are equal entry
    by entry. *)
Definition assert_equal (x y : node) (message : string) : result assertion :=
  match broadcast_shape (shape (val x)) (shape (val y)) with
  | Some s =>
      Ok (Assert [x; y]
            (forallb (fun idx => neqb (get (val x) (bindex (shape (val x)) idx))
                                      (get (val y) (bindex (shape (val y)) idx)))
                     (indices s))
            message)
  | None => Raise ShapeError
  end.

(** Whether a number is integer valued: it is finite and equals its floor. *)
Definition is_integer (x : num) : bool :=
  match x with
  | Fin r => if Req_dec_T r (IZR (Int_part r)) then true else false
  | _ => false
  end.

(** Modelled from the spec: [distribution_util.assert_integer_form] is not
    part of the sources; every component equals its floor (section 4.2). *)
Definition assert_integer_form (x : node) (message : string) : assertion :=
  Assert [x] (all_elements is_integer (val x)) message.

(** Modelled from the spec: the closeness assertion of [distribution_util] is
    not part of the sources; every entry of [x] is within the tolerance of
    [y] (section 4.1: sums to 1 within tolerance). *)
Definition assert_close (tol : R) (x : node) (y : num) (message : string)
  : assertion :=
  Assert [x]
    (all_elements (fun v => nltb (nabs (nsub v y)) (Fin tol)) (val x)) message.

(** The operations of [math_ops] and [array_ops] on graph tensors: those on
    values above, run after the dependencies of their inputs.  [lgamma] takes
    the log-gamma function of the array library as a parameter. *)
Module math_ops.
Definition add : node -> node -> result node := op2 (broadcast2 nadd).
Definition sub : node -> node -> result node := op2 (broadcast2 nsub).
Definition mul : node -> node -> result node := op2 (broadcast2 nmul).
Definition div : node -> node -> result node := op2 (broadcast2 ndiv).
Definition neg : node -> node := op1 (tmap nneg).
Definition log : node -> node := op1 (tmap nlog).
Definition exp : node -> node := op1 (tmap nexp).
Definition lgamma (f : num -> num) : node -> node := op1 (tmap f).
Definition reduce_sum : node -> result node := op1r reduce_sum_last.
Definition batch_matmul : node -> node -> result node := op2 Tensor.batch_matmul.
End math_ops.

Module array_ops.
Definition identity : node -> node := op1 Tensor.identity.
Definition ones_like : node -> node := op1 Tensor.ones_like.
Definition expand_dims_last : node -> node := op1 Tensor.expand_dims_last.
Definition expand_dims_before_last : node -> result node :=
  op1r Tensor.expand_dims_before_last.
Definition batch_matrix_set_diag : node -> node -> result node :=
  op2 Tensor.batch_matrix_set_diag.
Definition rank : node -> node := op1 Tensor.rank.
Definition pack (l : list node) : result node :=
  t <- Tensor.pack (map val l) ;; Ok (mkNode (flat_map failed l) t).
Definition msg_gather_range : string := "indices out of range.".
(** A position off the outermost axis of [params] is an error when the
    operation runs. *)
Definition gather (params indices : node) : result node :=
  t <- Tensor.gather (val params) (val indices) ;;
  Ok (mkNode
        (Assert [params; indices]
           (gather_in_range (val params) (val indices)) msg_gather_range)
        t).
Definition shape : node -> node := op1 Tensor.shape_tensor.
End array_ops.

End Graph.
Export Graph.

(** ** distribution_util *)

Module distribution_util.

Section WithPrimitives.

(** The log-gamma function of the array library. *)
Variable lgamma : num -> num.

(** The tolerance of the sum-to-one check. *)
Variable tol : R.

(** Modelled from the spec: [distribution_util.log_combinations] is not part
    of the sources; [log(n!) - sum_j log(counts_j!)], each log-factorial
    evaluated as [lgamma(x+1)] (section 4.3, step 3). *)
Definition log_combinations (n counts : node) : result node :=
  n1 <- math_ops.add n (constant (scalar (Fin 1))) ;;
  let total_permutations := math_ops.lgamma lgamma n1 in
  counts1 <- math_ops.add counts (constant (scalar (Fin 1))) ;;
  let counts_factorial := math_ops.lgamma lgamma counts1 in
  redundant_permutations <- math_ops.reduce_sum counts_factorial ;;
  math_ops.sub total_permutations redundant_permutations.

Definition msg_p_negative : string := "p has negative components.".
Definition msg_p_sum : string := "p does not sum to 1.".

(** Modelled from the spec: [distribution_util.get_logits_and_prob] is not
    part of the sources; exactly one of [logits] and [p] is given, the other
    is derived ([logits = log(p)], [p] the normalized exponential of [logits]
    over the last axis), and when validation is requested [p] carries the
    assertions that its entries are non-negative and that it sums to 1 along
    the last axis within tolerance (section 4.1). *)
Definition get_logits_and_prob (logits p : option tensor) (validate_args : bool)
  : result (node * node) :=
  match logits, p with
  | None, None => Raise ConfigurationError
  | Some _, Some _ => Raise ConfigurationError
  | Some l, None =>
      let logits := array_ops.identity (constant l) in
      let e := math_ops.exp logits in
      total <- math_ops.reduce_sum e ;;
      p <- math_ops.div e (array_ops.expand_dims_last total) ;;
      Ok (logits, p)
  | None, Some p =>
      let p := array_ops.identity (constant p) in
      if validate_args then
        total <- math_ops.reduce_sum p ;;
        let p := with_dependencies
                   [assert_non_negative p msg_p_negative;
                    assert_close tol total (Fin 1) msg_p_sum] p in
        Ok (math_ops.log p, p)
      else Ok (math_ops.log p, p)
  end.

End WithPrimitives.

End distribution_util.

(** ** The Multinomial class *)

Module Multinomial.

(** The state of an instance: the attributes set by [__init__], and the two
    flags it hands to the base class, which keeps them ([self.validate_args],
    [self.allow_nan_stats]). *)
Record t : Type := mkMultinomial {
  _logits : node;
  _p : node;
  _n : node;
  _mean_val : node;
  _broadcast_shape : node;
  validate_args : bool;
  allow_nan_stats : bool
}.

(** The defaults of the keyword arguments of [__init__]. *)
Definition default_validate_args : bool := true.
Definition default_allow_nan_stats : bool := false.

Definition msg_n_negative : string := "n has negative components.".
Definition msg_n_integer : string := "n has non-integer components.".
Definition msg_counts_negative : string := "counts has negative components.".
Definition msg_counts_sum : string := "counts do not sum to n.".
Definition msg_counts_integer : string := "counts have non-integer components.".

Section WithPrimitives.

Variable lgamma : num -> num.
Variable tol : R.

(** The assertions on [n] that [__init__] puts before the operations it
    creates. *)
Definition n_checks (n : node) (validate_args : bool) : list assertion :=
  if validate_args then
    [assert_non_negative n msg_n_negative;
     assert_integer_form n msg_n_integer]
  else [].

(** [__init__(self, n, logits=None, p=None, validate_args=True,
    allow_nan_stats=False)]; a keyword argument that is not supplied is
    [None] here and takes its default.  The operations created inside the
    [with ops.control_dependencies(...)] block carry the assertions on [n].
    The name scopes and the [parameters] dictionary handed to the base class
    do not bear on the values and are left out. *)
Definition __init__ (n : tensor) (logits p : option tensor)
    (validate_args allow_nan_stats : option bool) : result t :=
  let validate_args :=
    match validate_args with Some b => b | None => default_validate_args end in
  let allow_nan_stats :=
    match allow_nan_stats with Some b => b | None => default_allow_nan_stats end in
  lp <- distribution_util.get_logits_and_prob tol logits p validate_args ;;
  let checks := n_checks (constant n) validate_args in
  let n_ := control_dependencies checks (array_ops.identity (constant n)) in
  let expanded :=
    control_dependencies checks (array_ops.expand_dims_last (constant n)) in
  prod <- math_ops.mul expanded (snd lp) ;;
  let mean_val := control_dependencies checks prod in
  total <- math_ops.reduce_sum mean_val ;;
  let broadcast_shape := control_dependencies checks total in
  Ok {| _logits := fst lp;
        _p := snd lp;
        _n := n_;
        _mean_val := mean_val;
        _broadcast_shape := broadcast_shape;
        validate_args := validate_args;
        allow_nan_stats := allow_nan_stats |}.

Definition n (self : t) : node := _n self.
Definition p (self : t) : node := _p self.
Definition logits (self : t) : node := _logits self.

Definition _batch_shape (self : t) : node :=
  array_ops.shape (_broadcast_shape self).

Definition _get_batch_shape (self : t) : list nat :=
  shape (val (_broadcast_shape self)).

Definition _event_shape (self : t) : result node :=
  last_axis <- math_ops.sub (array_ops.rank (_mean_val self))
                 (constant (scalar (Fin 1))) ;;
  indices <- array_ops.pack [last_axis] ;;
  array_ops.gather (array_ops.shape (_mean_val self)) indices.

Definition _get_event_shape (self : t) : list nat :=
  firstn 1 (shape (val (_mean_val self))).

(** Check counts for proper shape, values, then return tensor version. *)
Definition _assert_valid_sample (self : t) (counts : node) : result node :=
  if negb (validate_args self) then Ok counts
  else
    let non_negative := assert_non_negative counts msg_counts_negative in
    total <- math_ops.reduce_sum counts ;;
    sums_to_n <- assert_equal (n self) total msg_counts_sum ;;
    let integer := assert_integer_form counts msg_counts_integer in
    Ok (with_dependencies [non_negative; sums_to_n; integer] counts).

Definition _log_prob (self : t) (counts : node) : result node :=
  counts <- _assert_valid_sample self counts ;;
  weighted <- math_ops.mul counts (math_ops.log (p self)) ;;
  log_unnormalized_prob <- math_ops.reduce_sum weighted ;;
  combinations <- distribution_util.log_combinations lgamma (n self) counts ;;
  let log_normalizer := math_ops.neg combinations in
  math_ops.sub log_unnormalized_prob log_normalizer.

Definition _prob (self : t) (counts : node) : result node :=
  lp <- _log_prob self counts ;;
  Ok (math_ops.exp lp).

Definition _mean (self : t) : node := array_ops.identity (_mean_val self).

Definition _variance (self : t) : result node :=
  p <- math_ops.mul (p self)
         (array_ops.expand_dims_last (array_ops.ones_like (n self))) ;;
  row <- array_ops.expand_dims_before_last p ;;
  outer_prod <- math_ops.batch_matmul
                  (array_ops.expand_dims_last (_mean_val self)) row ;;
  scaled <- math_ops.mul (_mean_val self) p ;;
  diagonal <- math_ops.sub (_mean_val self) scaled ;;
  array_ops.batch_matrix_set_diag (math_ops.neg outer_prod) diagonal.

(** Modelled from the spec: the base class [distribution.Distribution] is not
    part of the sources; its public methods hand the argument, made a tensor,
    to the method of the same name with a leading underscore (section 6). *)
Definition log_prob (self : t) (counts : tensor) : result node :=
  _log_prob self (constant counts).

Definition prob (self : t) (counts : tensor) : result node :=
  _prob self (constant counts).

Definition mean (self : t) : node := _mean self.

Definition variance (self : t) : result node := _variance self.

End WithPrimitives.

End Multinomial.

(** ** What the specification says, for comparison *)

Module Spec.

(** [log(x!)] entry by entry, evaluated as [lgamma(x+1)]. *)
Definition log_factorial (lgamma : num -> num) (x : tensor) : tensor :=
  tmap (fun v => lgamma (nadd v (Fin 1))) x.

(** [sum(counts*log(p)) + log(n!) - sum(log(counts_j!))], the sums taken over
    the last axis. *)
Definition log_prob (lgamma : num -> num) (n p counts : tensor)
  : result tensor :=
  weighted <- broadcast2 nmul counts (tmap nlog p) ;;
  s <- reduce_sum_last weighted ;;
  with_n <- broadcast2 nadd s (log_factorial lgamma n) ;;
  c <- reduce_sum_last (log_factorial lgamma counts) ;;
  broadcast2 nsub with_n c.

(** Two results of building a tensor agree: the same exception, or tensors
    with the same shape and entries. *)
Definition agree (a : result node) (b : result tensor) : Prop :=
  match a, b with
  | Ok x, Ok y => tensor_eq (val x) y
  | Raise e, Raise e' => e = e'
  | _, _ => False
  end.

(** Some entry is negative (or not a number): it fails the test [0 <= x]. *)
Definition has_negative (a : tensor) : Prop :=
  exists idx, valid_index (shape a) idx /\ nleb (Fin 0) (get a idx) = false.

(** Some entry is not integer valued. *)
Definition has_non_integer (a : tensor) : Prop :=
  exists idx, valid_index (shape a) idx /\ is_integer (get a idx) = false.

(** For some batch element, the sum of [counts] over the last axis is not
    equal to the trial count. *)
Definition sum_differs (n counts : tensor) : Prop :=
  exists kc C NC b,
    shape counts = kc :: C /\
    broadcast_shape (shape n) C = Some NC /\
    valid_index NC b /\
    neqb (get n (bindex (shape n) b))
         (nsum (map (fun j => get counts (j :: bindex C b)) (seq 0 kc)))
    = false.

(** The real number a finite value holds. *)
Definition to_R (x : num) : R :=
  match x with Fin r => r | _ => 0 end.

(** Every entry of a tensor is a real number. *)
Definition finite (a : tensor) : Prop :=
  forall idx, valid_index (shape a) idx -> is_fin (get a idx).

(** All the [K]-tuples of natural numbers that sum to [n]. *)
Fixpoint compositions (K n : nat) : list (list nat) :=
  match K with
  | O => match n with O => [[]] | S _ => [] end
  | S K' =>
      flat_map (fun k => map (cons k) (compositions K' (n - k))) (seq 0 (S n))
  end.

Definition Rsum (l : list R) : R := fold_right Rplus 0 l.
Definition Rprod (l : list R) : R := fold_right Rmult 1 l.

(** The probability mass function of the class docstring,
    [n! / (n_1! ... n_k!) * p_1^n_1 * ... * p_k^n_k]. *)
Definition pmf (n : nat) (p : list R) (c : list nat) : R :=
  INR (fact n) / Rprod (map (fun k => INR (fact k)) c)
  * Rprod (map (fun pk => fst pk ^ snd pk) (combine p c)).

(** A vector of reals and a vector of natural numbers as tensors. *)
Definition real_vector (l : list R) : tensor := vector (map Fin l).
Definition nat_vector (l : list nat) : tensor :=
  vector (map (fun k => Fin (INR k)) l).
Definition nat_scalar (n : nat) : tensor := scalar (Fin (INR n)).

(** The value of a scalar result; not a number when there is none. *)
Definition scalar_value (x : result node) : num :=
  match x with
  | Ok v => get (val v) []
  | Raise _ => NaN
  end.

(** Exactly one of [logits] and [p] is supplied, and it is the tensor [q]. *)
Definition given (logits p : option tensor) (q : tensor) : Prop :=
  (logits = Some q /\ p = None) \/ (logits = None /\ p = Some q).

(** Two results of building a graph tensor have the same value: the same
    exception, or tensors with the same shape and entries. *)
Definition same_value (a b : result node) : Prop :=
  match a, b with
  | Ok x, Ok y => tensor_eq (val x) (val y)
  | Raise e, Raise e' => e = e'
  | _, _ => False
  end.

(** The [K] entries along the class axis of a tensor, for the batch element
    [b]. *)
Definition row (a : tensor) (K : nat) (b : list nat) : list num :=
  map (fun j => get a (j :: b)) (seq 0 K).

(** The counts of a single draw that falls in class [j] of [K]. *)
Fixpoint one_hot (K j : nat) : list nat :=
  match K with
  | O => []
  | S K' =>
      match j with
      | O => 1%nat :: repeat 0%nat K'
      | S j' => 0%nat :: one_hot K' j'
      end
  end.

(** A log-gamma that is exact on the positive integers, [lgamma(k+1) =
    ln(k!)], and constant between them; it instantiates the primitive where a
    statement is evaluated on integer counts. *)
Definition lgamma_steps (x : num) : num :=
  match x with
  | Fin r => Fin (ln (INR (fact (Z.to_nat (Int_part r) - 1))))
  | PInf | NInf => PInf
  | NaN => NaN
  end.

End Spec.

(** ** Concrete inputs *)

Module Examples.

(** The three-class distribution of the class docstring, [n = 4] and
    [p = [.2, .3, .5]], with the counts [[1, 0, 3]]. *)
Definition tol : R := / 1000000.
Definition p : list R := [2 / 10; 3 / 10; 5 / 10].
Definition counts : list nat := [1; 0; 3]%nat.

(** The 2-batch of 3-class distributions of the class docstring,
    [n = [4, 5]] and [p = [[.1, .2, .7], [.3, .3, .4]]]. *)
Definition batch_n : tensor := vector [Fin 4; Fin 5].
Definition batch_p : tensor :=
  matrix 3 [[Fin (1 / 10); Fin (2 / 10); Fin (7 / 10)];
            [Fin (3 / 10); Fin (3 / 10); Fin (4 / 10)]].

(** A trial count that is negative and not an integer, and counts with a
    negative component. *)
Definition bad_n : tensor := scalar (Fin (- (1 / 2))).
Definition bad_counts : tensor := vector [Fin (-1); Fin 0; Fin 0].

(** Probabilities with two zero classes, and a draw in the first of them. *)
Definition p_with_zeros : list R := [0; 0; 1].
Definition counts_in_zero_class : list nat := [1; 0; 0]%nat.

(** Probabilities with one zero class, and a draw in it. *)
Definition p_with_zero : list R := [0; 1].
Definition counts_in_the_zero_class : list nat := [1; 0]%nat.

(** The counts [[2, 1, 1], [3, 1, 1]] of the class docstring, for its
    2-batch; and three trial counts, which do not fit a 2-batch. *)
Definition batch_counts : tensor :=
  matrix 3 [[Fin 2; Fin 1; Fin 1]; [Fin 3; Fin 1; Fin 1]].
Definition three_n : tensor := vector [Fin 4; Fin 5; Fin 6].

(** The counts [[1, 2, 1], [2, 2, 0]] of the class docstring, against which
    its [p] is broadcast. *)
Definition two_counts : tensor :=
  matrix 3 [[Fin 1; Fin 2; Fin 1]; [Fin 2; Fin 2; Fin 0]].

End Examples.

(** * Properties *)

(** ** Lists read by position *)

Section ListFacts.

Lemma map_nth_seq {A B : Type} (f : A -> B) (l : list A) (d : A) :
  map (fun j => f (nth j l d)) (seq 0 (length l)) = map f l.
Proof.
  induction l as [|a l IH]; trivial.
  cbn [length seq map nth]. f_equal.
  rewrite <- seq_shift, map_map. exact IH.
Qed.

Lemma map_nth_seq_combine {A B C : Type} (f : A -> B -> C)
    (la : list A) (lb : list B) (da : A) (db : B) :
  length la = length lb ->
  map (fun j => f (nth j la da) (nth j lb db)) (seq 0 (length la)) =
  map (fun ab => f (fst ab) (snd ab)) (combine la lb).
Proof.
  revert lb; induction la as [|a la IH]; intros [|b lb] H; try discriminate;
    trivial.
  cbn [length seq map nth combine fst snd]. f_equal.
  rewrite <- seq_shift, map_map. apply IH. now inversion H.
Qed.

End ListFacts.

(** ** Arithmetic of the extended numbers *)

Section NumFacts.

Lemma nadd_0_r (x : num) : nadd x (Fin 0) = x.
Proof. destruct x; simpl; trivial. f_equal; lra. Qed.

Lemma nsub_nneg_nsub (a b c : num) :
  nsub a (nneg (nsub b c)) = nsub (nadd a b) c.
Proof.
  destruct a, b, c; simpl; trivial; f_equal; lra.
Qed.

Lemma nsum_cons (x : num) (l : list num) : nsum (x :: l) = nadd x (nsum l).
Proof. reflexivity. Qed.

Lemma nsum_fin (l : list R) :
  nsum (map Fin l) = Fin (Spec.Rsum l).
Proof.
  induction l as [|r l IH]; trivial.
  change (nsum (map Fin (r :: l))) with (nadd (Fin r) (nsum (map Fin l))).
  now rewrite IH.
Qed.

Lemma nsum_map_fin {A : Type} (f : A -> num) (g : A -> R) (l : list A) :
  (forall a, In a l -> f a = Fin (g a)) ->
  nsum (map f l) = Fin (Spec.Rsum (map g l)).
Proof.
  intros H. rewrite <- nsum_fin, map_map. f_equal.
  apply map_ext_in. exact H.
Qed.

Lemma is_fin_to_R (x : num) : is_fin x -> x = Fin (Spec.to_R x).
Proof. destruct x; simpl; intros H; trivial; contradiction. Qed.

Lemma nsum_is_fin (l : list num) :
  (forall x, In x l -> is_fin x) -> is_fin (nsum l).
Proof.
  induction l as [|x l IH]; intros H; [exact I|].
  rewrite nsum_cons. pose proof (H x (or_introl eq_refl)) as Hx.
  assert (Hl : is_fin (nsum l)) by (apply IH; intros y Hy; apply H; now right).
  destruct x, (nsum l); try contradiction. exact I.
Qed.

Lemma nsum_fin_or_neg_inf (l : list num) :
  (forall x, In x l -> is_fin x \/ x = NInf) ->
  is_fin (nsum l) \/ nsum l = NInf.
Proof.
  induction l as [|x l IH]; intros H; [left; exact I|].
  rewrite nsum_cons.
  assert (Hl : forall y, In y l -> is_fin y \/ y = NInf)
    by (intros y Hy; apply H; now right).
  specialize (IH Hl).
  destruct (H x (or_introl eq_refl)) as [Hx|Hx].
  - destruct x; try contradiction. destruct IH as [Hf|Hf].
    + destruct (nsum l); try contradiction. left. exact I.
    + rewrite Hf. now right.
  - subst x. destruct IH as [Hf|Hf].
    + destruct (nsum l); try contradiction. now right.
    + rewrite Hf. now right.
Qed.

Lemma nsum_neg_inf (l : list num) :
  (forall x, In x l -> is_fin x \/ x = NInf) ->
  In NInf l ->
  nsum l = NInf.
Proof.
  induction l as [|x l IH]; intros H Hin; [destruct Hin|].
  rewrite nsum_cons.
  assert (Hl : forall y, In y l -> is_fin y \/ y = NInf)
    by (intros y Hy; apply H; now right).
  destruct Hin as [->|Hin].
  - destruct (nsum_fin_or_neg_inf l Hl) as [Hf|Hf].
    + destruct (nsum l); try contradiction. reflexivity.
    + now rewrite Hf.
  - rewrite (IH Hl Hin).
    destruct (H x (or_introl eq_refl)) as [Hx| ->]; [|reflexivity].
    destruct x; try contradiction. reflexivity.
Qed.

End NumFacts.

(** ** Shapes, indices and broadcasting *)

Section TensorFacts.

Lemma bdim_refl (x : nat) : bdim x x = Some x.
Proof. unfold bdim. now rewrite Nat.eqb_refl. Qed.

Lemma bdim_1_l (y : nat) : bdim 1 y = Some y.
Proof.
  unfold bdim. destruct (Nat.eqb_spec 1 y); subst; trivial.
Qed.

Lemma bdim_comm (x y : nat) : bdim x y = bdim y x.
Proof.
  unfold bdim.
  destruct (Nat.eqb_spec x y), (Nat.eqb_spec y x), (Nat.eqb_spec x 1),
    (Nat.eqb_spec y 1); subst; congruence.
Qed.

Lemma bdim_assoc (x y z : nat) :
  match bdim y z with Some d => bdim x d | None => None end =
  match bdim x y with Some d => bdim d z | None => None end.
Proof.
  unfold bdim.
  repeat match goal with
    | |- context [Nat.eqb ?a ?b] =>
        destruct (Nat.eqb_spec a b); try subst; cbv iota
    end; try reflexivity; try congruence; try lia.
Qed.

Lemma bdim_one (x y d : nat) :
  bdim x y = Some d -> d = 1%nat -> x = 1%nat /\ y = 1%nat.
Proof.
  unfold bdim.
  destruct (Nat.eqb_spec x y), (Nat.eqb_spec x 1), (Nat.eqb_spec y 1);
    intros H; inversion H; subst; lia.
Qed.

Lemma bdim_cases (x y d : nat) :
  bdim x y = Some d -> (x = d \/ x = 1%nat) /\ (y = d \/ y = 1%nat).
Proof.
  unfold bdim.
  destruct (Nat.eqb_spec x y), (Nat.eqb_spec x 1), (Nat.eqb_spec y 1);
    intros H; inversion H; subst; lia.
Qed.

Lemma broadcast_shape_nil_r (a : list nat) : broadcast_shape a [] = Some a.
Proof. destruct a; reflexivity. Qed.

Lemma broadcast_shape_refl (s : list nat) : broadcast_shape s s = Some s.
Proof.
  induction s as [|d s IH]; simpl; trivial.
  now rewrite bdim_refl, IH.
Qed.

Lemma broadcast_shape_comm (a b : list nat) :
  broadcast_shape a b = broadcast_shape b a.
Proof.
  revert b; induction a as [|x a IH]; intros [|y b]; simpl; trivial.
  now rewrite bdim_comm, IH.
Qed.

Lemma broadcast_shape_assoc (a b c : list nat) :
  match broadcast_shape b c with
  | Some bc => broadcast_shape a bc
  | None => None
  end =
  match broadcast_shape a b with
  | Some ab => broadcast_shape ab c
  | None => None
  end.
Proof.
  revert b c; induction a as [|x a IH]; intros b c.
  - simpl. now destruct (broadcast_shape b c).
  - destruct b as [|y b].
    + simpl. reflexivity.
    + destruct c as [|z c].
      * rewrite broadcast_shape_nil_r.
        destruct (broadcast_shape (x :: a) (y :: b)) as [ab|]; trivial.
        now rewrite broadcast_shape_nil_r.
      * simpl. specialize (IH b c). pose proof (bdim_assoc x y z) as Hd.
        destruct (bdim y z) as [dyz|], (bdim x y) as [dxy|];
          destruct (broadcast_shape b c) as [bc|],
                   (broadcast_shape a b) as [ab|]; simpl;
          try match type of Hd with
            | None = None => idtac
            | None = _ => rewrite <- Hd
            | _ = _ => rewrite Hd
            end;
          try match type of IH with
            | None = None => idtac
            | None = _ => rewrite <- IH
            | _ = _ => rewrite IH
            end;
          repeat match goal with
            | |- context [match ?u with Some _ => _ | None => _ end] =>
                destruct u
            end; reflexivity.
Qed.

Lemma shape_eqb_refl (s : list nat) : shape_eqb s s = true.
Proof. unfold shape_eqb. now destruct (list_eq_dec Nat.eq_dec s s). Qed.

Lemma bindex_valid (s idx : list nat) :
  valid_index s idx -> bindex s idx = idx.
Proof.
  revert idx; induction s as [|d s IH]; intros [|i idx]; simpl; trivial;
    try tauto.
  intros [Hi Hv]. rewrite (IH _ Hv).
  destruct (Nat.eqb_spec d 1); trivial. f_equal. lia.
Qed.

Lemma bindex_idem (s idx : list nat) :
  bindex s (bindex s idx) = bindex s idx.
Proof.
  revert idx; induction s as [|d s IH]; intros [|i idx]; simpl; trivial.
  rewrite IH. now destruct (d =? 1)%nat.
Qed.

Lemma bindex_compose_l (a b s idx : list nat) :
  broadcast_shape a b = Some s -> bindex a (bindex s idx) = bindex a idx.
Proof.
  revert b s idx; induction a as [|x a IH]; intros b s idx H.
  - reflexivity.
  - destruct b as [|y b].
    + simpl in H. inversion H; subst. apply bindex_idem.
    + simpl in H.
      destruct (bdim x y) as [d|] eqn:Hd; try discriminate.
      destruct (broadcast_shape a b) as [r|] eqn:Hr; try discriminate.
      inversion H; subst. destruct idx as [|i idx]; simpl; trivial.
      rewrite (IH _ _ _ Hr).
      destruct (Nat.eqb_spec x 1); trivial.
      destruct (Nat.eqb_spec d 1); trivial.
      destruct (bdim_one _ _ _ Hd e). contradiction.
Qed.

Lemma bindex_compose_r (a b s idx : list nat) :
  broadcast_shape a b = Some s -> bindex b (bindex s idx) = bindex b idx.
Proof. rewrite broadcast_shape_comm. apply bindex_compose_l. Qed.

Lemma valid_bindex_l (a b s idx : list nat) :
  broadcast_shape a b = Some s -> valid_index s idx ->
  valid_index a (bindex a idx).
Proof.
  revert b s idx; induction a as [|x a IH]; intros b s idx H Hv.
  - exact I.
  - destruct b as [|y b].
    + simpl in H. inversion H; subst. now rewrite bindex_valid.
    + simpl in H.
      destruct (bdim x y) as [d|] eqn:Hd; try discriminate.
      destruct (broadcast_shape a b) as [r|] eqn:Hr; try discriminate.
      inversion H; subst. destruct idx as [|i idx]; simpl in *; try tauto.
      destruct Hv as [Hi Hv]. split; [|now apply (IH _ _ _ Hr)].
      destruct (bdim_cases _ _ _ Hd) as [[->| ->] _];
        destruct (Nat.eqb_spec d 1); simpl; lia.
Qed.

Lemma valid_bindex_r (a b s idx : list nat) :
  broadcast_shape a b = Some s -> valid_index s idx ->
  valid_index b (bindex b idx).
Proof. rewrite broadcast_shape_comm. apply valid_bindex_l. Qed.

Lemma indices_spec (s idx : list nat) :
  In idx (indices s) <-> valid_index s idx.
Proof.
  revert idx; induction s as [|d s IH]; intros idx; simpl.
  - destruct idx; simpl; split; intros H; try tauto.
    destruct H as [H|[]]. discriminate.
  - rewrite in_flat_map. split.
    + intros (t & Ht & Hin). apply in_map_iff in Hin.
      destruct Hin as (i & <- & Hi). apply in_seq in Hi.
      split; [lia | now apply IH].
    + destruct idx as [|i t]; [tauto|]. intros [Hi Ht].
      exists t. split; [now apply IH|]. apply in_map_iff.
      exists i. split; trivial. apply in_seq. lia.
Qed.

Lemma all_elements_spec (f : num -> bool) (a : tensor) :
  all_elements f a = true <->
  forall idx, valid_index (shape a) idx -> f (get a idx) = true.
Proof.
  unfold all_elements. rewrite forallb_forall. split; intros H idx Hi.
  - apply H. now apply indices_spec.
  - apply H. now apply indices_spec.
Qed.

Lemma bindex_cons_compose (a b S : list nat) (k j : nat) (idx : list nat) :
  broadcast_shape a b = Some (k :: S) ->
  bindex a (j :: bindex S idx) = bindex a (j :: idx).
Proof.
  destruct a as [|x a]; trivial. destruct b as [|y b]; simpl.
  - intros H; inversion H; subst. now rewrite bindex_idem.
  - destruct (bdim x y); try discriminate.
    destruct (broadcast_shape a b) as [r|] eqn:Hr; try discriminate.
    intros H; inversion H; subst. now rewrite (bindex_compose_l _ _ _ _ Hr).
Qed.

Lemma forallb_false {A : Type} (f : A -> bool) (l : list A) :
  forallb f l = false <-> exists x, In x l /\ f x = false.
Proof.
  induction l as [|a l IH]; simpl.
  - split; [discriminate | intros (x & [] & _)].
  - rewrite andb_false_iff, IH. split.
    + intros [H|(x & Hx & Hf)]; [exists a | exists x]; auto.
    + intros (x & [->|Hx] & Hf); [left | right; exists x]; auto.
Qed.

Lemma all_elements_false (f : num -> bool) (a : tensor) :
  all_elements f a = false <->
  exists idx, valid_index (shape a) idx /\ f (get a idx) = false.
Proof.
  unfold all_elements. rewrite forallb_false. split.
  - intros (idx & Hi & Hf). exists idx. split; trivial. now apply indices_spec.
  - intros (idx & Hi & Hf). exists idx. split; trivial. now apply indices_spec.
Qed.

Lemma bindex_cons_lt (K j : nat) (s b : list nat) :
  (j < K)%nat -> bindex (K :: s) (j :: b) = j :: bindex s b.
Proof.
  intros Hj. cbn. destruct (Nat.eqb_spec K 1); trivial. f_equal. lia.
Qed.

Lemma valid_index_vector (K : nat) (idx : list nat) :
  valid_index [K] idx -> exists j, idx = [j] /\ (j < K)%nat.
Proof.
  destruct idx as [|j [|i idx]]; cbn; try tauto. intros [H _]. now exists j.
Qed.

End TensorFacts.

(** ** Operations on graph tensors *)

Section GraphFacts.

Lemma node_eta (x : node) : mkNode (failed x) (val x) = x.
Proof. now destruct x. Qed.

Lemma broadcast2_inv (f : num -> num -> num) (a b r : tensor) :
  broadcast2 f a b = Ok r ->
  exists s,
    broadcast_shape (shape a) (shape b) = Some s /\
    r = mkTensor s (fun idx =>
          f (get a (bindex (shape a) idx)) (get b (bindex (shape b) idx))).
Proof.
  unfold broadcast2. destruct (broadcast_shape _ _) as [s|]; intros H;
    inversion H. now exists s.
Qed.

Lemma op2_broadcast2_inv (f : num -> num -> num) (x y r : node) :
  op2 (broadcast2 f) x y = Ok r ->
  exists s,
    broadcast_shape (shape (val x)) (shape (val y)) = Some s /\
    r = mkNode (failed x ++ failed y)
          (mkTensor s (fun idx =>
             f (get (val x) (bindex (shape (val x)) idx))
               (get (val y) (bindex (shape (val y)) idx)))).
Proof.
  unfold op2. destruct (broadcast2 f (val x) (val y)) as [t|] eqn:Ht;
    intros H; inversion H.
  destruct (broadcast2_inv _ _ _ _ Ht) as (s & Hs & ->). now exists s.
Qed.

Lemma op2_broadcast2_ok (f : num -> num -> num) (x y : node) (s : list nat) :
  broadcast_shape (shape (val x)) (shape (val y)) = Some s ->
  op2 (broadcast2 f) x y =
  Ok (mkNode (failed x ++ failed y)
        (mkTensor s (fun idx =>
           f (get (val x) (bindex (shape (val x)) idx))
             (get (val y) (bindex (shape (val y)) idx))))).
Proof. intros H. unfold op2, broadcast2. now rewrite H. Qed.

Lemma reduce_sum_last_inv (a r : tensor) :
  reduce_sum_last a = Ok r ->
  exists k s,
    shape a = k :: s /\
    r = mkTensor s (fun idx =>
          nsum (map (fun j => get a (j :: idx)) (seq 0 k))).
Proof.
  unfold reduce_sum_last. destruct (shape a) as [|k s]; intros H;
    inversion H. now exists k, s.
Qed.

Lemma reduce_sum_inv (x r : node) :
  math_ops.reduce_sum x = Ok r ->
  exists k s,
    shape (val x) = k :: s /\
    r = mkNode (failed x)
          (mkTensor s (fun idx =>
             nsum (map (fun j => get (val x) (j :: idx)) (seq 0 k)))).
Proof.
  unfold math_ops.reduce_sum, op1r.
  destruct (reduce_sum_last (val x)) as [t|] eqn:Ht; intros H; inversion H.
  destruct (reduce_sum_last_inv _ _ Ht) as (k & s & Hs & ->). now exists k, s.
Qed.

Lemma reduce_sum_ok (x : node) (k : nat) (s : list nat) :
  shape (val x) = k :: s ->
  math_ops.reduce_sum x =
  Ok (mkNode (failed x)
        (mkTensor s (fun idx =>
           nsum (map (fun j => get (val x) (j :: idx)) (seq 0 k))))).
Proof. intros H. unfold math_ops.reduce_sum, op1r, reduce_sum_last. now rewrite H. Qed.

Lemma bind_ok {A B : Type} (m : result A) (k : A -> result B) (b : B) :
  bind m k = Ok b -> exists a, m = Ok a /\ k a = Ok b.
Proof. destruct m as [a|e]; simpl; intros H; [now exists a | discriminate]. Qed.

Lemma bind_raise {A B : Type} (m : result A) (k : A -> result B) (e : exn) :
  bind m k = Raise e -> m = Raise e \/ exists a, m = Ok a /\ k a = Raise e.
Proof.
  destruct m as [a|e']; simpl; intros H; [right; now exists a | left].
  now inversion H.
Qed.

Lemma broadcast2_raise (f : num -> num -> num) (a b : tensor) (e : exn) :
  broadcast2 f a b = Raise e -> e = ShapeError.
Proof.
  unfold broadcast2. destruct (broadcast_shape _ _); intros H; now inversion H.
Qed.

Lemma op2_broadcast2_raise (f : num -> num -> num) (x y : node) (e : exn) :
  op2 (broadcast2 f) x y = Raise e -> e = ShapeError.
Proof.
  unfold op2. intros H. apply bind_raise in H.
  destruct H as [H|(t & _ & H)]; [|discriminate].
  now apply broadcast2_raise in H.
Qed.

Lemma reduce_sum_last_raise (a : tensor) (e : exn) :
  reduce_sum_last a = Raise e -> e = ShapeError.
Proof.
  unfold reduce_sum_last. destruct (shape a); intros H; now inversion H.
Qed.

Lemma reduce_sum_raise (x : node) (e : exn) :
  math_ops.reduce_sum x = Raise e -> e = ShapeError.
Proof.
  unfold math_ops.reduce_sum, op1r. intros H. apply bind_raise in H.
  destruct H as [H|(t & _ & H)]; [|discriminate].
  now apply reduce_sum_last_raise in H.
Qed.

Lemma assert_equal_raise (x y : node) (message : string) (e : exn) :
  assert_equal x y message = Raise e -> e = ShapeError.
Proof.
  unfold assert_equal. destruct (broadcast_shape _ _); intros H;
    now inversion H.
Qed.

Lemma fails_not_returns (x : node) (m : string) (t : tensor) :
  run x (Fails m) -> ~ run x (Returns t).
Proof. cbn. intros Hm [Hnil _]. rewrite Hnil in Hm. exact Hm. Qed.

Lemma Assert_in (inputs : list node) (condition : bool) (message m : string) :
  In m (Assert inputs condition message) <->
  (exists x, In x inputs /\ In m (failed x)) \/
  (condition = false /\ m = message).
Proof.
  unfold Assert. rewrite in_app_iff, in_flat_map.
  destruct condition; simpl; intuition congruence.
Qed.

End GraphFacts.

(** ** The distribution *)

(** The operations of [array_ops] and the matrix product, as operations on
    the values. *)
Ltac unfold_ops :=
  unfold array_ops.identity, array_ops.ones_like, array_ops.expand_dims_last,
    array_ops.expand_dims_before_last, array_ops.batch_matrix_set_diag,
    math_ops.batch_matmul, math_ops.lgamma in *.

Section MultinomialFacts.

Variable lgamma : num -> num.
Variable tol : R.

(** What [get_logits_and_prob] returns when [p] is given. *)
Lemma get_logits_and_prob_p (logits p : option tensor) (va : bool)
    (lp : node * node) (p0 : tensor) :
  distribution_util.get_logits_and_prob tol logits p va = Ok lp ->
  p = Some p0 -> val (snd lp) = p0.
Proof.
  intros H ->. unfold distribution_util.get_logits_and_prob in H.
  destruct logits; try discriminate. destruct va.
  - unfold_ops. unfold math_ops.reduce_sum, op1r, op1, identity in H.
    simpl in H.
    destruct (reduce_sum_last p0); simpl in H; try discriminate.
    inversion H; reflexivity.
  - inversion H; reflexivity.
Qed.

(** The attributes [__init__] sets. *)
Lemma init_inv (n : tensor) (logits p : option tensor) (va an : option bool)
    (d : Multinomial.t) :
  Multinomial.__init__ tol n logits p va an = Ok d ->
  let flag := match va with
              | Some b => b
              | None => Multinomial.default_validate_args
              end in
  let checks := Multinomial.n_checks (constant n) flag in
  exists lp prod total,
    distribution_util.get_logits_and_prob tol logits p flag = Ok lp /\
    math_ops.mul
      (control_dependencies checks (array_ops.expand_dims_last (constant n)))
      (snd lp) = Ok prod /\
    math_ops.reduce_sum (control_dependencies checks prod) = Ok total /\
    Multinomial._logits d = fst lp /\
    Multinomial._p d = snd lp /\
    Multinomial._n d =
      control_dependencies checks (array_ops.identity (constant n)) /\
    Multinomial._mean_val d = control_dependencies checks prod /\
    Multinomial._broadcast_shape d = control_dependencies checks total /\
    Multinomial.validate_args d = flag.
Proof.
  intros H flag checks. unfold Multinomial.__init__ in H.
  fold flag in H. fold checks in H.
  destruct (distribution_util.get_logits_and_prob tol logits p flag)
    as [lp|] eqn:Hlp; simpl in H; try discriminate.
  destruct (math_ops.mul _ (snd lp)) as [prod|] eqn:Hprod; simpl in H;
    try discriminate.
  destruct (math_ops.reduce_sum _) as [total|] eqn:Htotal; simpl in H;
    try discriminate.
  inversion H; subst; simpl. exists lp, prod, total. repeat split; trivial.
Qed.

(** The constructor on a scalar and a vector. *)
Lemma init_scalar_vector (x : num) (ps : list num) (va an : option bool) :
  exists d,
    Multinomial.__init__ tol (scalar x) None (Some (vector ps)) va an = Ok d /\
    val (Multinomial.n d) = scalar x /\
    val (Multinomial.p d) = vector ps.
Proof.
  unfold Multinomial.__init__, distribution_util.get_logits_and_prob,
    math_ops.mul.
  unfold_ops.
  assert (Hshape : broadcast_shape [1%nat] [length ps] = Some [length ps]).
  { cbn. now rewrite bdim_1_l. }
  destruct (match va with
            | Some b => b
            | None => Multinomial.default_validate_args
            end).
  - erewrite reduce_sum_ok by reflexivity. cbn [bind].
    erewrite op2_broadcast2_ok by exact Hshape. cbn [bind].
    erewrite reduce_sum_ok by reflexivity. cbn [bind].
    eexists. split; [reflexivity|]. split; reflexivity.
  - cbn [bind]. erewrite op2_broadcast2_ok by exact Hshape. cbn [bind].
    erewrite reduce_sum_ok by reflexivity. cbn [bind].
    eexists. split; [reflexivity|]. split; reflexivity.
Qed.

(** C5: for every distribution constructed from (n, p), [mean()] is the
    tensor stored by the constructor, and that tensor is [n[..., None] * p]:
    its shape is the broadcast of [n]'s shape with a trailing axis of length
    one against [p]'s, and its entry [j] of the batch element [b] is the
    trial count of that batch element times the probability of class [j]
    (read through broadcasting in general, at the same indices when [p] has
    the shape of [n] followed by the class axis). *)
Theorem mean_returns_stored_product
    (n : tensor) (logits p : option tensor) (va an : option bool)
    (d : Multinomial.t) :
  Multinomial.__init__ tol n logits p va an = Ok d ->
  Multinomial.mean d = Multinomial._mean_val d /\
  (forall p0, p = Some p0 -> val (Multinomial.p d) = p0) /\
  broadcast_shape (1%nat :: shape n) (shape (val (Multinomial.p d)))
    = Some (shape (val (Multinomial.mean d))) /\
  (forall j b,
     get (val (Multinomial.mean d)) (j :: b) =
     nmul (get n (bindex (shape n) b))
          (get (val (Multinomial.p d))
               (bindex (shape (val (Multinomial.p d))) (j :: b)))) /\
  (forall K j b,
     shape (val (Multinomial.p d)) = K :: shape n ->
     valid_index (K :: shape n) (j :: b) ->
     get (val (Multinomial.mean d)) (j :: b) =
     nmul (get n b) (get (val (Multinomial.p d)) (j :: b))).
Proof.
  intros H. destruct (init_inv _ _ _ _ _ _ H)
    as (lp & prod & total & Hlp & Hprod & _ & _ & Hp & _ & Hm & _).
  unfold Multinomial.mean, Multinomial._mean, Multinomial.p.
  unfold_ops. unfold op1, identity.
  rewrite node_eta, Hm, Hp. split; trivial.
  split. { intros p0 Hp0. eapply get_logits_and_prob_p; eauto. }
  destruct (op2_broadcast2_inv _ _ _ _ Hprod) as (s & Hs & ->).
  split; [exact Hs|]. split; [reflexivity|].
  intros K j b HK Hv.
  cbn [val get control_dependencies with_dependencies op1 constant
       expand_dims_last shape bindex tl].
  rewrite HK, (bindex_valid _ _ Hv), (bindex_valid _ _ (proj2 Hv)).
  reflexivity.
Qed.

End MultinomialFacts.

Section LogProbFacts.

Variable lgamma : num -> num.

(** A step of a computation that can only fail on shapes. *)
Ltac raise_step H :=
  apply bind_raise in H;
  destruct H as [H|(? & _ & H)];
  [ first [ now apply op2_broadcast2_raise in H
          | now apply reduce_sum_raise in H
          | now apply reduce_sum_last_raise in H
          | now apply broadcast2_raise in H
          | now apply assert_equal_raise in H ] | ].

Lemma log_combinations_raise (n counts : node) (e : exn) :
  distribution_util.log_combinations lgamma n counts = Raise e ->
  e = ShapeError.
Proof.
  unfold distribution_util.log_combinations, math_ops.add, math_ops.sub. intros H.
  do 3 raise_step H. now apply op2_broadcast2_raise in H.
Qed.

Lemma assert_valid_sample_raise (d : Multinomial.t) (counts : node) (e : exn) :
  Multinomial._assert_valid_sample d counts = Raise e -> e = ShapeError.
Proof.
  unfold Multinomial._assert_valid_sample.
  destruct (negb (Multinomial.validate_args d)); [discriminate|]. intros H.
  do 2 raise_step H. discriminate.
Qed.

Lemma log_prob_raise (d : Multinomial.t) (counts : node) (e : exn) :
  Multinomial._log_prob lgamma d counts = Raise e -> e = ShapeError.
Proof.
  unfold Multinomial._log_prob, math_ops.mul, math_ops.sub. intros H.
  apply bind_raise in H.
  destruct H as [H|(? & _ & H)]; [now apply assert_valid_sample_raise in H|].
  do 2 raise_step H.
  apply bind_raise in H.
  destruct H as [H|(? & _ & H)]; [now apply log_combinations_raise in H|].
  now apply op2_broadcast2_raise in H.
Qed.

Lemma spec_log_prob_raise (n p counts : tensor) (e : exn) :
  Spec.log_prob lgamma n p counts = Raise e -> e = ShapeError.
Proof.
  unfold Spec.log_prob. intros H.
  do 4 raise_step H. now apply broadcast2_raise in H.
Qed.

Lemma assert_valid_sample_val (d : Multinomial.t) (counts c : node) :
  Multinomial._assert_valid_sample d counts = Ok c -> val c = val counts.
Proof.
  unfold Multinomial._assert_valid_sample.
  destruct (negb (Multinomial.validate_args d)).
  - intros H; now inversion H.
  - intros H. apply bind_ok in H. destruct H as (total & _ & H).
    apply bind_ok in H. destruct H as (a & _ & H). now inversion H.
Qed.

Lemma log_combinations_inv (n counts r : node) :
  distribution_util.log_combinations lgamma n counts = Ok r ->
  exists kc C,
    shape (val counts) = kc :: C /\
    broadcast_shape (shape (val n)) C = Some (shape (val r)) /\
    forall idx,
      get (val r) idx =
      nsub (lgamma (nadd (get (val n) (bindex (shape (val n)) idx)) (Fin 1)))
           (nsum (map (fun j =>
                         lgamma (nadd (get (val counts) (j :: bindex C idx))
                                      (Fin 1)))
                      (seq 0 kc))).
Proof.
  unfold distribution_util.log_combinations, math_ops.add, math_ops.sub. intros H.
  apply bind_ok in H. destruct H as (n1 & Hn1 & H).
  apply bind_ok in H. destruct H as (c1 & Hc1 & H).
  apply bind_ok in H. destruct H as (red & Hred & H).
  destruct (op2_broadcast2_inv _ _ _ _ Hn1) as (s1 & Hs1 & ->).
  destruct (op2_broadcast2_inv _ _ _ _ Hc1) as (s2 & Hs2 & ->).
  simpl in Hs1, Hs2. rewrite broadcast_shape_nil_r in Hs1, Hs2.
  inversion Hs1; inversion Hs2; subst s1 s2; clear Hs1 Hs2.
  destruct (reduce_sum_inv _ _ Hred) as (kc & C & HC & ->). simpl in HC.
  destruct (op2_broadcast2_inv _ _ _ _ H) as (s & Hs & ->). simpl in Hs.
  exists kc, C. split; trivial. split; trivial.
  intros idx. simpl. rewrite bindex_idem. f_equal. f_equal.
  apply map_ext_in. intros j Hj. apply in_seq in Hj.
  rewrite HC. simpl. rewrite bindex_idem. f_equal. f_equal. f_equal.
  destruct (Nat.eqb_spec kc 1); trivial. f_equal; lia.
Qed.

Lemma log_prob_inv (d : Multinomial.t) (counts lp : node) :
  Multinomial._log_prob lgamma d counts = Ok lp ->
  exists kc C k S NC,
    shape (val counts) = kc :: C /\
    broadcast_shape (kc :: C) (shape (val (Multinomial.p d))) = Some (k :: S) /\
    broadcast_shape (shape (val (Multinomial.n d))) C = Some NC /\
    broadcast_shape S NC = Some (shape (val lp)) /\
    forall idx,
      get (val lp) idx =
      nsub
        (nsum (map (fun j =>
                 nmul (get (val counts) (bindex (kc :: C) (j :: idx)))
                      (nlog (get (val (Multinomial.p d))
                                 (bindex (shape (val (Multinomial.p d)))
                                         (j :: idx)))))
               (seq 0 k)))
        (nneg
           (nsub
              (lgamma (nadd (get (val (Multinomial.n d))
                                 (bindex (shape (val (Multinomial.n d))) idx))
                            (Fin 1)))
              (nsum (map (fun j =>
                       lgamma (nadd (get (val counts) (j :: bindex C idx))
                                    (Fin 1)))
                     (seq 0 kc))))).
Proof.
  unfold Multinomial._log_prob, math_ops.mul, math_ops.sub. intros H.
  apply bind_ok in H. destruct H as (c & Hc & H).
  apply assert_valid_sample_val in Hc.
  apply bind_ok in H. destruct H as (w & Hw & H).
  apply bind_ok in H. destruct H as (lu & Hlu & H).
  apply bind_ok in H. destruct H as (lc & Hlc & H).
  destruct (op2_broadcast2_inv _ _ _ _ Hw) as (s1 & Hs1 & ->).
  destruct (reduce_sum_inv _ _ Hlu) as (k & S & HS & ->).
  simpl in HS. subst s1.
  destruct (log_combinations_inv _ _ _ Hlc) as (kc & C & HC & HNC & Hget).
  destruct (op2_broadcast2_inv _ _ _ _ H) as (F & HF & ->).
  simpl in HF, Hs1. rewrite Hc in Hs1, HC. rewrite HC in Hs1.
  exists kc, C, k, S, (shape (val lc)).
  split; trivial. split; trivial. split; trivial. split; trivial.
  intros idx. simpl. rewrite Hget, Hc, HC.
  f_equal.
  - f_equal. apply map_ext; intros j.
    rewrite (bindex_cons_compose _ _ _ _ j idx Hs1).
    rewrite broadcast_shape_comm in Hs1.
    rewrite (bindex_cons_compose _ _ _ _ j idx Hs1). reflexivity.
  - f_equal. f_equal.
    + f_equal. f_equal. f_equal. exact (bindex_compose_l _ _ _ _ HNC).
    + f_equal. apply map_ext; intros j.
      now rewrite (bindex_compose_r _ _ _ _ HNC).
Qed.

Lemma assert_valid_sample_ok (d : Multinomial.t) (counts : node)
    (kc : nat) (C NC : list nat) :
  shape (val counts) = kc :: C ->
  broadcast_shape (shape (val (Multinomial.n d))) C = Some NC ->
  exists c, Multinomial._assert_valid_sample d counts = Ok c.
Proof.
  intros HC HNC. unfold Multinomial._assert_valid_sample.
  destruct (negb (Multinomial.validate_args d)); [now eexists|].
  rewrite (reduce_sum_ok _ _ _ HC). cbn [bind].
  unfold assert_equal. cbn [val shape]. rewrite HNC. cbn [bind].
  now eexists.
Qed.

Lemma log_combinations_ok (n counts : node) (kc : nat) (C NC : list nat) :
  shape (val counts) = kc :: C ->
  broadcast_shape (shape (val n)) C = Some NC ->
  exists r, distribution_util.log_combinations lgamma n counts = Ok r /\
            shape (val r) = NC.
Proof.
  intros HC HNC. unfold distribution_util.log_combinations, math_ops.add, math_ops.sub.
  rewrite (op2_broadcast2_ok nadd n (constant (scalar (Fin 1))) _
             (broadcast_shape_nil_r _)). cbn [bind].
  rewrite (op2_broadcast2_ok nadd counts (constant (scalar (Fin 1))) _
             (broadcast_shape_nil_r _)). cbn [bind].
  erewrite reduce_sum_ok by (cbn; exact HC). cbn [bind].
  erewrite op2_broadcast2_ok by (cbn; exact HNC).
  eexists; split; reflexivity.
Qed.

Lemma log_prob_ok (d : Multinomial.t) (counts : node)
    (kc k : nat) (C S NC F : list nat) :
  shape (val counts) = kc :: C ->
  broadcast_shape (kc :: C) (shape (val (Multinomial.p d))) = Some (k :: S) ->
  broadcast_shape (shape (val (Multinomial.n d))) C = Some NC ->
  broadcast_shape S NC = Some F ->
  exists lp, Multinomial._log_prob lgamma d counts = Ok lp.
Proof.
  intros HC Hs1 HNC HF. unfold Multinomial._log_prob, math_ops.mul, math_ops.sub.
  destruct (assert_valid_sample_ok d counts _ _ _ HC HNC) as (c & Hc).
  rewrite Hc. cbn [bind]. apply assert_valid_sample_val in Hc.
  erewrite op2_broadcast2_ok by (rewrite Hc, HC; cbn; exact Hs1). cbn [bind].
  erewrite reduce_sum_ok by (cbn; reflexivity). cbn [bind].
  rewrite <- Hc in HC.
  destruct (log_combinations_ok (Multinomial.n d) c _ _ _ HC HNC)
    as (lc & Hlc & Hshape).
  rewrite Hlc. cbn [bind].
  erewrite op2_broadcast2_ok by (cbn; rewrite Hshape; exact HF).
  now eexists.
Qed.

Lemma spec_log_prob_inv (n p counts r : tensor) :
  Spec.log_prob lgamma n p counts = Ok r ->
  exists kc C k S SN,
    shape counts = kc :: C /\
    broadcast_shape (kc :: C) (shape p) = Some (k :: S) /\
    broadcast_shape S (shape n) = Some SN /\
    broadcast_shape SN C = Some (shape r) /\
    forall idx,
      get r idx =
      nsub
        (nadd
           (nsum (map (fun j =>
                    nmul (get counts (bindex (kc :: C) (j :: idx)))
                         (nlog (get p (bindex (shape p) (j :: idx)))))
                  (seq 0 k)))
           (lgamma (nadd (get n (bindex (shape n) idx)) (Fin 1))))
        (nsum (map (fun j =>
                 lgamma (nadd (get counts (j :: bindex C idx)) (Fin 1)))
               (seq 0 kc))).
Proof.
  unfold Spec.log_prob. intros H.
  apply bind_ok in H. destruct H as (w & Hw & H).
  apply bind_ok in H. destruct H as (s & Hs & H).
  apply bind_ok in H. destruct H as (a & Ha & H).
  apply bind_ok in H. destruct H as (c & Hc & H).
  destruct (broadcast2_inv _ _ _ _ Hw) as (s1 & Hs1 & ->).
  destruct (reduce_sum_last_inv _ _ Hs) as (k & S & HS & ->).
  cbn in HS. subst s1.
  destruct (broadcast2_inv _ _ _ _ Ha) as (SN & HSN & ->).
  destruct (reduce_sum_last_inv _ _ Hc) as (kc & C & HC & ->).
  destruct (broadcast2_inv _ _ _ _ H) as (F & HF & ->).
  cbn in HC, Hs1, HSN, HF. rewrite HC in Hs1.
  exists kc, C, k, S, SN.
  split; trivial. split; trivial. split; trivial. split; trivial.
  intros idx. cbn -[bindex]. rewrite HC.
  rewrite (bindex_compose_r _ _ _ _ HSN).
  f_equal. f_equal. f_equal. apply map_ext; intros j.
  rewrite (bindex_compose_l _ _ _ _ HSN).
  rewrite (bindex_cons_compose _ _ _ _ j idx Hs1).
  rewrite broadcast_shape_comm in Hs1.
  now rewrite (bindex_cons_compose _ _ _ _ j idx Hs1).
Qed.

Lemma spec_log_prob_ok (n p counts : tensor)
    (kc k : nat) (C S SN F : list nat) :
  shape counts = kc :: C ->
  broadcast_shape (kc :: C) (shape p) = Some (k :: S) ->
  broadcast_shape S (shape n) = Some SN ->
  broadcast_shape SN C = Some F ->
  exists r, Spec.log_prob lgamma n p counts = Ok r.
Proof.
  intros HC Hs1 HSN HF. unfold Spec.log_prob, broadcast2, reduce_sum_last.
  cbn [shape tmap Spec.log_factorial]. rewrite HC, Hs1. cbn [bind shape].
  rewrite HSN. cbn [bind shape]. rewrite HF. now eexists.
Qed.

(** The kernel on a scalar trial count, a probability vector and a counts
    vector of the same length. *)
Lemma log_prob_vector (d : Multinomial.t) (x : num) (ps cs : list num) :
  val (Multinomial.n d) = scalar x ->
  val (Multinomial.p d) = vector ps ->
  length cs = length ps ->
  exists lp,
    Multinomial.log_prob lgamma d (vector cs) = Ok lp /\
    shape (val lp) = [] /\
    get (val lp) [] =
    nsub (nsum (map (fun cp => nmul (fst cp) (nlog (snd cp))) (combine cs ps)))
         (nneg (nsub (lgamma (nadd x (Fin 1)))
                     (nsum (map (fun c => lgamma (nadd c (Fin 1))) cs)))).
Proof.
  intros Hn Hp Hlen. unfold Multinomial.log_prob.
  assert (HC : shape (val (constant (vector cs))) = length cs :: [])
    by reflexivity.
  assert (Hs1 : broadcast_shape (length cs :: [])
                  (shape (val (Multinomial.p d))) = Some (length cs :: [])).
  { rewrite Hp. cbn. now rewrite Hlen, bdim_refl. }
  assert (HNC : broadcast_shape (shape (val (Multinomial.n d))) [] = Some [])
    by (now rewrite Hn).
  destruct (log_prob_ok d (constant (vector cs)) _ _ _ _ _ _
              HC Hs1 HNC eq_refl) as (lp & Hlp).
  exists lp. split; trivial.
  destruct (log_prob_inv _ _ _ Hlp)
    as (kc & C & k & S & NC & HC' & Hs1' & HNC' & HF & Hget).
  rewrite HC in HC'. inversion HC'; subst kc C; clear HC'.
  rewrite Hs1 in Hs1'. inversion Hs1'; subst k S; clear Hs1'.
  rewrite HNC in HNC'. inversion HNC'; subst NC; clear HNC'.
  cbn in HF. inversion HF as [Hshape]. split; trivial.
  rewrite Hget, Hn, Hp. cbn [val constant vector scalar get shape bindex hd].
  f_equal.
  - f_equal. rewrite <- (map_nth_seq_combine
                          (fun c q => nmul c (nlog q)) cs ps NaN NaN Hlen).
    apply map_ext_in. intros j Hj. apply in_seq in Hj.
    rewrite <- Hlen.
    destruct (Nat.eqb_spec (length cs) 1) as [E|E]; trivial.
    now replace j with 0%nat by lia.
  - f_equal. f_equal. f_equal.
    exact (map_nth_seq (fun c => lgamma (nadd c (Fin 1))) cs NaN).
Qed.

End LogProbFacts.

(** ** The log-probability kernel *)

Section LogProb.

Variable lgamma : num -> num.

(** C1: for every distribution with trial count [n] and probability tensor
    [p], and every counts tensor, [log_prob(counts)] is the sum over the last
    axis of [counts * log(p)], plus [log(n!)], minus the sum over the last
    axis of [log(counts_j!)], each log-factorial being [lgamma(x+1)]: the two
    computations fail on the same shapes, and otherwise give tensors of the
    same shape with the same entries. *)
Theorem log_prob_formula (d : Multinomial.t) (counts : tensor) :
  Spec.agree
    (Multinomial.log_prob lgamma d counts)
    (Spec.log_prob lgamma (val (Multinomial.n d)) (val (Multinomial.p d))
       counts).
Proof.
  unfold Spec.agree, Multinomial.log_prob.
  destruct (Multinomial._log_prob lgamma d (constant counts)) as [lp|e]
    eqn:Hcode;
    destruct (Spec.log_prob lgamma (val (Multinomial.n d))
                (val (Multinomial.p d)) counts) as [r|e'] eqn:Hspec.
  - destruct (log_prob_inv _ _ _ _ Hcode)
      as (kc & C & k & S & NC & HC & Hs1 & HNC & HF & Hget).
    destruct (spec_log_prob_inv _ _ _ _ _ Hspec)
      as (kc' & C' & k' & S' & SN & HC' & Hs1' & HSN & HF' & Hget').
    cbn in HC. rewrite HC in HC'. inversion HC'; subst kc' C'; clear HC'.
    rewrite Hs1 in Hs1'. inversion Hs1'; subst k' S'; clear Hs1'.
    pose proof (broadcast_shape_assoc S (shape (val (Multinomial.n d))) C)
      as Hassoc.
    rewrite HNC, HSN, HF, HF' in Hassoc. inversion Hassoc as [Hshape].
    split; trivial. intros idx _. rewrite Hget, Hget'. cbn [val constant].
    apply nsub_nneg_nsub.
  - exfalso.
    destruct (log_prob_inv _ _ _ _ Hcode)
      as (kc & C & k & S & NC & HC & Hs1 & HNC & HF & _).
    pose proof (broadcast_shape_assoc S (shape (val (Multinomial.n d))) C)
      as Hassoc.
    rewrite HNC, HF in Hassoc.
    destruct (broadcast_shape S (shape (val (Multinomial.n d))))
      as [SN|] eqn:HSN; try discriminate.
    symmetry in Hassoc. cbn in HC.
    destruct (spec_log_prob_ok lgamma (val (Multinomial.n d))
                (val (Multinomial.p d)) counts _ _ _ _ _ _
                HC Hs1 HSN Hassoc) as (r & Hr).
    congruence.
  - exfalso.
    destruct (spec_log_prob_inv _ _ _ _ _ Hspec)
      as (kc & C & k & S & SN & HC & Hs1 & HSN & HF & _).
    pose proof (broadcast_shape_assoc S (shape (val (Multinomial.n d))) C)
      as Hassoc.
    rewrite HSN, HF in Hassoc.
    destruct (broadcast_shape (shape (val (Multinomial.n d))) C)
      as [NC|] eqn:HNC; try discriminate.
    destruct (log_prob_ok lgamma d (constant counts) _ _ _ _ _ _
                HC Hs1 HNC Hassoc) as (lp & Hlp).
    congruence.
  - apply log_prob_raise in Hcode. apply spec_log_prob_raise in Hspec.
    congruence.
Qed.

(** C4: for every distribution and every counts tensor, [prob(counts)] is
    [exp(log_prob(counts))]: it fails exactly when [log_prob] fails and
    otherwise is the exponential, entry by entry, of what [log_prob] gives,
    under the same assertions; there is no other computation path. *)
Theorem prob_is_exp_log_prob (d : Multinomial.t) (counts : tensor) :
  match Multinomial.prob lgamma d counts,
        Multinomial.log_prob lgamma d counts with
  | Ok pr, Ok lp =>
      pr = math_ops.exp lp /\
      failed pr = failed lp /\
      shape (val pr) = shape (val lp) /\
      forall idx, get (val pr) idx = nexp (get (val lp) idx)
  | Raise e, Raise e' => e = e'
  | _, _ => False
  end.
Proof.
  unfold Multinomial.prob, Multinomial._prob, Multinomial.log_prob.
  destruct (Multinomial._log_prob lgamma d (constant counts)); cbn; auto.
Qed.

End LogProb.

(** ** Mean and variance *)

Section Moments.

Variable tol : R.

(** What [_variance] computes from the stored attributes. *)
Lemma variance_inv (self : Multinomial.t) (K : nat) (B : list nat) :
  shape (val (Multinomial._mean_val self)) = K :: B ->
  broadcast_shape (shape (val (Multinomial.p self)))
                  (1%nat :: shape (val (Multinomial.n self))) = Some (K :: B) ->
  exists v,
    Multinomial._variance self = Ok v /\
    shape (val v) = K :: K :: B /\
    forall i j b,
      valid_index (K :: K :: B) (j :: i :: b) ->
      let m := val (Multinomial._mean_val self) in
      let pd := val (Multinomial.p self) in
      get (val v) (j :: i :: b) =
      if (i =? j)%nat then
        nsub (get m (i :: b))
             (nmul (get m (i :: b))
                   (nmul (get pd (bindex (shape pd) (i :: b))) (Fin 1)))
      else
        nneg (nmul (get m (i :: b))
                   (nmul (get pd (bindex (shape pd) (j :: b))) (Fin 1))).
Proof.
  intros HM HP. unfold Multinomial._variance, math_ops.mul, math_ops.sub.
  unfold_ops.
  erewrite op2_broadcast2_ok by (cbn; exact HP). cbn [bind].
  unfold op1r, expand_dims_before_last. cbn [val shape bind].
  unfold op2 at 1, batch_matmul.
  cbn [val shape op1 expand_dims_last bind]. rewrite HM.
  rewrite Nat.eqb_refl, shape_eqb_refl. cbn [andb bind].
  erewrite op2_broadcast2_ok
    by (cbn [val shape]; rewrite HM; apply broadcast_shape_refl).
  cbn [bind].
  erewrite op2_broadcast2_ok
    by (cbn [val shape]; rewrite HM; apply broadcast_shape_refl).
  cbn [bind].
  unfold op2, batch_matrix_set_diag.
  cbn [val shape math_ops.neg op1 tmap bind]. rewrite Nat.min_id, shape_eqb_refl.
  cbn [bind]. eexists. split; [reflexivity|]. split; [reflexivity|].
  intros i j b Hv. cbn in Hv. destruct Hv as (Hj & Hi & Hb).
  assert (Hib : bindex (K :: B) (i :: b) = i :: b)
    by (apply bindex_valid; split; trivial).
  assert (Hjb : bindex (K :: B) (j :: b) = j :: b)
    by (apply bindex_valid; split; trivial).
  cbn [val get hd tl].
  destruct (i =? j)%nat.
  - cbn -[bindex]. rewrite HM, !Hib. reflexivity.
  - cbn -[bindex]. rewrite nadd_0_r. reflexivity.
Qed.

(** C2: for every batch element with trial count [n] and probability vector
    [p] of length [K] (real numbers), [variance()] returns a K-by-K matrix
    whose diagonal entry [i,i] is [n * p_i * (1 - p_i)] and whose off-diagonal
    entry [i,j] is [-n * p_i * p_j].  The entry [i,j] of the batch element
    [b] is read at the index [j :: i :: b], innermost axis first. *)
Theorem variance_entries
    (n : tensor) (logits p : option tensor) (va an : option bool)
    (d : Multinomial.t) :
  Multinomial.__init__ tol n logits p va an = Ok d ->
  Spec.finite n ->
  Spec.finite (val (Multinomial.p d)) ->
  exists v K B,
    Multinomial.variance d = Ok v /\
    shape (val (Multinomial.mean d)) = K :: B /\
    shape (val v) = K :: K :: B /\
    forall i j b,
      valid_index (K :: K :: B) (j :: i :: b) ->
      let pd := val (Multinomial.p d) in
      let nb := Spec.to_R (get n (bindex (shape n) b)) in
      let pi := Spec.to_R (get pd (bindex (shape pd) (i :: b))) in
      let pj := Spec.to_R (get pd (bindex (shape pd) (j :: b))) in
      get (val v) (j :: i :: b) =
      if (i =? j)%nat then Fin (nb * pi * (1 - pi)) else Fin (- nb * pi * pj).
Proof.
  intros H Hn Hp. destruct (init_inv _ _ _ _ _ _ _ H)
    as (lp & prod & total & Hlp & Hprod & Htotal & _ & HP & HN & HM & _).
  destruct (op2_broadcast2_inv _ _ _ _ Hprod) as (s & Hs & Hprod').
  destruct (reduce_sum_inv _ _ Htotal) as (K & B & HKB & _).
  rewrite Hprod' in HKB. cbn in HKB. subst s.
  change (broadcast_shape (1%nat :: shape n) (shape (val (snd lp)))
          = Some (K :: B)) in Hs.
  assert (Hshape : shape (val (Multinomial._mean_val d)) = K :: B)
    by (rewrite HM, Hprod'; reflexivity).
  assert (Hbs : broadcast_shape (shape (val (Multinomial.p d)))
                  (1%nat :: shape (val (Multinomial.n d))) = Some (K :: B)).
  { unfold Multinomial.p, Multinomial.n. rewrite HP, HN.
    rewrite broadcast_shape_comm. exact Hs. }
  destruct (variance_inv d K B Hshape Hbs) as (v & Hv & Hvs & Hget).
  exists v, K, B. split; [exact Hv|]. split; [exact Hshape|].
  split; [exact Hvs|].
  intros i j b Hidx. cbv zeta. rewrite (Hget i j b Hidx). cbv zeta.
  cbn in Hidx. destruct Hidx as (Hj & Hi & Hb).
  set (pd := val (Multinomial.p d)).
  assert (Hm : forall c, (c < K)%nat ->
            get (val (Multinomial._mean_val d)) (c :: b) =
            nmul (get n (bindex (shape n) b))
                 (get pd (bindex (shape pd) (c :: b)))).
  { intros c Hc. rewrite HM, Hprod'. unfold pd, Multinomial.p.
    rewrite HP. reflexivity. }
  assert (Hfn : is_fin (get n (bindex (shape n) b))).
  { apply Hn.
    assert (Hv0 : valid_index (K :: B) (i :: b)) by (split; trivial).
    apply (valid_bindex_l _ _ _ _ Hs) in Hv0. exact (proj2 Hv0). }
  assert (Hfp : forall c, (c < K)%nat ->
            is_fin (get pd (bindex (shape pd) (c :: b)))).
  { intros c Hc. apply Hp. unfold pd, Multinomial.p. rewrite HP.
    apply (valid_bindex_r _ _ _ _ Hs). split; trivial. }
  rewrite (Hm i Hi).
  rewrite (is_fin_to_R _ Hfn), (is_fin_to_R _ (Hfp i Hi)),
    (is_fin_to_R _ (Hfp j Hj)).
  destruct (i =? j)%nat; cbn; f_equal; ring.
Qed.

End Moments.

(** ** Validation of the parameters and of the sample *)

Section Validation.

Variable lgamma : num -> num.
Variable tol : R.

Local Open Scope string_scope.

(** The assertions on [n]: which messages they contribute. *)
Lemma n_checks_in (n : tensor) (flag : bool) (m : string) :
  In m (concat (Multinomial.n_checks (constant n) flag)) <->
  flag = true /\
  ((m = "n has negative components." /\ Spec.has_negative n) \/
   (m = "n has non-integer components." /\ Spec.has_non_integer n)).
Proof.
  unfold Spec.has_negative, Spec.has_non_integer.
  unfold Multinomial.n_checks. destruct flag; cbn [concat].
  - rewrite app_nil_r, in_app_iff.
    unfold assert_non_negative, assert_integer_form.
    rewrite !Assert_in, <- !all_elements_false. cbn.
    unfold Multinomial.msg_n_negative, Multinomial.msg_n_integer.
    split.
    + intros [[(x & [<-|[]] & [])|[Hc ->]]|[(x & [<-|[]] & [])|[Hc ->]]]; auto.
    + intros [_ [[-> Hc]|[-> Hc]]]; auto.
  - cbn. intuition discriminate.
Qed.


(** The assertions on [counts]: which messages the checked sample carries. *)
Lemma assert_valid_sample_failed (d : Multinomial.t) (counts c : node) :
  Multinomial._assert_valid_sample d counts = Ok c ->
  forall m,
    In m (failed c) <->
    In m (failed counts) \/
    (Multinomial.validate_args d = true /\
     (In m (failed (Multinomial.n d)) \/
      (m = "counts has negative components." /\
       Spec.has_negative (val counts)) \/
      (m = "counts do not sum to n." /\
       Spec.sum_differs (val (Multinomial.n d)) (val counts)) \/
      (m = "counts have non-integer components." /\
       Spec.has_non_integer (val counts)))).
Proof.
  unfold Multinomial._assert_valid_sample.
  destruct (Multinomial.validate_args d); cbn [negb].
  2: { intros H; inversion H; subst. intros m. intuition discriminate. }
  intros H. apply bind_ok in H. destruct H as (total & Htotal & H).
  apply bind_ok in H. destruct H as (a & Ha & H). inversion H; subst c.
  clear H. intros m.
  destruct (reduce_sum_inv _ _ Htotal) as (kc & C & HC & ->).
  unfold assert_equal in Ha. cbn [val shape] in Ha.
  destruct (broadcast_shape (shape (val (Multinomial.n d))) C) as [NC|] eqn:HNC;
    inversion Ha; subst a; clear Ha.
  cbn [with_dependencies failed concat]. rewrite app_nil_r, !in_app_iff.
  unfold assert_non_negative, assert_integer_form.
  rewrite !Assert_in. cbn [In failed val get].
  rewrite forallb_false.
  unfold Spec.has_negative, Spec.has_non_integer, Spec.sum_differs.
  rewrite <- !all_elements_false.
  unfold Multinomial.msg_counts_negative, Multinomial.msg_counts_sum,
    Multinomial.msg_counts_integer.
  split.
  - intros [[[(x & [<-|[]] & Hx)|[Hc ->]]
            |[[(x & [<-|[<-|[]]] & Hx)|[(b & Hb & Hc) ->]]
             |[(x & [<-|[]] & Hx)|[Hc ->]]]]|Hm];
      try (now left);
      try (right; split; [reflexivity|];
           first [ now left
                 | now (right; left; split)
                 | now (right; right; right; split)
                 | idtac ]).
    right. right. left. split; trivial.
    exists kc, C, NC, b. apply indices_spec in Hb. auto.
  - intros [Hm|[_ [Hm|[[-> Hc]|[[-> Hc]|[-> Hc]]]]]].
    + now right.
    + left. right. left. left. exists (Multinomial.n d). cbn. auto.
    + left. left. right. now split.
    + left. right. left. right. split; trivial.
      destruct Hc as (kc' & C' & NC' & b & HC' & HNC' & Hb & Hne).
      rewrite HC in HC'. inversion HC'; subst kc' C'.
      rewrite HNC in HNC'. inversion HNC'; subst NC'.
      exists b. split; trivial. now apply indices_spec.
    + left. right. right. right. now split.
Qed.

Lemma log_combinations_failed (n counts r : node) :
  distribution_util.log_combinations lgamma n counts = Ok r ->
  forall m, In m (failed r) <-> In m (failed n) \/ In m (failed counts).
Proof.
  unfold distribution_util.log_combinations, math_ops.add, math_ops.sub. intros H.
  apply bind_ok in H. destruct H as (n1 & Hn1 & H).
  apply bind_ok in H. destruct H as (c1 & Hc1 & H).
  apply bind_ok in H. destruct H as (red & Hred & H).
  destruct (op2_broadcast2_inv _ _ _ _ Hn1) as (s1 & _ & ->).
  destruct (op2_broadcast2_inv _ _ _ _ Hc1) as (s2 & _ & ->).
  destruct (reduce_sum_inv _ _ Hred) as (kc & C & _ & ->).
  destruct (op2_broadcast2_inv _ _ _ _ H) as (s & _ & ->).
  intros m. cbn. rewrite !in_app_iff. cbn. tauto.
Qed.

Lemma log_prob_failed (d : Multinomial.t) (counts lp : node) :
  Multinomial._log_prob lgamma d counts = Ok lp ->
  exists c,
    Multinomial._assert_valid_sample d counts = Ok c /\
    forall m,
      In m (failed lp) <->
      In m (failed c) \/ In m (failed (Multinomial.p d)) \/
      In m (failed (Multinomial.n d)).
Proof.
  unfold Multinomial._log_prob, math_ops.mul, math_ops.sub. intros H.
  apply bind_ok in H. destruct H as (c & Hc & H). exists c. split; trivial.
  apply bind_ok in H. destruct H as (w & Hw & H).
  apply bind_ok in H. destruct H as (lu & Hlu & H).
  apply bind_ok in H. destruct H as (lc & Hlc & H).
  destruct (op2_broadcast2_inv _ _ _ _ Hw) as (s1 & _ & ->).
  destruct (reduce_sum_inv _ _ Hlu) as (k & S & _ & ->).
  destruct (op2_broadcast2_inv _ _ _ _ H) as (F & _ & ->).
  intros m. cbn. rewrite !in_app_iff.
  rewrite (log_combinations_failed _ _ _ Hlc m). tauto.
Qed.

(** C6: when [validate_args] is true, [log_prob(counts)] and [prob(counts)]
    fail with the message of a violated constraint whenever [counts] has a
    negative component ("counts has negative components."), or its sum over
    the last axis differs from [n] ("counts do not sum to n."), or some
    component is not integer valued ("counts have non-integer components.");
    and then return no value; when [validate_args] is false [counts] passes
    through unchecked and no such failure arises.  Apart from these, only
    the assertions carried by [n] and [p] can fail. *)
Theorem sample_validation (d : Multinomial.t) (counts : tensor) (lp : node) :
  Multinomial.log_prob lgamma d counts = Ok lp ->
  (forall m,
     run lp (Fails m) <->
     In m (failed (Multinomial.n d)) \/ In m (failed (Multinomial.p d)) \/
     (Multinomial.validate_args d = true /\
      ((m = "counts has negative components." /\ Spec.has_negative counts) \/
       (m = "counts do not sum to n." /\
        Spec.sum_differs (val (Multinomial.n d)) counts) \/
       (m = "counts have non-integer components." /\
        Spec.has_non_integer counts)))) /\
  (Multinomial.validate_args d = true ->
   Spec.has_negative counts \/
   Spec.sum_differs (val (Multinomial.n d)) counts \/
   Spec.has_non_integer counts ->
   forall t, ~ run lp (Returns t)) /\
  (exists pr, Multinomial.prob lgamma d counts = Ok pr /\
              failed pr = failed lp /\
              forall m, run pr (Fails m) <-> run lp (Fails m)) /\
  (Multinomial.validate_args d = false ->
   Multinomial._assert_valid_sample d (constant counts) = Ok (constant counts)).
Proof.
  unfold Multinomial.log_prob, Multinomial.prob, Multinomial._prob.
  intros H. rewrite H. cbn [bind].
  assert (Hiff : forall m,
     run lp (Fails m) <->
     In m (failed (Multinomial.n d)) \/ In m (failed (Multinomial.p d)) \/
     (Multinomial.validate_args d = true /\
      ((m = "counts has negative components." /\ Spec.has_negative counts) \/
       (m = "counts do not sum to n." /\
        Spec.sum_differs (val (Multinomial.n d)) counts) \/
       (m = "counts have non-integer components." /\
        Spec.has_non_integer counts)))).
  { intros m. cbn [run].
    destruct (log_prob_failed _ _ _ H) as (c & Hc & Hfailed).
    rewrite Hfailed, (assert_valid_sample_failed _ _ _ Hc m).
    cbn [failed val constant In]. tauto. }
  split; [exact Hiff|]. split; [|split].
  - intros Hva [Hneg|[Hsum|Hint]] t.
    + apply (fails_not_returns _ "counts has negative components.").
      apply Hiff. tauto.
    + apply (fails_not_returns _ "counts do not sum to n.").
      apply Hiff. tauto.
    + apply (fails_not_returns _ "counts have non-integer components.").
      apply Hiff. tauto.
  - exists (math_ops.exp lp). split; trivial. split; [reflexivity|].
    intros m. reflexivity.
  - intros Hva. unfold Multinomial._assert_valid_sample. now rewrite Hva.
Qed.

End Validation.

(** ** The kernel on real probabilities and integer counts *)

Section RealKernel.

Variable lgamma : num -> num.

Lemma exp_INR_ln (x : R) (k : nat) : 0 < x -> exp (INR k * ln x) = x ^ k.
Proof.
  intros Hx. induction k as [|k IH].
  - cbn. rewrite Rmult_0_l. apply exp_0.
  - rewrite S_INR, Rmult_plus_distr_r, Rmult_1_l, exp_plus, IH, exp_ln by trivial.
    cbn. ring.
Qed.

Lemma exp_weighted_logs (p : list R) (c : list nat) :
  Forall (fun x => 0 < x) p ->
  exp (Spec.Rsum (map (fun pc => INR (snd pc) * ln (fst pc)) (combine p c))) =
  Spec.Rprod (map (fun pc => fst pc ^ snd pc) (combine p c)).
Proof.
  intros Hp. revert c. induction Hp as [|x p Hx Hp IH]; intros c.
  - cbn. apply exp_0.
  - destruct c as [|k c]; [cbn; apply exp_0|].
    cbn [combine map Spec.Rsum Spec.Rprod fold_right fst snd].
    rewrite exp_plus, exp_INR_ln by trivial. f_equal. apply IH.
Qed.

Lemma exp_log_factorials (c : list nat) :
  exp (Spec.Rsum (map (fun k => ln (INR (fact k))) c)) =
  Spec.Rprod (map (fun k => INR (fact k)) c).
Proof.
  induction c as [|k c IH].
  - cbn. apply exp_0.
  - cbn [map Spec.Rsum Spec.Rprod fold_right].
    rewrite exp_plus, exp_ln by apply INR_fact_lt_0. f_equal. exact IH.
Qed.

Lemma Rprod_fact_pos (c : list nat) :
  0 < Spec.Rprod (map (fun k => INR (fact k)) c).
Proof.
  induction c as [|k c IH]; cbn; [lra|].
  apply Rmult_lt_0_compat; trivial. apply INR_fact_lt_0.
Qed.

(** The exponential of the log-probability formula is the probability mass
    function of the docstring. *)
Lemma exp_log_pmf (n : nat) (p : list R) (c : list nat) :
  Forall (fun x => 0 < x) p ->
  exp (Spec.Rsum (map (fun pc => INR (snd pc) * ln (fst pc)) (combine p c))
       - - (ln (INR (fact n))
            - Spec.Rsum (map (fun k => ln (INR (fact k))) c))) =
  Spec.pmf n p c.
Proof.
  intros Hp. unfold Spec.pmf.
  replace (Spec.Rsum (map (fun pc => INR (snd pc) * ln (fst pc)) (combine p c))
           - - (ln (INR (fact n))
                - Spec.Rsum (map (fun k => ln (INR (fact k))) c)))
    with (Spec.Rsum (map (fun pc => INR (snd pc) * ln (fst pc)) (combine p c))
          + (ln (INR (fact n))
             + - Spec.Rsum (map (fun k => ln (INR (fact k))) c))) by ring.
  rewrite !exp_plus, exp_Ropp, exp_weighted_logs, exp_log_factorials,
    exp_ln by (trivial; apply INR_fact_lt_0).
  unfold Rdiv. ring.
Qed.

(** [log_prob] on a scalar number of trials, a vector of positive
    probabilities and a vector of natural numbers. *)
Lemma log_prob_real (d : Multinomial.t) (n : nat) (p : list R) (c : list nat) :
  val (Multinomial.n d) = Spec.nat_scalar n ->
  val (Multinomial.p d) = Spec.real_vector p ->
  length c = length p ->
  Forall (fun x => 0 < x) p ->
  (forall k, k = n \/ In k c ->
             lgamma (Fin (INR k + 1)) = Fin (ln (INR (fact k)))) ->
  exists lp,
    Multinomial.log_prob lgamma d (Spec.nat_vector c) = Ok lp /\
    shape (val lp) = [] /\
    get (val lp) [] =
    Fin (Spec.Rsum (map (fun pc => INR (snd pc) * ln (fst pc)) (combine p c))
         - - (ln (INR (fact n))
              - Spec.Rsum (map (fun k => ln (INR (fact k))) c))).
Proof.
  intros Hn Hp Hlen Hpos Hlg.
  destruct (log_prob_vector lgamma d (Fin (INR n)) (map Fin p)
              (map (fun k => Fin (INR k)) c) Hn Hp)
    as (lp & Hlp & Hshape & Hget).
  { now rewrite !length_map. }
  exists lp. split; trivial. split; trivial. rewrite Hget.
  assert (H1 : nsum (map (fun cp => nmul (fst cp) (nlog (snd cp)))
                       (combine (map (fun k => Fin (INR k)) c) (map Fin p))) =
               Fin (Spec.Rsum (map (fun pc => INR (snd pc) * ln (fst pc))
                                   (combine p c)))).
  { clear Hlg Hget Hlp Hn Hp. revert c Hlen.
    induction Hpos as [|x p Hx Hpos IH]; intros [|k c] Hlen;
      try discriminate; trivial.
    cbn [map combine fst snd]. rewrite nsum_cons, IH by (now inversion Hlen).
    cbn [nlog]. destruct (Req_dec_T x 0) as [E|E]; [lra|].
    destruct (Rlt_dec 0 x) as [L|L]; [|lra]. reflexivity. }
  assert (H2 : nsum (map (fun x => lgamma (nadd x (Fin 1)))
                       (map (fun k => Fin (INR k)) c)) =
               Fin (Spec.Rsum (map (fun k => ln (INR (fact k))) c))).
  { rewrite map_map. apply nsum_map_fin. intros k Hk. cbn [nadd].
    apply Hlg. now right. }
  rewrite H1, H2. cbn [nadd]. rewrite (Hlg n) by now left. reflexivity.
Qed.

End RealKernel.

(** ** Valid parameters and samples raise nothing *)

Section ValidInputs.

Variable lgamma : num -> num.
Variable tol : R.

Lemma no_element_nil {A : Type} (l : list A) :
  (forall a, ~ In a l) -> l = [].
Proof. destruct l as [|a l]; trivial. intros H. destruct (H a). now left. Qed.

Lemma Rsum_INR (c : list nat) : Spec.Rsum (map INR c) = INR (list_sum c).
Proof.
  induction c as [|k c IH]; trivial.
  cbn [map Spec.Rsum fold_right list_sum]. rewrite plus_INR. f_equal. exact IH.
Qed.

Lemma is_integer_INR (k : nat) : is_integer (Fin (INR k)) = true.
Proof.
  cbn. rewrite Int_part_INR, <- INR_IZR_INZ.
  now destruct (Req_dec_T (INR k) (INR k)).
Qed.

Lemma nleb_0_INR (k : nat) : nleb (Fin 0) (Fin (INR k)) = true.
Proof.
  cbn. destruct (Rle_dec 0 (INR k)) as [H|H]; trivial.
  destruct H. apply pos_INR.
Qed.

Lemma nat_scalar_valid (n : nat) :
  ~ Spec.has_negative (Spec.nat_scalar n) /\
  ~ Spec.has_non_integer (Spec.nat_scalar n).
Proof.
  split; intros (idx & _ & H); cbn [Spec.nat_scalar scalar get] in H.
  - now rewrite nleb_0_INR in H.
  - now rewrite is_integer_INR in H.
Qed.

Lemma nat_vector_valid (c : list nat) :
  ~ Spec.has_negative (Spec.nat_vector c) /\
  ~ Spec.has_non_integer (Spec.nat_vector c).
Proof.
  split; intros (idx & Hv & H); cbn [Spec.nat_vector vector shape get] in *;
    destruct (valid_index_vector _ _ Hv) as (j & -> & Hj);
    rewrite length_map in Hj; cbn [hd] in H;
    rewrite (nth_indep _ NaN (Fin (INR 0))) in H by (now rewrite length_map);
    rewrite (map_nth (fun k => Fin (INR k))) in H.
  - now rewrite nleb_0_INR in H.
  - now rewrite is_integer_INR in H.
Qed.

Lemma nat_vector_sum (n : nat) (c : list nat) :
  list_sum c = n -> ~ Spec.sum_differs (Spec.nat_scalar n) (Spec.nat_vector c).
Proof.
  intros Hsum (kc & C & NC & b & HC & HNC & Hb & H).
  cbn [Spec.nat_vector vector shape] in HC. inversion HC; subst kc C.
  cbn [Spec.nat_scalar scalar get bindex] in H.
  cbn [Spec.nat_vector vector get hd] in H.
  rewrite length_map in H.
  rewrite <- (length_map (fun k => Fin (INR k)) c) in H.
  rewrite (map_nth_seq (fun x => x)), map_id in H.
  rewrite (nsum_map_fin _ INR) in H by trivial.
  rewrite Rsum_INR, Hsum in H. cbn in H.
  now destruct (Req_dec_T (INR n) (INR n)).
Qed.

Lemma real_vector_nonneg (p : list R) :
  Forall (fun x => 0 <= x) p ->
  all_elements (nleb (Fin 0)) (Spec.real_vector p) = true.
Proof.
  intros Hpos. apply all_elements_spec. intros idx Hv.
  cbn [Spec.real_vector vector shape get] in *.
  destruct (valid_index_vector _ _ Hv) as (j & -> & Hj).
  rewrite length_map in Hj. cbn [hd].
  rewrite (nth_indep _ NaN (Fin 0)) by (now rewrite length_map).
  rewrite (map_nth Fin). cbn.
  destruct (Rle_dec 0 (nth j p 0)) as [L|L]; trivial. destruct L.
  rewrite Forall_forall in Hpos. apply Hpos. now apply nth_In.
Qed.

(** The constructor on a scalar number of trials and a vector of
    probabilities that are non-negative and sum to 1 within the tolerance. *)
Lemma init_real_vector (n : nat) (p : list R) (va an : option bool) :
  Forall (fun x => 0 <= x) p ->
  Rabs (Spec.Rsum p - 1) < tol ->
  exists d,
    Multinomial.__init__ tol (Spec.nat_scalar n) None
      (Some (Spec.real_vector p)) va an = Ok d /\
    val (Multinomial.n d) = Spec.nat_scalar n /\
    val (Multinomial.p d) = Spec.real_vector p /\
    failed (Multinomial.n d) = [] /\
    failed (Multinomial.p d) = [].
Proof.
  intros Hpos Hsum.
  unfold Multinomial.__init__, distribution_util.get_logits_and_prob,
    math_ops.mul.
  unfold_ops.
  set (flag := match va with
               | Some b => b
               | None => Multinomial.default_validate_args
               end).
  assert (Hn : concat (Multinomial.n_checks (constant (Spec.nat_scalar n)) flag)
               = []).
  { apply no_element_nil. intros m Hm. apply n_checks_in in Hm.
    destruct (nat_scalar_valid n). tauto. }
  assert (Hshape : broadcast_shape [1%nat] [length (map Fin p)]
                   = Some [length (map Fin p)]).
  { cbn. now rewrite bdim_1_l. }
  destruct flag.
  - erewrite reduce_sum_ok by reflexivity. cbn [bind].
    erewrite op2_broadcast2_ok by exact Hshape. cbn [bind].
    erewrite reduce_sum_ok by reflexivity. cbn [bind].
    eexists. split; [reflexivity|].
    cbn [Multinomial.n Multinomial.p Multinomial._n Multinomial._p snd].
    split; [reflexivity|]. split; [reflexivity|]. split.
    + cbn [control_dependencies with_dependencies failed op1 constant].
      now rewrite Hn.
    + cbn [with_dependencies failed op1 constant concat val identity].
      unfold assert_non_negative, assert_close, Assert.
      cbn [flat_map failed app val op1 constant identity].
      rewrite (real_vector_nonneg p Hpos).
      replace (all_elements _ _) with true; [reflexivity|].
      symmetry. apply all_elements_spec. intros [|i idx]; [|contradiction].
      intros _. cbn [get shape Spec.real_vector vector hd].
      rewrite (map_nth_seq (fun x => x)), map_id, nsum_fin.
      cbn. destruct (Rlt_dec _ tol) as [L|L]; trivial. now destruct L.
  - cbn [bind]. erewrite op2_broadcast2_ok by exact Hshape. cbn [bind].
    erewrite reduce_sum_ok by reflexivity. cbn [bind].
    eexists. split; [reflexivity|].
    cbn [Multinomial.n Multinomial.p Multinomial._n Multinomial._p snd].
    split; [reflexivity|]. split; [reflexivity|]. split.
    + cbn [control_dependencies with_dependencies failed op1 constant].
      now rewrite Hn.
    + reflexivity.
Qed.

(** A sample of natural numbers that sums to [n] passes the checks. *)
Lemma valid_sample_no_failure (d : Multinomial.t) (n : nat) (c : list nat)
    (lp : node) :
  val (Multinomial.n d) = Spec.nat_scalar n ->
  failed (Multinomial.n d) = [] ->
  failed (Multinomial.p d) = [] ->
  list_sum c = n ->
  Multinomial.log_prob lgamma d (Spec.nat_vector c) = Ok lp ->
  failed lp = [].
Proof.
  intros Hn Hfn Hfp Hsum Hlp. apply no_element_nil. intros m Hm.
  destruct (log_prob_failed _ _ _ _ Hlp) as (c' & Hc & Hfailed).
  apply Hfailed in Hm. rewrite Hfn, Hfp in Hm.
  rewrite (assert_valid_sample_failed _ _ _ Hc m) in Hm.
  rewrite Hfn, Hn in Hm. cbn [failed val constant In] in Hm.
  destruct (nat_vector_valid c) as [Hneg Hint].
  pose proof (nat_vector_sum n c Hsum). tauto.
Qed.

Lemma zero_counts_sums (p : list R) :
  Spec.Rsum (map (fun pc => INR (snd pc) * ln (fst pc))
                 (combine p (repeat 0%nat (length p)))) = 0 /\
  Spec.Rsum (map (fun k => ln (INR (fact k))) (repeat 0%nat (length p))) = 0.
Proof.
  induction p as [|x p [IH1 IH2]]; [split; reflexivity|].
  cbn [length repeat combine map fst snd].
  split.
  - change (INR 0 * ln x
            + Spec.Rsum (map (fun pc => INR (snd pc) * ln (fst pc))
                             (combine p (repeat 0%nat (length p)))) = 0).
    rewrite IH1. cbn. ring.
  - change (ln (INR (fact 0))
            + Spec.Rsum (map (fun k => ln (INR (fact k)))
                             (repeat 0%nat (length p))) = 0).
    rewrite IH2. cbn. rewrite ln_1. ring.
Qed.

End ValidInputs.

(** ** The multinomial theorem *)

Section MultinomialTheorem.

Lemma compositions_spec (K n : nat) (c : list nat) :
  In c (Spec.compositions K n) <-> length c = K /\ list_sum c = n.
Proof.
  revert n c; induction K as [|K IH]; intros n c.
  - destruct n; cbn; split.
    + intros [<-|[]]. now split.
    + intros [Hl Hs]. destruct c; [now left | discriminate].
    + intros [].
    + intros [Hl Hs]. destruct c; discriminate.
  - cbn [Spec.compositions]. rewrite in_flat_map. split.
    + intros (k & Hk & Hc). apply in_seq in Hk. apply in_map_iff in Hc.
      destruct Hc as (c' & <- & Hc'). apply IH in Hc'.
      destruct Hc' as [Hl Hs]. unfold list_sum in *. cbn. lia.
    + destruct c as [|k c']; [intros [? _]; discriminate|].
      unfold list_sum. cbn [length fold_right]. intros [Hl Hs].
      exists k. split.
      * apply in_seq. lia.
      * apply in_map. apply IH. unfold list_sum. lia.
Qed.

Lemma NoDup_map_cons (k : nat) (l : list (list nat)) :
  NoDup l -> NoDup (map (cons k) l).
Proof.
  induction 1 as [|c l Hc Hl IH]; cbn; constructor; trivial.
  rewrite in_map_iff. intros (c' & E & Hc'). inversion E; subst. contradiction.
Qed.

Lemma compositions_NoDup (K n : nat) : NoDup (Spec.compositions K n).
Proof.
  revert n; induction K as [|K IH]; intros n.
  - destruct n; cbn; repeat constructor. intros [].
  - cbn [Spec.compositions].
    generalize (seq_NoDup (S n) 0). generalize (seq 0 (S n)) as l.
    induction l as [|k l IHl]; intros Hl; cbn; [constructor|].
    inversion Hl as [|? ? Hk Hl']; subst. apply NoDup_app.
    + apply NoDup_map_cons, IH.
    + apply IHl, Hl'.
    + intros c Hc Hc'. apply in_map_iff in Hc. destruct Hc as (c1 & <- & _).
      apply in_flat_map in Hc'. destruct Hc' as (k' & Hk' & Hc').
      apply in_map_iff in Hc'. destruct Hc' as (c2 & E & _).
      inversion E; subst. contradiction.
Qed.

Lemma Rsum_app (l1 l2 : list R) :
  Spec.Rsum (l1 ++ l2) = Spec.Rsum l1 + Spec.Rsum l2.
Proof.
  induction l1 as [|x l1 IH].
  - cbn [app]. unfold Spec.Rsum at 2. cbn [fold_right]. ring.
  - cbn [app]. unfold Spec.Rsum in *. cbn [fold_right]. rewrite IH. ring.
Qed.

Lemma Rsum_flat_map {A B : Type} (f : B -> R) (g : A -> list B) (l : list A) :
  Spec.Rsum (map f (flat_map g l)) =
  Spec.Rsum (map (fun a => Spec.Rsum (map f (g a))) l).
Proof.
  induction l as [|a l IH]; trivial.
  cbn [flat_map map]. rewrite map_app, Rsum_app, IH. reflexivity.
Qed.

Lemma Rsum_scale {A : Type} (r : R) (f : A -> R) (l : list A) :
  Spec.Rsum (map (fun a => r * f a) l) = r * Spec.Rsum (map f l).
Proof.
  induction l as [|a l IH]; unfold Spec.Rsum in *; cbn [map fold_right];
    [ring|].
  rewrite IH. ring.
Qed.

Lemma Rsum_seq (f : nat -> R) (n : nat) :
  Spec.Rsum (map f (seq 0 (S n))) = sum_f_R0 f n.
Proof.
  induction n as [|n IH]; [cbn; ring|].
  rewrite seq_S, map_app, Rsum_app, IH. cbn. ring.
Qed.

(** Splitting off the first class: the binomial coefficient times the mass
    function of the remaining classes. *)
Lemma pmf_cons (n k : nat) (x : R) (p : list R) (c : list nat) :
  (k <= n)%nat ->
  Spec.pmf n (x :: p) (k :: c) = (C n k * x ^ k) * Spec.pmf (n - k) p c.
Proof.
  intros Hk. unfold Spec.pmf, C.
  cbn [map combine Spec.Rprod fold_right fst snd].
  change (fold_right Rmult 1 (map (fun k0 => INR (fact k0)) c))
    with (Spec.Rprod (map (fun k0 => INR (fact k0)) c)).
  pose proof (Rprod_fact_pos c) as Hc. pose proof (INR_fact_lt_0 k) as Hfk.
  pose proof (INR_fact_lt_0 (n - k)) as Hfn.
  set (F := Spec.Rprod (map (fun k0 => INR (fact k0)) c)) in *.
  set (P := Spec.Rprod (map (fun pk => fst pk ^ snd pk) (combine p c))).
  change (fold_right Rmult 1 (map (fun pk => fst pk ^ snd pk) (combine p c)))
    with P.
  set (xk := x ^ k). set (fk := INR (fact k)) in *.
  set (fnk := INR (fact (n - k))) in *. set (fn := INR (fact n)).
  field. repeat split; lra.
Qed.

(** The mass function summed over all the count vectors with total [n] is
    the [n]-th power of the sum of the probabilities. *)
Lemma multinomial_theorem (p : list R) (n : nat) :
  Spec.Rsum (map (Spec.pmf n p) (Spec.compositions (length p) n)) =
  Spec.Rsum p ^ n.
Proof.
  revert n; induction p as [|x p IH]; intros n.
  - destruct n; cbn.
    + unfold Spec.pmf. cbn. field.
    + ring.
  - cbn [length Spec.compositions]. rewrite Rsum_flat_map.
    change (Spec.Rsum (x :: p)) with (x + Spec.Rsum p).
    rewrite binomial, <- Rsum_seq. f_equal. apply map_ext_in.
    intros k Hk. apply in_seq in Hk. rewrite map_map.
    rewrite (map_ext_in _ (fun c => (C n k * x ^ k) * Spec.pmf (n - k) p c)).
    + rewrite Rsum_scale, IH. ring.
    + intros c _. apply pmf_cons. lia.
Qed.

End MultinomialTheorem.

(** ** The probability of counts *)

Section Probabilities.

Variable lgamma : num -> num.
Variable tol : R.

(** C10: for a distribution with scalar trial count 0 and a positive
    probability vector summing to 1, [log_prob] of the all-zero counts vector
    evaluates to 0 and [prob] to 1, whatever [validate_args] is. *)
Theorem empty_draw_has_probability_one
    (p : list R) (va an : option bool) :
  lgamma (Fin 1) = Fin 0 ->
  0 < tol ->
  Forall (fun x => 0 < x) p ->
  Spec.Rsum p = 1 ->
  exists d lp pr,
    Multinomial.__init__ tol (Spec.nat_scalar 0) None
      (Some (Spec.real_vector p)) va an = Ok d /\
    Multinomial.log_prob lgamma d (Spec.nat_vector (repeat 0%nat (length p)))
      = Ok lp /\
    failed lp = [] /\ shape (val lp) = [] /\ get (val lp) [] = Fin 0 /\
    Multinomial.prob lgamma d (Spec.nat_vector (repeat 0%nat (length p)))
      = Ok pr /\
    failed pr = [] /\ shape (val pr) = [] /\ get (val pr) [] = Fin 1.
Proof.
  intros Hlg Htol Hpos Hsum.
  destruct (init_real_vector tol 0 p va an)
    as (d & Hd & Hn & Hp & Hfn & Hfp).
  { eapply Forall_impl; [|exact Hpos]. intros x Hx. now apply Rlt_le. }
  { rewrite Hsum. replace (1 - 1) with 0 by ring. now rewrite Rabs_R0. }
  destruct (log_prob_real lgamma d 0 p (repeat 0%nat (length p)) Hn Hp)
    as (lp & Hlp & Hshape & Hget); trivial.
  { apply repeat_length. }
  { intros k [->|Hk]; [|apply repeat_spec in Hk; subst k].
    - cbn. replace (0 + 1) with 1 by ring. now rewrite ln_1.
    - cbn. replace (0 + 1) with 1 by ring. now rewrite ln_1. }
  assert (Hfailed : failed lp = []).
  { apply (valid_sample_no_failure lgamma d 0 (repeat 0%nat (length p)));
      trivial.
    clear. induction (length p); cbn; auto. }
  destruct (zero_counts_sums p) as [H1 H2]. rewrite H1, H2 in Hget.
  assert (Hzero : get (val lp) [] = Fin 0).
  { rewrite Hget. cbn. rewrite ln_1. f_equal. ring. }
  exists d, lp, (math_ops.exp lp).
  split; trivial. split; trivial. split; trivial. split; trivial.
  split; trivial. split.
  { unfold Multinomial.prob, Multinomial._prob.
    unfold Multinomial.log_prob in Hlp. now rewrite Hlp. }
  split; trivial. split; trivial.
  cbn. rewrite Hzero. cbn. now rewrite exp_0.
Qed.

(** C3: for every distribution with scalar trial count [n] and a probability
    vector [p] of length [K] with positive entries summing to 1, every
    [K]-tuple of natural numbers summing to [n] is listed once by
    [compositions K n], [prob] evaluates on each of them, without failure, to
    the mass [n!/(n_1!...n_K!) p_1^n_1 ... p_K^n_K], and the sum of
    [prob(counts)] over all of them is 1. *)
Theorem prob_sums_to_one (n : nat) (p : list R) (va an : option bool) :
  (forall k, lgamma (Fin (INR k + 1)) = Fin (ln (INR (fact k)))) ->
  0 < tol ->
  Forall (fun x => 0 < x) p ->
  Spec.Rsum p = 1 ->
  exists d,
    Multinomial.__init__ tol (Spec.nat_scalar n) None
      (Some (Spec.real_vector p)) va an = Ok d /\
    (forall c, In c (Spec.compositions (length p) n) <->
               length c = length p /\ list_sum c = n) /\
    NoDup (Spec.compositions (length p) n) /\
    (forall c, In c (Spec.compositions (length p) n) ->
       exists pr,
         Multinomial.prob lgamma d (Spec.nat_vector c) = Ok pr /\
         failed pr = [] /\ shape (val pr) = [] /\
         get (val pr) [] = Fin (Spec.pmf n p c)) /\
    nsum (map (fun c => Spec.scalar_value
                          (Multinomial.prob lgamma d (Spec.nat_vector c)))
              (Spec.compositions (length p) n)) = Fin 1.
Proof.
  intros Hlg Htol Hpos Hsum.
  destruct (init_real_vector tol n p va an)
    as (d & Hd & Hn & Hp & Hfn & Hfp).
  { eapply Forall_impl; [|exact Hpos]. intros x Hx. now apply Rlt_le. }
  { rewrite Hsum. replace (1 - 1) with 0 by ring. now rewrite Rabs_R0. }
  exists d. split; trivial.
  split; [intros c; apply compositions_spec|].
  split; [apply compositions_NoDup|].
  assert (Hprob : forall c, In c (Spec.compositions (length p) n) ->
            exists pr,
              Multinomial.prob lgamma d (Spec.nat_vector c) = Ok pr /\
              failed pr = [] /\ shape (val pr) = [] /\
              get (val pr) [] = Fin (Spec.pmf n p c)).
  { intros c Hc. apply compositions_spec in Hc. destruct Hc as [Hlen Hs].
    destruct (log_prob_real lgamma d n p c Hn Hp Hlen Hpos)
      as (lp & Hlp & Hshape & Hget).
    { intros k _. apply Hlg. }
    exists (math_ops.exp lp). split.
    { unfold Multinomial.prob, Multinomial._prob.
      unfold Multinomial.log_prob in Hlp. now rewrite Hlp. }
    split.
    { apply (valid_sample_no_failure lgamma d n c lp); trivial. }
    split; trivial.
    cbn. rewrite Hget. cbn [nexp]. f_equal. now apply exp_log_pmf. }
  split; trivial.
  rewrite (nsum_map_fin _ (Spec.pmf n p)).
  - rewrite multinomial_theorem, Hsum, pow1. reflexivity.
  - intros c Hc. destruct (Hprob c Hc) as (pr & -> & _ & _ & Hget).
    exact Hget.
Qed.

End Probabilities.

(** ** Classes of probability zero *)

Section ZeroProbability.

Variable lgamma : num -> num.
Variable tol : R.

(** C8, as the code has it: if, for a batch element, some class has
    probability 0 and a positive count, every class of probability 0 has a
    positive count, and counts and trial count are natural numbers, then
    [log_prob] is minus infinity for that batch element. *)
Theorem zero_probability_log_prob
    (d : Multinomial.t) (counts : tensor) (lp : node)
    (K : nat) (C P b : list nat) (m : nat) :
  (forall k, lgamma (Fin (INR k + 1)) = Fin (ln (INR (fact k)))) ->
  Multinomial.log_prob lgamma d counts = Ok lp ->
  shape counts = K :: C ->
  shape (val (Multinomial.p d)) = K :: P ->
  get (val (Multinomial.n d)) (bindex (shape (val (Multinomial.n d))) b)
    = Fin (INR m) ->
  (forall j, (j < K)%nat ->
     exists k r,
       get counts (j :: bindex C b) = Fin (INR k) /\
       get (val (Multinomial.p d)) (j :: bindex P b) = Fin r /\
       0 <= r /\ (r = 0 -> (0 < k)%nat)) ->
  (exists j, (j < K)%nat /\
             get (val (Multinomial.p d)) (j :: bindex P b) = Fin 0) ->
  get (val lp) b = NInf.
Proof.
  intros Hlg Hlp HC HP Hn Hclass (j0 & Hj0 & Hzero).
  destruct (log_prob_inv _ _ _ _ Hlp)
    as (kc & C' & k & S & NC & HC' & Hs1 & _ & _ & Hget).
  cbn [val constant] in HC', Hget. rewrite HC in HC'.
  inversion HC'; subst kc C'; clear HC'.
  rewrite HP in Hs1. cbn in Hs1. rewrite bdim_refl in Hs1.
  destruct (broadcast_shape C P); inversion Hs1; subst k S; clear Hs1.
  rewrite Hget, Hn, HP. clear Hget.
  assert (HA : nsum (map (fun j =>
                  nmul (get counts (bindex (K :: C) (j :: b)))
                       (nlog (get (val (Multinomial.p d))
                                  (bindex (K :: P) (j :: b)))))
                (seq 0 K)) = NInf).
  { apply nsum_neg_inf.
    - intros x Hx. apply in_map_iff in Hx. destruct Hx as (j & <- & Hj).
      apply in_seq in Hj. rewrite !bindex_cons_lt by lia.
      destruct (Hclass j) as (kj & r & -> & -> & Hr & Hk); [lia|].
      cbn [nlog]. destruct (Req_dec_T r 0) as [E|E].
      + right. cbn. unfold inf_times.
        assert (0 < INR kj) by (apply lt_0_INR; auto).
        destruct (Req_dec_T (INR kj) 0); [lra|].
        destruct (Rlt_dec 0 (INR kj)); [reflexivity|lra].
      + destruct (Rlt_dec 0 r); [|lra]. left. exact I.
    - apply in_map_iff. exists j0. split; [|apply in_seq; lia].
      rewrite !bindex_cons_lt by lia. rewrite Hzero.
      destruct (Hclass j0 Hj0) as (kj & r & -> & Hr0 & Hr & Hk).
      rewrite Hzero in Hr0. inversion Hr0; subst r.
      cbn [nlog]. destruct (Req_dec_T 0 0) as [_|E]; [|now destruct E].
      cbn. unfold inf_times.
      assert (0 < INR kj) by (apply lt_0_INR; auto).
      destruct (Req_dec_T (INR kj) 0); [lra|].
      destruct (Rlt_dec 0 (INR kj)); [reflexivity|lra]. }
  rewrite HA. cbn [nadd]. rewrite Hlg.
  assert (HB : is_fin (nsum (map (fun j =>
                  lgamma (nadd (get counts (j :: bindex C b)) (Fin 1)))
                (seq 0 K)))).
  { apply nsum_is_fin. intros x Hx. apply in_map_iff in Hx.
    destruct Hx as (j & <- & Hj). apply in_seq in Hj.
    destruct (Hclass j) as (kj & r & -> & _); [lia|].
    cbn [nadd]. rewrite Hlg. exact I. }
  rewrite (is_fin_to_R _ HB). reflexivity.
Qed.

End ZeroProbability.

(** ** The validation flag *)

Section ValidationFlag.

Variable tol : R.

(** C9, as the code has it: the one constructor argument [validate_args],
    true when it is not supplied, is the flag that gates the checks on [n] in
    the constructor and the flag that [_assert_valid_sample] reads; when it is
    false the sample passes through unchecked. *)
Theorem validate_args_gates_both
    (n : tensor) (logits p : option tensor) (va an : option bool)
    (d : Multinomial.t) :
  Multinomial.__init__ tol n logits p va an = Ok d ->
  Multinomial.validate_args d =
    match va with Some b => b | None => true end /\
  Multinomial._n d =
    control_dependencies
      (Multinomial.n_checks (constant n) (Multinomial.validate_args d))
      (array_ops.identity (constant n)) /\
  (forall counts,
     Multinomial.validate_args d = false ->
     Multinomial._assert_valid_sample d counts = Ok counts) /\
  (forall counts c m,
     Multinomial.validate_args d = true ->
     Multinomial._assert_valid_sample d counts = Ok c ->
     In m (failed c) <->
     In m (failed counts) \/ In m (failed (Multinomial.n d)) \/
     (m = Multinomial.msg_counts_negative /\ Spec.has_negative (val counts)) \/
     (m = Multinomial.msg_counts_sum /\
      Spec.sum_differs (val (Multinomial.n d)) (val counts)) \/
     (m = Multinomial.msg_counts_integer /\
      Spec.has_non_integer (val counts))).
Proof.
  intros H. destruct (init_inv _ _ _ _ _ _ _ H)
    as (lp & prod & total & _ & _ & _ & _ & _ & HN & _ & _ & Hflag).
  rewrite Hflag. split; [reflexivity|]. split; [exact HN|]. split.
  - intros counts Hva. unfold Multinomial._assert_valid_sample.
    now rewrite Hflag, Hva.
  - intros counts c m Hva Hc.
    rewrite (assert_valid_sample_failed _ _ _ Hc m), Hflag, Hva.
    unfold Multinomial.msg_counts_negative, Multinomial.msg_counts_sum,
      Multinomial.msg_counts_integer. tauto.
Qed.

End ValidationFlag.

(** ** Chains of broadcasts *)

Section BroadcastFacts.

Lemma bdim_absorb (x y d : nat) :
  bdim x y = Some d -> bdim d y = Some d /\ bdim x d = Some d.
Proof.
  unfold bdim.
  repeat match goal with
    | |- context [Nat.eqb ?a ?b] =>
        destruct (Nat.eqb_spec a b); try subst; cbv iota
    end; intros H; inversion H; subst;
    repeat match goal with
      | |- context [Nat.eqb ?a ?b] =>
          destruct (Nat.eqb_spec a b); try subst; cbv iota
      end; auto; try congruence; try lia.
Qed.

Lemma broadcast_shape_absorb (a b s : list nat) :
  broadcast_shape a b = Some s ->
  broadcast_shape s b = Some s /\ broadcast_shape a s = Some s.
Proof.
  revert b s; induction a as [|x a IH]; intros b s H.
  - cbn in H. inversion H; subst. split; [apply broadcast_shape_refl|reflexivity].
  - destruct b as [|y b].
    + cbn in H. inversion H; subst.
      split; [apply broadcast_shape_nil_r | apply broadcast_shape_refl].
    + cbn in H. destruct (bdim x y) as [d|] eqn:Hd; try discriminate.
      destruct (broadcast_shape a b) as [r|] eqn:Hr; try discriminate.
      inversion H; subst. destruct (bdim_absorb _ _ _ Hd) as [H1 H2].
      destruct (IH _ _ Hr) as [H3 H4]. cbn. now rewrite H1, H2, H3, H4.
Qed.

(** The shape of [n[..., None] * p]: its class axis is that of [p], and its
    batch axes are the broadcast of [n]'s axes with [p]'s batch axes. *)
Lemma broadcast_shape_tail (N sp S : list nat) (k : nat) :
  broadcast_shape (1%nat :: N) sp = Some (k :: S) ->
  broadcast_shape N (tl sp) = Some S /\ k = hd 1%nat sp.
Proof.
  destruct sp as [|K P]; cbn.
  - intros H; inversion H; subst. split; [apply broadcast_shape_nil_r|reflexivity].
  - rewrite bdim_1_l. destruct (broadcast_shape N P); intros H; inversion H.
    now split.
Qed.

Lemma join_comm (a b : option (list nat)) : join a b = join b a.
Proof. destruct a, b; cbn; trivial. apply broadcast_shape_comm. Qed.

Lemma join_none_r (a : option (list nat)) : join a None = None.
Proof. now destruct a. Qed.

Lemma join_assoc (a b c : option (list nat)) :
  join a (join b c) = join (join a b) c.
Proof.
  destruct a as [a|]; [|reflexivity].
  destruct b as [b|]; [|reflexivity].
  destruct c as [c|]; [|cbn; now rewrite join_none_r].
  cbn. pose proof (broadcast_shape_assoc a b c) as H.
  destruct (broadcast_shape b c), (broadcast_shape a b); cbn; trivial.
Qed.

Lemma join_absorb (a b : option (list nat)) : join (join a b) a = join a b.
Proof.
  destruct a as [a|]; [|reflexivity].
  destruct b as [b|]; [|reflexivity].
  cbn. destruct (broadcast_shape a b) as [s|] eqn:H; [|reflexivity].
  cbn. rewrite broadcast_shape_comm in H.
  exact (proj1 (broadcast_shape_absorb _ _ _ H)).
Qed.

(** Broadcasting [X] against [sp] and against [N1], then the two results
    against each other, is broadcasting [X] against the broadcast of [N1] and
    [sp]. *)
Lemma join_three (X sp N1 : list nat) :
  join (broadcast_shape X sp) (broadcast_shape N1 X) =
  join (Some X) (broadcast_shape N1 sp).
Proof.
  change (join (join (Some X) (Some sp)) (join (Some N1) (Some X)) =
          join (Some X) (join (Some N1) (Some sp))).
  rewrite (join_comm (Some N1) (Some X)), join_assoc, join_absorb.
  rewrite <- join_assoc. f_equal. apply join_comm.
Qed.

(** The three broadcasts of [log_prob], against the one broadcast of the
    shape of [counts] with the shape of the mean. *)
Lemma log_prob_shapes (N sp C B : list nat) (kc Ke : nat) (F : list nat) :
  broadcast_shape (1%nat :: N) sp = Some (Ke :: B) ->
  (exists k S NC,
     broadcast_shape (kc :: C) sp = Some (k :: S) /\
     broadcast_shape N C = Some NC /\
     broadcast_shape S NC = Some F) <->
  (exists k, broadcast_shape (kc :: C) (Ke :: B) = Some (k :: F)).
Proof.
  intros HM. pose proof (join_three (kc :: C) sp (1%nat :: N)) as J.
  rewrite HM in J.
  assert (HN : broadcast_shape (1%nat :: N) (kc :: C) =
               match broadcast_shape N C with
               | Some NC => Some (kc :: NC)
               | None => None
               end).
  { cbn. now rewrite bdim_1_l. }
  rewrite HN in J. clear HN.
  change (join (Some (kc :: C)) (Some (Ke :: B)))
    with (broadcast_shape (kc :: C) (Ke :: B)) in J.
  split.
  - intros (k & S & NC & Hs1 & HNC & HF). exists k. rewrite <- J, Hs1, HNC.
    cbn. rewrite HF.
    assert (Hk : bdim k kc = Some k).
    { destruct sp as [|y sp']; cbn in Hs1.
      - inversion Hs1; subst. apply bdim_refl.
      - destruct (bdim kc y) as [d|] eqn:Hd; try discriminate.
        destruct (broadcast_shape C sp'); inversion Hs1; subst.
        rewrite bdim_comm. exact (proj2 (bdim_absorb _ _ _ Hd)). }
    now rewrite Hk.
  - intros (k' & H). rewrite H in J.
    destruct (broadcast_shape (kc :: C) sp) as [a|] eqn:Hs1; [|discriminate].
    destruct (broadcast_shape N C) as [NC|] eqn:HNC;
      [|rewrite join_none_r in J; discriminate].
    assert (Ha : exists k S, a = k :: S).
    { destruct sp as [|y sp']; cbn in Hs1.
      - inversion Hs1; eauto.
      - destruct (bdim kc y); try discriminate.
        destruct (broadcast_shape C sp'); inversion Hs1; eauto. }
    destruct Ha as (k & S & ->). exists k, S, NC.
    split; trivial. split; trivial. cbn in J.
    destruct (bdim k kc); try discriminate.
    destruct (broadcast_shape S NC); inversion J. reflexivity.
Qed.

End BroadcastFacts.

(** ** Shapes of the distribution *)

Section Shapes.

Variable lgamma : num -> num.
Variable tol : R.

(** The probabilities derived from the one parameter that is given have its
    shape. *)
Lemma get_logits_and_prob_given (logits p : option tensor) (q : tensor)
    (flag : bool) (K : nat) (P : list nat) :
  Spec.given logits p q ->
  shape q = K :: P ->
  exists lp,
    distribution_util.get_logits_and_prob tol logits p flag = Ok lp /\
    shape (val (snd lp)) = K :: P.
Proof.
  intros [[-> ->]|[-> ->]] Hq; unfold distribution_util.get_logits_and_prob;
    unfold_ops.
  - erewrite reduce_sum_ok by (cbn; exact Hq). cbn [bind].
    unfold math_ops.div. erewrite op2_broadcast2_ok.
    2: { cbn. rewrite Hq. cbn.
         rewrite (bdim_comm K 1), bdim_1_l, broadcast_shape_refl. reflexivity. }
    cbn [bind]. eexists; split; reflexivity.
  - destruct flag.
    + erewrite reduce_sum_ok by (cbn; exact Hq). cbn [bind].
      eexists; split; [reflexivity | exact Hq].
    + eexists; split; [reflexivity | exact Hq].
Qed.

(** The shapes of the attributes [__init__] sets. *)
Lemma init_shapes (n : tensor) (logits p : option tensor) (va an : option bool)
    (d : Multinomial.t) :
  Multinomial.__init__ tol n logits p va an = Ok d ->
  exists K B,
    shape (val (Multinomial._mean_val d)) = K :: B /\
    shape (val (Multinomial._broadcast_shape d)) = B /\
    broadcast_shape (1%nat :: shape n) (shape (val (Multinomial.p d)))
      = Some (K :: B) /\
    shape (val (Multinomial.n d)) = shape n.
Proof.
  intros H. destruct (init_inv _ _ _ _ _ _ _ H)
    as (lp & prod & total & _ & Hprod & Htotal & _ & HP & HN & HM & HB & _).
  destruct (op2_broadcast2_inv _ _ _ _ Hprod) as (s & Hs & Hprod').
  destruct (reduce_sum_inv _ _ Htotal) as (K & B & HKB & Htotal').
  rewrite Hprod' in HKB. cbn in HKB. subst s.
  exists K, B. unfold Multinomial.p, Multinomial.n. rewrite HM, HB, HP, HN.
  split; [rewrite Hprod'; reflexivity|]. split; [rewrite Htotal'; reflexivity|].
  split; [exact Hs | reflexivity].
Qed.

(** X1: when one of [logits] and [p] is given, with class axis of length [K]
    and batch axes [P], the constructor succeeds exactly when the shape of
    [n] broadcasts against [P]: then the mean has the class axis [K] and the
    broadcast batch axes; otherwise the construction raises a shape error. *)
Theorem constructor_shapes (n : tensor) (logits p : option tensor)
    (q : tensor) (K : nat) (P : list nat) (va an : option bool) :
  Spec.given logits p q ->
  shape q = K :: P ->
  match broadcast_shape (shape n) P with
  | Some B =>
      exists d,
        Multinomial.__init__ tol n logits p va an = Ok d /\
        shape (val (Multinomial.mean d)) = K :: B
  | None => Multinomial.__init__ tol n logits p va an = Raise ShapeError
  end.
Proof.
  intros Hg Hq. unfold Multinomial.__init__.
  set (flag := match va with
               | Some b => b
               | None => Multinomial.default_validate_args
               end).
  destruct (get_logits_and_prob_given logits p q flag K P Hg Hq)
    as (lp & Hlp & Hs).
  rewrite Hlp. cbn [bind]. unfold math_ops.mul.
  destruct (broadcast_shape (shape n) P) as [B|] eqn:HB.
  - erewrite op2_broadcast2_ok.
    2: { unfold_ops. cbn. rewrite Hs. cbn. rewrite bdim_1_l, HB. reflexivity. }
    cbn [bind]. erewrite reduce_sum_ok by reflexivity. cbn [bind].
    eexists. split; reflexivity.
  - unfold op2, broadcast2. unfold_ops. cbn. rewrite Hs. cbn.
    rewrite bdim_1_l, HB. reflexivity.
Qed.

(** X2: for every constructed distribution, the static event shape is the
    one class axis of the mean, which is the class axis of [p]; the static
    batch shape is the broadcast of the shape of [n] with the batch axes of
    [p]; and the mean has the batch axes followed by the class axis, so that
    it has the one axis at least that [_get_event_shape] asks for. *)
Theorem batch_and_event_shape
    (n : tensor) (logits p : option tensor) (va an : option bool)
    (d : Multinomial.t) :
  Multinomial.__init__ tol n logits p va an = Ok d ->
  shape (val (Multinomial.mean d)) =
    Multinomial._get_event_shape d ++ Multinomial._get_batch_shape d /\
  Multinomial._get_event_shape d =
    [hd 1%nat (shape (val (Multinomial.p d)))] /\
  broadcast_shape (shape n) (tl (shape (val (Multinomial.p d))))
    = Some (Multinomial._get_batch_shape d).
Proof.
  intros H. destruct (init_shapes _ _ _ _ _ _ H) as (K & B & HM & HB & Hs & _).
  destruct (broadcast_shape_tail _ _ _ _ Hs) as [Ht Hk].
  unfold Multinomial._get_event_shape, Multinomial._get_batch_shape.
  change (val (Multinomial.mean d)) with (val (Multinomial._mean_val d)).
  rewrite HM, HB. cbn. rewrite <- Hk. auto.
Qed.

Lemma index_of_INR (k : nat) : index_of (Fin (INR k)) = Some k.
Proof.
  unfold index_of. rewrite Int_part_INR, <- INR_IZR_INZ, Nat2Z.id.
  destruct (Req_dec_T (INR k) (INR k)) as [_|E]; [|now destruct E].
  destruct (Rle_dec 0 (INR k)) as [_|E]; trivial. destruct E. apply pos_INR.
Qed.

(** X3: for every constructed distribution, the shapes computed in the graph
    are the static ones: [_batch_shape] evaluates to the vector of the axis
    lengths of the static batch shape (in Python's order, outermost axis
    first), and [_event_shape] is built without
    error and evaluates to the one-element vector of the static event shape;
    the position it gathers is always in range, so it fails only if the mean
    it reads fails. *)
Theorem dynamic_shapes_agree
    (n : tensor) (logits p : option tensor) (va an : option bool)
    (d : Multinomial.t) :
  Multinomial.__init__ tol n logits p va an = Ok d ->
  val (Multinomial._batch_shape d) =
    Spec.nat_vector (rev (Multinomial._get_batch_shape d)) /\
  exists e,
    Multinomial._event_shape d = Ok e /\
    tensor_eq (val e) (Spec.nat_vector (Multinomial._get_event_shape d)) /\
    forall m, run e (Fails m) -> run (Multinomial._mean_val d) (Fails m).
Proof.
  intros H. destruct (init_shapes _ _ _ _ _ _ H) as (K & B & HM & _).
  split; [reflexivity|].
  unfold Multinomial._event_shape, Multinomial._get_event_shape, math_ops.sub.
  erewrite op2_broadcast2_ok by reflexivity. cbn [bind].
  unfold array_ops.pack, pack.
  cbn [map val forallb]. rewrite shape_eqb_refl. cbn [andb bind].
  unfold array_ops.gather, gather, array_ops.shape, array_ops.rank, op1,
    shape_tensor, rank, vector, scalar, constant.
  cbn [val shape failed]. rewrite HM.
  cbn [bind length app removelast firstn rev].
  set (f := fun d0 : nat => Fin (INR d0)).
  assert (Hidx : index_of (nsub (Fin (INR (S (length B)))) (Fin 1))
                 = Some (length B)).
  { cbn [nsub nneg nadd]. rewrite S_INR.
    replace (INR (length B) + 1 + - (1)) with (INR (length B)) by ring.
    apply index_of_INR. }
  assert (Hlast : nth (length B) (map f (rev B ++ [K])) NaN = Fin (INR K)).
  { rewrite map_app, app_nth2; rewrite length_map, length_rev; [|lia].
    now rewrite Nat.sub_diag. }
  eexists. split; [reflexivity|]. split.
  - split; [reflexivity|]. intros idx Hv. cbn [val shape app] in Hv.
    destruct (valid_index_vector _ _ Hv) as (j & -> & Hj).
    replace j with 0%nat by lia.
    cbn [val get skipn length last removelast nth bindex app hd
         Spec.nat_vector vector map firstn].
    rewrite Hidx. cbn [hd]. exact Hlast.
  - intros m. cbn [run failed]. rewrite Assert_in.
    intros [(x & [<-|[<-|[]]] & Hx)|[Hc _]].
    + exact Hx.
    + cbn [failed flat_map] in Hx. rewrite !in_app_iff in Hx. cbn in Hx. tauto.
    + exfalso. unfold gather_in_range in Hc. apply all_elements_false in Hc.
      destruct Hc as (idx & Hv & Hc). cbn [val shape app] in Hv.
      destruct (valid_index_vector _ _ Hv) as (j & -> & Hj).
      replace j with 0%nat in Hc by lia.
      cbn [val get last removelast nth bindex shape] in Hc.
      rewrite Hidx in Hc.
      rewrite length_map, length_app, length_rev in Hc. cbn [length last] in Hc.
      apply Nat.ltb_ge in Hc. lia.
Qed.

(** X4: for every constructed distribution, [log_prob(counts)] is built
    exactly when [counts] has a class axis and its shape broadcasts against
    the shape of the mean (batch axes, then classes); the result then has
    the broadcast of the batch axes of [counts] with the batch shape of the
    distribution.  Otherwise a shape error is raised. *)
Theorem log_prob_shape
    (n : tensor) (logits p : option tensor) (va an : option bool)
    (d : Multinomial.t) (counts : tensor) :
  Multinomial.__init__ tol n logits p va an = Ok d ->
  match Multinomial.log_prob lgamma d counts with
  | Ok lp =>
      exists kc C k,
        shape counts = kc :: C /\
        broadcast_shape (shape counts) (shape (val (Multinomial.mean d)))
          = Some (k :: shape (val lp)) /\
        broadcast_shape C (Multinomial._get_batch_shape d)
          = Some (shape (val lp))
  | Raise e =>
      e = ShapeError /\
      (shape counts = [] \/
       broadcast_shape (shape counts) (shape (val (Multinomial.mean d)))
         = None)
  end.
Proof.
  intros H. destruct (init_shapes _ _ _ _ _ _ H) as (Ke & B & HM & HB & Hs & HN).
  change (val (Multinomial.mean d)) with (val (Multinomial._mean_val d)).
  unfold Multinomial._get_batch_shape. rewrite HM, HB.
  unfold Multinomial.log_prob.
  destruct (Multinomial._log_prob lgamma d (constant counts)) as [lp|e] eqn:Hlp.
  - destruct (log_prob_inv _ _ _ _ Hlp)
      as (kc & C & k & S & NC & HC & Hs1 & HNC & HF & _).
    cbn [val constant] in HC. rewrite HN in HNC.
    destruct (proj1 (log_prob_shapes _ _ C _ kc _ (shape (val lp)) Hs))
      as (k' & Hk'); [now exists k, S, NC|].
    exists kc, C, k'. rewrite HC. split; trivial. split; trivial.
    cbn in Hk'. destruct (bdim kc Ke); try discriminate.
    destruct (broadcast_shape C B); now inversion Hk'.
  - split; [now apply log_prob_raise in Hlp|].
    destruct (shape counts) as [|kc C] eqn:HC; [now left | right].
    destruct (broadcast_shape (kc :: C) (Ke :: B)) as [s|] eqn:Hb; trivial.
    exfalso.
    assert (Hs' : exists k F, s = k :: F).
    { cbn in Hb. destruct (bdim kc Ke); try discriminate.
      destruct (broadcast_shape C B); inversion Hb; eauto. }
    destruct Hs' as (k' & F & ->).
    destruct (proj2 (log_prob_shapes _ _ C _ kc _ F Hs))
      as (k & S & NC & Hs1 & HNC & HF); [now exists k'|].
    rewrite <- HN in HNC.
    destruct (log_prob_ok lgamma d (constant counts) _ _ _ _ _ _
                HC Hs1 HNC HF) as (lp & Hlp').
    congruence.
Qed.

End Shapes.

(** ** Validation and values *)

Section ValidationAndValues.

Variable lgamma : num -> num.
Variable tol : R.

Lemma op2_failed (f : tensor -> tensor -> result tensor) (x y r : node) :
  op2 f x y = Ok r -> failed r = failed x ++ failed y.
Proof.
  unfold op2. intros H. apply bind_ok in H. destruct H as (t & _ & H).
  now inversion H.
Qed.

Lemma op1r_failed (f : tensor -> result tensor) (x r : node) :
  op1r f x = Ok r -> failed r = failed x.
Proof.
  unfold op1r. intros H. apply bind_ok in H. destruct H as (t & _ & H).
  now inversion H.
Qed.

(** Without validation the same probabilities are derived, and they carry no
    assertion. *)
Lemma get_logits_and_prob_unvalidated (logits p : option tensor) (flag : bool)
    (lp : node * node) :
  distribution_util.get_logits_and_prob tol logits p flag = Ok lp ->
  exists lp',
    distribution_util.get_logits_and_prob tol logits p false = Ok lp' /\
    val (snd lp') = val (snd lp) /\
    failed (snd lp') = [].
Proof.
  unfold distribution_util.get_logits_and_prob.
  destruct logits as [l|], p as [p0|]; try discriminate.
  - intros H. exists lp. split; [exact H|]. split; trivial.
    apply bind_ok in H. destruct H as (total & Ht & H).
    apply bind_ok in H. destruct H as (q & Hq & H). inversion H; subst lp.
    apply op1r_failed in Ht. apply op2_failed in Hq. cbn [snd].
    rewrite Hq. unfold_ops. cbn [failed op1]. rewrite Ht. reflexivity.
  - destruct flag; intros H.
    + apply bind_ok in H. destruct H as (total & _ & H). inversion H; subst lp.
      eexists. split; [reflexivity|]. split; reflexivity.
    + inversion H; subst lp. eexists. split; [reflexivity|]. split; reflexivity.
Qed.

(** A distribution that is constructed is also constructed without
    validation, with the same values and no assertion. *)
Lemma init_unvalidated (n : tensor) (logits p : option tensor)
    (va an an' : option bool) (d : Multinomial.t) :
  Multinomial.__init__ tol n logits p va an = Ok d ->
  exists d',
    Multinomial.__init__ tol n logits p (Some false) an' = Ok d' /\
    val (Multinomial.n d') = val (Multinomial.n d) /\
    val (Multinomial.p d') = val (Multinomial.p d) /\
    val (Multinomial._mean_val d') = val (Multinomial._mean_val d) /\
    failed (Multinomial.n d') = [] /\
    failed (Multinomial.p d') = [] /\
    failed (Multinomial._mean_val d') = [] /\
    Multinomial.validate_args d' = false.
Proof.
  intros H. destruct (init_inv _ _ _ _ _ _ _ H)
    as (lp & prod & total & Hlp & Hprod & Htotal & _ & HP & HN & HM & _).
  destruct (get_logits_and_prob_unvalidated _ _ _ _ Hlp)
    as (lp' & Hlp' & Hval & Hfailed).
  destruct (op2_broadcast2_inv _ _ _ _ Hprod) as (s & Hs & Hprod').
  destruct (reduce_sum_inv _ _ Htotal) as (K & B & HKB & _).
  rewrite Hprod' in HKB. cbn in HKB. subst s.
  unfold Multinomial.__init__. rewrite Hlp'. cbn [bind]. unfold math_ops.mul.
  erewrite op2_broadcast2_ok by (rewrite Hval; exact Hs). cbn [bind].
  erewrite reduce_sum_ok by reflexivity. cbn [bind].
  eexists. split; [reflexivity|].
  unfold Multinomial.n, Multinomial.p. rewrite HN, HP, HM, Hprod'.
  cbn [Multinomial._n Multinomial._p Multinomial._mean_val
       Multinomial.validate_args snd].
  split; [reflexivity|]. split; [exact Hval|]. split.
  { cbn [val control_dependencies with_dependencies]. now rewrite Hval. }
  split; [reflexivity|]. split; [exact Hfailed|]. split; [|reflexivity].
  cbn. now rewrite Hfailed.
Qed.

(** [log_prob] depends on the distribution through the values of [n] and
    [p] only. *)
Lemma log_prob_same_value (d d' : Multinomial.t) (counts : node) :
  val (Multinomial.n d') = val (Multinomial.n d) ->
  val (Multinomial.p d') = val (Multinomial.p d) ->
  Spec.same_value (Multinomial._log_prob lgamma d' counts)
                  (Multinomial._log_prob lgamma d counts).
Proof.
  intros Hn Hp. unfold Spec.same_value.
  destruct (Multinomial._log_prob lgamma d' counts) as [a|e] eqn:Ha;
    destruct (Multinomial._log_prob lgamma d counts) as [b|e'] eqn:Hb.
  - destruct (log_prob_inv _ _ _ _ Ha)
      as (kc & C & k & S & NC & HC & Hs1 & HNC & HF & Hget).
    destruct (log_prob_inv _ _ _ _ Hb)
      as (kc' & C' & k' & S' & NC' & HC' & Hs1' & HNC' & HF' & Hget').
    rewrite HC in HC'. inversion HC'; subst kc' C'; clear HC'.
    rewrite Hp, Hs1' in Hs1. inversion Hs1; subst k' S'; clear Hs1.
    rewrite Hn, HNC' in HNC. inversion HNC; subst NC'; clear HNC.
    rewrite HF' in HF. inversion HF as [Hshape].
    split; [now symmetry|]. intros idx _. rewrite Hget, Hget', Hn, Hp.
    reflexivity.
  - destruct (log_prob_inv _ _ _ _ Ha)
      as (kc & C & k & S & NC & HC & Hs1 & HNC & HF & _).
    rewrite Hp in Hs1. rewrite Hn in HNC.
    destruct (log_prob_ok lgamma d counts _ _ _ _ _ _ HC Hs1 HNC HF)
      as (lp & Hlp).
    congruence.
  - destruct (log_prob_inv _ _ _ _ Hb)
      as (kc & C & k & S & NC & HC & Hs1 & HNC & HF & _).
    rewrite <- Hp in Hs1. rewrite <- Hn in HNC.
    destruct (log_prob_ok lgamma d' counts _ _ _ _ _ _ HC Hs1 HNC HF)
      as (lp & Hlp).
    congruence.
  - apply log_prob_raise in Ha. apply log_prob_raise in Hb. congruence.
Qed.

(** Which assertions the covariance carries. *)
Lemma variance_failed (d : Multinomial.t) (v : node) :
  Multinomial._variance d = Ok v ->
  forall m,
    In m (failed v) <->
    In m (failed (Multinomial.p d)) \/ In m (failed (Multinomial.n d)) \/
    In m (failed (Multinomial._mean_val d)).
Proof.
  unfold Multinomial._variance, math_ops.mul, math_ops.sub. unfold_ops.
  intros H.
  apply bind_ok in H. destruct H as (q & Hq & H).
  apply bind_ok in H. destruct H as (row & Hrow & H).
  apply bind_ok in H. destruct H as (outer & Houter & H).
  apply bind_ok in H. destruct H as (scaled & Hscaled & H).
  apply bind_ok in H. destruct H as (diagonal & Hdiag & H).
  apply op2_failed in Hq, Houter, Hscaled, Hdiag, H.
  apply op1r_failed in Hrow.
  intros m. rewrite H. cbn [failed math_ops.neg op1].
  rewrite Houter, Hdiag, Hscaled, Hrow, Hq. cbn [failed op1].
  rewrite !in_app_iff. tauto.
Qed.

(** The covariance of a constructed distribution. *)
Lemma init_variance (n : tensor) (logits p : option tensor)
    (va an : option bool) (d : Multinomial.t) :
  Multinomial.__init__ tol n logits p va an = Ok d ->
  exists v K B,
    Multinomial._variance d = Ok v /\
    shape (val (Multinomial._mean_val d)) = K :: B /\
    broadcast_shape (1%nat :: shape n) (shape (val (Multinomial.p d)))
      = Some (K :: B) /\
    shape (val v) = K :: K :: B /\
    forall i j b,
      valid_index (K :: K :: B) (j :: i :: b) ->
      let m := val (Multinomial._mean_val d) in
      let pd := val (Multinomial.p d) in
      get (val v) (j :: i :: b) =
      if (i =? j)%nat then
        nsub (get m (i :: b))
             (nmul (get m (i :: b))
                   (nmul (get pd (bindex (shape pd) (i :: b))) (Fin 1)))
      else
        nneg (nmul (get m (i :: b))
                   (nmul (get pd (bindex (shape pd) (j :: b))) (Fin 1))).
Proof.
  intros H. destruct (init_shapes _ _ _ _ _ _ _ H) as (K & B & HM & _ & Hs & HN).
  assert (Hbs : broadcast_shape (shape (val (Multinomial.p d)))
                  (1%nat :: shape (val (Multinomial.n d))) = Some (K :: B))
    by (rewrite HN, broadcast_shape_comm; exact Hs).
  destruct (variance_inv d K B HM Hbs) as (v & Hv & Hvs & Hget).
  exists v, K, B. auto.
Qed.

(** X5: the assertions never change a value.  A distribution that is
    constructed is also constructed with [validate_args=False], and the two
    have the same mean, and the same [log_prob], [prob] and covariance: the
    same exception, or tensors of the same shape with the same entries. *)
Theorem validation_does_not_change_values
    (n : tensor) (logits p : option tensor) (va an an' : option bool)
    (d : Multinomial.t) (counts : tensor) :
  Multinomial.__init__ tol n logits p va an = Ok d ->
  exists d',
    Multinomial.__init__ tol n logits p (Some false) an' = Ok d' /\
    val (Multinomial.mean d') = val (Multinomial.mean d) /\
    Spec.same_value (Multinomial.log_prob lgamma d' counts)
                    (Multinomial.log_prob lgamma d counts) /\
    Spec.same_value (Multinomial.prob lgamma d' counts)
                    (Multinomial.prob lgamma d counts) /\
    Spec.same_value (Multinomial.variance d') (Multinomial.variance d).
Proof.
  intros H. destruct (init_unvalidated n logits p va an an' d H)
    as (d' & Hd' & Hn & Hp & Hm & _).
  exists d'. split; [exact Hd'|]. split; [exact Hm|].
  pose proof (log_prob_same_value d d' (constant counts) Hn Hp) as Hlp.
  split; [exact Hlp|]. split.
  - unfold Multinomial.prob, Multinomial._prob. unfold Spec.same_value in *.
    destruct (Multinomial._log_prob lgamma d' (constant counts)) as [a|e];
      destruct (Multinomial._log_prob lgamma d (constant counts)) as [b|e'];
      cbn [bind]; trivial.
    destruct Hlp as [Hshape Hget]. split; [exact Hshape|].
    intros idx Hv. cbn. f_equal. now apply Hget.
  - unfold Multinomial.variance.
    destruct (init_variance _ _ _ _ _ _ H)
      as (v & K & B & Hv & HM & _ & Hvs & Hget).
    destruct (init_variance _ _ _ _ _ _ Hd')
      as (v' & K' & B' & Hv' & HM' & _ & Hvs' & Hget').
    rewrite Hm, HM in HM'. inversion HM'; subst K' B'.
    rewrite Hv, Hv'. split; [now rewrite Hvs, Hvs'|].
    intros idx Hidx. rewrite Hvs' in Hidx.
    destruct idx as [|j [|i b]]; try (cbn in Hidx; tauto).
    rewrite (Hget i j b Hidx), (Hget' i j b Hidx). cbv zeta.
    now rewrite Hm, Hp.
Qed.

(** X6: a distribution constructed with [validate_args=False] carries no
    assertion at all: [n], [p] and the mean evaluate to their values, and
    neither the covariance nor [log_prob] nor [prob] of any counts can fail
    when evaluated, whatever the values of [n], [p] and [counts] are. *)
Theorem unvalidated_never_fails
    (n : tensor) (logits p : option tensor) (an : option bool)
    (d : Multinomial.t) (counts : tensor) :
  Multinomial.__init__ tol n logits p (Some false) an = Ok d ->
  run (Multinomial.n d) (Returns n) /\
  run (Multinomial.p d) (Returns (val (Multinomial.p d))) /\
  run (Multinomial.mean d) (Returns (val (Multinomial.mean d))) /\
  (forall v, Multinomial.variance d = Ok v -> run v (Returns (val v))) /\
  (forall lp, Multinomial.log_prob lgamma d counts = Ok lp ->
              run lp (Returns (val lp))) /\
  (forall pr, Multinomial.prob lgamma d counts = Ok pr ->
              run pr (Returns (val pr))).
Proof.
  intros H. destruct (init_unvalidated n logits p _ an an d H)
    as (d' & Hd' & _ & _ & _ & Hfn & Hfp & Hfm & Hflag).
  rewrite H in Hd'. inversion Hd'; subst d'. clear Hd'.
  assert (Hlp : forall lp, Multinomial.log_prob lgamma d counts = Ok lp ->
                           failed lp = []).
  { intros lp Hlp. apply no_element_nil. intros m Hm.
    destruct (log_prob_failed _ _ _ _ Hlp) as (c & Hc & Hfailed).
    apply Hfailed in Hm. rewrite Hfn, Hfp in Hm.
    unfold Multinomial._assert_valid_sample in Hc. rewrite Hflag in Hc.
    inversion Hc; subst c. cbn in Hm. tauto. }
  split.
  { split; [exact Hfn|].
    destruct (init_inv _ _ _ _ _ _ _ H)
      as (? & ? & ? & _ & _ & _ & _ & _ & HN & _).
    unfold Multinomial.n. now rewrite HN. }
  split; [now split|]. split; [now split|]. split; [|split].
  - intros v Hv. split; trivial. apply no_element_nil. intros m Hm.
    apply (variance_failed _ _ Hv) in Hm. rewrite Hfn, Hfp, Hfm in Hm.
    cbn in Hm. tauto.
  - intros lp Hl. split; auto.
  - intros pr Hpr. split; trivial.
    unfold Multinomial.prob, Multinomial._prob in Hpr.
    apply bind_ok in Hpr. destruct Hpr as (lp & Hl & Hpr).
    inversion Hpr; subst pr. cbn. now apply Hlp.
Qed.

(** X7: the covariance of a constructed distribution is always built: it
    has the batch axes of the mean followed by two class axes.  The mean
    fails exactly on the assertions carried by [n] and [p], and the
    covariance fails exactly when the mean does. *)
Theorem moments_fail_with_parameters
    (n : tensor) (logits p : option tensor) (va an : option bool)
    (d : Multinomial.t) :
  Multinomial.__init__ tol n logits p va an = Ok d ->
  (forall m, run (Multinomial.mean d) (Fails m) <->
             In m (failed (Multinomial.n d)) \/
             In m (failed (Multinomial.p d))) /\
  exists v K B,
    Multinomial.variance d = Ok v /\
    shape (val (Multinomial.mean d)) = K :: B /\
    shape (val v) = K :: K :: B /\
    forall m, run v (Fails m) <-> run (Multinomial.mean d) (Fails m).
Proof.
  intros H.
  assert (Hmean : forall m,
            In m (failed (Multinomial._mean_val d)) <->
            In m (failed (Multinomial.n d)) \/
            In m (failed (Multinomial.p d))).
  { destruct (init_inv _ _ _ _ _ _ _ H)
      as (lp & prod & total & _ & Hprod & _ & _ & HP & HN & HM & _).
    apply op2_failed in Hprod. intros m.
    unfold Multinomial.n, Multinomial.p. rewrite HM, HN, HP.
    cbn [failed control_dependencies with_dependencies]. rewrite Hprod.
    unfold_ops. cbn [failed control_dependencies with_dependencies op1 constant].
    rewrite !in_app_iff. cbn [In]. tauto. }
  split; [exact Hmean|].
  destruct (init_variance _ _ _ _ _ _ H) as (v & K & B & Hv & HM & _ & Hvs & _).
  exists v, K, B. split; [exact Hv|]. split; [exact HM|]. split; [exact Hvs|].
  intros m. cbn [run]. rewrite (variance_failed _ _ Hv m).
  change (failed (Multinomial.mean d)) with (failed (Multinomial._mean_val d)).
  rewrite (Hmean m). tauto.
Qed.

End ValidationAndValues.

(** ** The moments on real parameters *)

Section MomentValues.

Variable tol : R.

Lemma Rsum_minus {A : Type} (f g : A -> R) (l : list A) :
  Spec.Rsum (map (fun a => f a - g a) l) =
  Spec.Rsum (map f l) - Spec.Rsum (map g l).
Proof.
  induction l as [|a l IH]; unfold Spec.Rsum in *; cbn [map fold_right];
    [ring|].
  rewrite IH. ring.
Qed.

(** The indicator of one position, summed over a range. *)
Lemma Rsum_indicator (i s K : nat) :
  Spec.Rsum (map (fun j => if (i =? j)%nat then 1 else 0) (seq s K)) =
  if ((s <=? i) && (i <? s + K))%nat then 1 else 0.
Proof.
  revert s; induction K as [|K IH]; intros s.
  - cbn [seq map].
    destruct (Nat.leb_spec s i), (Nat.ltb_spec i (s + 0)); cbn [andb];
      try reflexivity; lia.
  - cbn [seq map].
    change (Spec.Rsum ((if (i =? s)%nat then 1 else 0)
                       :: map (fun j => if (i =? j)%nat then 1 else 0)
                            (seq (S s) K)))
      with ((if (i =? s)%nat then 1 else 0)
            + Spec.Rsum (map (fun j => if (i =? j)%nat then 1 else 0)
                             (seq (S s) K))).
    rewrite IH.
    destruct (Nat.eqb_spec i s), (Nat.leb_spec s i), (Nat.leb_spec (S s) i),
      (Nat.ltb_spec i (S s + K)), (Nat.ltb_spec i (s + S K));
      cbn [andb]; try lia; ring.
Qed.

(** The real parameters read for a position of the mean. *)
Lemma init_real (n : tensor) (logits p : option tensor) (va an : option bool)
    (d : Multinomial.t) :
  Multinomial.__init__ tol n logits p va an = Ok d ->
  Spec.finite n ->
  Spec.finite (val (Multinomial.p d)) ->
  exists K B,
    shape (val (Multinomial._mean_val d)) = K :: B /\
    shape (val (Multinomial._broadcast_shape d)) = B /\
    forall b, valid_index B b ->
      let pd := val (Multinomial.p d) in
      (forall c, (c < K)%nat ->
         get (val (Multinomial._mean_val d)) (c :: b) =
         Fin (Spec.to_R (get n (bindex (shape n) b))
              * Spec.to_R (get pd (bindex (shape pd) (c :: b)))) /\
         valid_index (shape pd) (bindex (shape pd) (c :: b))) /\
      valid_index (shape n) (bindex (shape n) b) /\
      get (val (Multinomial._broadcast_shape d)) b =
      nsum (map (fun j => get (val (Multinomial._mean_val d)) (j :: b))
                (seq 0 K)).
Proof.
  intros H Hn Hp. destruct (init_inv _ _ _ _ _ _ _ H)
    as (lp & prod & total & Hlp & Hprod & Htotal & _ & HP & HN & HM & HB & _).
  destruct (op2_broadcast2_inv _ _ _ _ Hprod) as (s & Hs & Hprod').
  destruct (reduce_sum_inv _ _ Htotal) as (K & B & HKB & Htotal').
  rewrite Hprod' in HKB. cbn in HKB. subst s.
  change (broadcast_shape (1%nat :: shape n) (shape (val (snd lp)))
          = Some (K :: B)) in Hs.
  exists K, B. split; [rewrite HM, Hprod'; reflexivity|].
  split; [rewrite HB, Htotal'; reflexivity|].
  intros b Hb pd.
  assert (Hvn : valid_index (shape n) (bindex (shape n) b)).
  { destruct (broadcast_shape_tail _ _ _ _ Hs) as [Ht _].
    exact (valid_bindex_l _ _ _ _ Ht Hb). }
  split; [|split; [exact Hvn|]].
  - intros c Hc.
    assert (Hvp : valid_index (shape pd) (bindex (shape pd) (c :: b))).
    { unfold pd, Multinomial.p. rewrite HP.
      apply (valid_bindex_r _ _ _ _ Hs). split; trivial. }
    split; [|exact Hvp].
    pose proof (is_fin_to_R _ (Hn _ Hvn)) as En.
    pose proof (is_fin_to_R _ (Hp _ Hvp)) as Ep. fold pd in Ep.
    rewrite HM, Hprod'. unfold_ops.
    cbn [val get op1 constant expand_dims_last shape bindex tl
         control_dependencies with_dependencies].
    change (val (snd lp)) with (val (Multinomial._p d)) || rewrite <- HP.
    change (val (Multinomial._p d)) with pd.
    rewrite En, Ep. reflexivity.
  - rewrite HB, Htotal', HM. reflexivity.
Qed.

(** X8: for real parameters, the mean summed over the classes of a batch
    element, which is what the constructor stores as [_broadcast_shape], is
    the trial count of that batch element times the sum of its
    probabilities; it is the trial count itself when they sum to 1. *)
Theorem mean_sums_to_n
    (n : tensor) (logits p : option tensor) (va an : option bool)
    (d : Multinomial.t) :
  Multinomial.__init__ tol n logits p va an = Ok d ->
  Spec.finite n ->
  Spec.finite (val (Multinomial.p d)) ->
  exists K B,
    shape (val (Multinomial.mean d)) = K :: B /\
    Multinomial._get_batch_shape d = B /\
    forall b, valid_index B b ->
      let pd := val (Multinomial.p d) in
      let nb := Spec.to_R (get n (bindex (shape n) b)) in
      let total :=
        Spec.Rsum (map (fun j => Spec.to_R (get pd (bindex (shape pd) (j :: b))))
                       (seq 0 K)) in
      nsum (map (fun j => get (val (Multinomial.mean d)) (j :: b)) (seq 0 K))
        = Fin (nb * total) /\
      get (val (Multinomial._broadcast_shape d)) b = Fin (nb * total) /\
      (total = 1 ->
       get (val (Multinomial._broadcast_shape d)) b
         = get n (bindex (shape n) b)).
Proof.
  intros H Hn Hp. destruct (init_real _ _ _ _ _ _ H Hn Hp)
    as (K & B & HM & HB & Hb).
  exists K, B. split; [exact HM|]. split; [exact HB|].
  intros b Hv pd nb total. destruct (Hb b Hv) as (Hget & Hvn & Hsum).
  change (val (Multinomial.mean d)) with (val (Multinomial._mean_val d)).
  assert (E : nsum (map (fun j => get (val (Multinomial._mean_val d)) (j :: b))
                        (seq 0 K)) = Fin (nb * total)).
  { unfold total. rewrite <- Rsum_scale. apply nsum_map_fin.
    intros j Hj. apply in_seq in Hj. apply Hget. lia. }
  split; [exact E|]. split; [now rewrite Hsum|].
  intros Ht. rewrite Hsum, E, Ht, Rmult_1_r. unfold nb.
  symmetry. apply is_fin_to_R. now apply Hn.
Qed.

(** The entries of the covariance on real parameters, diagonal or not. *)
Lemma variance_real
    (n : tensor) (logits p : option tensor) (va an : option bool)
    (d : Multinomial.t) :
  Multinomial.__init__ tol n logits p va an = Ok d ->
  Spec.finite n ->
  Spec.finite (val (Multinomial.p d)) ->
  exists v K B,
    Multinomial.variance d = Ok v /\
    shape (val (Multinomial.mean d)) = K :: B /\
    shape (val v) = K :: K :: B /\
    forall i j b,
      valid_index (K :: K :: B) (j :: i :: b) ->
      let pd := val (Multinomial.p d) in
      valid_index (shape n) (bindex (shape n) b) /\
      valid_index (shape pd) (bindex (shape pd) (i :: b)) /\
      valid_index (shape pd) (bindex (shape pd) (j :: b)) /\
      get (val v) (j :: i :: b) =
      Fin (Spec.to_R (get n (bindex (shape n) b))
           * Spec.to_R (get pd (bindex (shape pd) (i :: b)))
           * ((if (i =? j)%nat then 1 else 0)
              - Spec.to_R (get pd (bindex (shape pd) (j :: b))))).
Proof.
  intros H Hn Hp.
  destruct (init_variance _ _ _ _ _ _ _ H)
    as (v & K & B & Hv & HM & _ & Hvs & Hget).
  destruct (init_real _ _ _ _ _ _ H Hn Hp) as (K' & B' & HM' & _ & Hb).
  rewrite HM in HM'. inversion HM'; subst K' B'; clear HM'.
  exists v, K, B. split; [exact Hv|]. split; [exact HM|]. split; [exact Hvs|].
  intros i j b Hidx pd. rewrite (Hget i j b Hidx). cbv zeta.
  cbn in Hidx. destruct Hidx as (Hj & Hi & Hvb).
  destruct (Hb b Hvb) as (Hm & Hvn & _).
  destruct (Hm i Hi) as [Emi Hvi]. destruct (Hm j Hj) as [_ Hvj].
  split; [exact Hvn|]. split; [exact Hvi|]. split; [exact Hvj|].
  rewrite Emi. subst pd.
  rewrite (is_fin_to_R _ (Hp _ Hvi)), (is_fin_to_R _ (Hp _ Hvj)).
  destruct (Nat.eqb_spec i j) as [->|_]; cbn; f_equal; ring.
Qed.

(** X9: for real parameters, the covariance matrix of every batch element
    is symmetric. *)
Theorem variance_is_symmetric
    (n : tensor) (logits p : option tensor) (va an : option bool)
    (d : Multinomial.t) :
  Multinomial.__init__ tol n logits p va an = Ok d ->
  Spec.finite n ->
  Spec.finite (val (Multinomial.p d)) ->
  exists v K B,
    Multinomial.variance d = Ok v /\
    shape (val v) = K :: K :: B /\
    forall i j b,
      valid_index (K :: K :: B) (j :: i :: b) ->
      get (val v) (j :: i :: b) = get (val v) (i :: j :: b).
Proof.
  intros H Hn Hp. destruct (variance_real _ _ _ _ _ _ H Hn Hp)
    as (v & K & B & Hv & _ & Hvs & Hget).
  exists v, K, B. split; [exact Hv|]. split; [exact Hvs|].
  intros i j b Hidx.
  assert (Hidx' : valid_index (K :: K :: B) (i :: j :: b))
    by (cbn in *; tauto).
  destruct (Hget i j b Hidx) as (_ & _ & _ & ->).
  destruct (Hget j i b Hidx') as (_ & _ & _ & ->).
  rewrite (Nat.eqb_sym j i).
  destruct (Nat.eqb_spec i j) as [->|_]; f_equal; ring.
Qed.

(** X10: for real parameters, when the probabilities of a batch element sum
    to 1, every row of its covariance matrix sums to 0: the counts of a draw
    have a fixed total. *)
Theorem variance_rows_sum_to_zero
    (n : tensor) (logits p : option tensor) (va an : option bool)
    (d : Multinomial.t) :
  Multinomial.__init__ tol n logits p va an = Ok d ->
  Spec.finite n ->
  Spec.finite (val (Multinomial.p d)) ->
  exists v K B,
    Multinomial.variance d = Ok v /\
    shape (val v) = K :: K :: B /\
    forall i b,
      valid_index (K :: B) (i :: b) ->
      let pd := val (Multinomial.p d) in
      Spec.Rsum (map (fun j => Spec.to_R (get pd (bindex (shape pd) (j :: b))))
                     (seq 0 K)) = 1 ->
      nsum (map (fun j => get (val v) (j :: i :: b)) (seq 0 K)) = Fin 0.
Proof.
  intros H Hn Hp. destruct (variance_real _ _ _ _ _ _ H Hn Hp)
    as (v & K & B & Hv & _ & Hvs & Hget).
  exists v, K, B. split; [exact Hv|]. split; [exact Hvs|].
  intros i b [Hi Hb] pd Hsum.
  rewrite (nsum_map_fin _
             (fun j => Spec.to_R (get n (bindex (shape n) b))
                       * Spec.to_R (get pd (bindex (shape pd) (i :: b)))
                       * ((if (i =? j)%nat then 1 else 0)
                          - Spec.to_R (get pd (bindex (shape pd) (j :: b)))))).
  - rewrite Rsum_scale, Rsum_minus, Hsum, Rsum_indicator.
    destruct (Nat.leb_spec 0 i), (Nat.ltb_spec i (0 + K)); cbn [andb];
      try lia.
    f_equal. ring.
  - intros j Hj. apply in_seq in Hj.
    assert (Hidx : valid_index (K :: K :: B) (j :: i :: b))
      by (cbn; repeat split; trivial; lia).
    now destruct (Hget i j b Hidx) as (_ & _ & _ & ->).
Qed.

(** X11: for non-negative trial counts and probabilities between 0 and 1,
    the diagonal of the covariance (the variances) is non-negative and every
    other entry is non-positive. *)
Theorem variance_signs
    (n : tensor) (logits p : option tensor) (va an : option bool)
    (d : Multinomial.t) :
  Multinomial.__init__ tol n logits p va an = Ok d ->
  (forall idx, valid_index (shape n) idx ->
     exists r, get n idx = Fin r /\ 0 <= r) ->
  (forall idx, valid_index (shape (val (Multinomial.p d))) idx ->
     exists r, get (val (Multinomial.p d)) idx = Fin r /\ 0 <= r <= 1) ->
  exists v K B,
    Multinomial.variance d = Ok v /\
    shape (val v) = K :: K :: B /\
    forall i j b,
      valid_index (K :: K :: B) (j :: i :: b) ->
      exists r,
        get (val v) (j :: i :: b) = Fin r /\
        (i = j -> 0 <= r) /\ (i <> j -> r <= 0).
Proof.
  intros H Hn Hp.
  assert (Hfn : Spec.finite n).
  { intros idx Hv. destruct (Hn idx Hv) as (r & -> & _). exact I. }
  assert (Hfp : Spec.finite (val (Multinomial.p d))).
  { intros idx Hv. destruct (Hp idx Hv) as (r & -> & _). exact I. }
  destruct (variance_real _ _ _ _ _ _ H Hfn Hfp)
    as (v & K & B & Hv & _ & Hvs & Hget).
  exists v, K, B. split; [exact Hv|]. split; [exact Hvs|].
  intros i j b Hidx.
  destruct (Hget i j b Hidx) as (Hvn & Hvi & Hvj & ->).
  destruct (Hn _ Hvn) as (rn & -> & Hrn).
  destruct (Hp _ Hvi) as (ri & -> & Hri).
  destruct (Hp _ Hvj) as (rj & -> & Hrj).
  cbn [Spec.to_R]. eexists. split; [reflexivity|].
  assert (0 <= rn * ri) by (apply Rmult_le_pos; lra).
  split.
  - intros ->. rewrite Nat.eqb_refl. apply Rmult_le_pos; lra.
  - intros Hne. destruct (Nat.eqb_spec i j) as [E|_]; [contradiction|].
    replace (rn * ri * (0 - rj)) with (- (rn * ri * rj)) by ring.
    assert (0 <= rn * ri * rj) by (apply Rmult_le_pos; lra). lra.
Qed.

End MomentValues.

(** ** Probabilities of particular draws *)

Section ParticularDraws.

Variable lgamma : num -> num.
Variable tol : R.

(** [prob] and [log_prob] of natural-number counts with total [n], for a
    scalar number of trials [n] and positive probabilities. *)
Lemma prob_real (n : nat) (p : list R) (c : list nat) (va an : option bool) :
  (forall k, k = n \/ In k c ->
             lgamma (Fin (INR k + 1)) = Fin (ln (INR (fact k)))) ->
  Forall (fun x => 0 < x) p ->
  Rabs (Spec.Rsum p - 1) < tol ->
  length c = length p ->
  list_sum c = n ->
  exists d lp pr x,
    Multinomial.__init__ tol (Spec.nat_scalar n) None
      (Some (Spec.real_vector p)) va an = Ok d /\
    Multinomial.log_prob lgamma d (Spec.nat_vector c) = Ok lp /\
    Multinomial.prob lgamma d (Spec.nat_vector c) = Ok pr /\
    failed lp = [] /\ failed pr = [] /\
    get (val lp) [] = Fin x /\
    exp x = Spec.pmf n p c /\
    get (val pr) [] = Fin (Spec.pmf n p c).
Proof.
  intros Hlg Hpos Hsum Hlen Htotal.
  destruct (init_real_vector tol n p va an)
    as (d & Hd & Hn & Hp & Hfn & Hfp); trivial.
  { eapply Forall_impl; [|exact Hpos]. intros x Hx. now apply Rlt_le. }
  destruct (log_prob_real lgamma d n p c Hn Hp Hlen Hpos Hlg)
    as (lp & Hlp & Hshape & Hget).
  assert (Hfailed : failed lp = [])
    by (apply (valid_sample_no_failure lgamma d n c lp); trivial).
  exists d, lp, (math_ops.exp lp). eexists.
  split; [exact Hd|]. split; [exact Hlp|]. split.
  { unfold Multinomial.prob, Multinomial._prob.
    unfold Multinomial.log_prob in Hlp. now rewrite Hlp. }
  split; [exact Hfailed|]. split; [exact Hfailed|]. split; [exact Hget|].
  split; [now apply exp_log_pmf|].
  cbn. rewrite Hget. cbn [nexp]. f_equal. now apply exp_log_pmf.
Qed.

Lemma Rabs_sum_one (p : list R) : 0 < tol -> Spec.Rsum p = 1 ->
  Rabs (Spec.Rsum p - 1) < tol.
Proof.
  intros Htol ->. replace (1 - 1) with 0 by ring. now rewrite Rabs_R0.
Qed.

Lemma Rprod_powers_pos (p : list R) (c : list nat) :
  Forall (fun x => 0 < x) p ->
  0 < Spec.Rprod (map (fun pk => fst pk ^ snd pk) (combine p c)).
Proof.
  intros Hp. revert c. induction Hp as [|x p Hx Hp IH]; intros c.
  - cbn. lra.
  - destruct c as [|k c]; [cbn; lra|].
    cbn [combine map fst snd].
    change (Spec.Rprod (?a :: ?l)) with (a * Spec.Rprod l).
    apply Rmult_lt_0_compat; [now apply pow_lt | apply IH].
Qed.

Lemma pmf_pos (n : nat) (p : list R) (c : list nat) :
  Forall (fun x => 0 < x) p -> 0 < Spec.pmf n p c.
Proof.
  intros Hp. unfold Spec.pmf. apply Rmult_lt_0_compat.
  - apply Rdiv_lt_0_compat; [apply INR_fact_lt_0 | apply Rprod_fact_pos].
  - now apply Rprod_powers_pos.
Qed.

Lemma Rsum_ge_element {A : Type} (f : A -> R) (l : list A) (a : A) :
  (forall x, In x l -> 0 <= f x) -> In a l -> f a <= Spec.Rsum (map f l).
Proof.
  induction l as [|y l IH]; intros Hpos Hin; [destruct Hin|].
  change (Spec.Rsum (map f (y :: l))) with (f y + Spec.Rsum (map f l)).
  assert (Hrest : 0 <= Spec.Rsum (map f l)).
  { clear IH Hin. induction l as [|z l IHl]; [cbn; lra|].
    change (Spec.Rsum (map f (z :: l))) with (f z + Spec.Rsum (map f l)).
    assert (0 <= f z) by (apply Hpos; cbn; auto).
    assert (0 <= Spec.Rsum (map f l))
      by (apply IHl; intros x Hx; apply Hpos; cbn in *; tauto).
    lra. }
  destruct Hin as [->|Hin].
  - lra.
  - assert (f a <= Spec.Rsum (map f l))
      by (apply IH; trivial; intros x Hx; apply Hpos; now right).
    assert (0 <= f y) by (apply Hpos; now left). lra.
Qed.

(** X12: the two-class multinomial is the binomial distribution.  With
    [p = [q, 1 - q]] and [n] trials, [prob([k, n - k])] evaluates, without
    failure, to [C(n, k) q^k (1 - q)^(n - k)]. *)
Theorem two_classes_are_binomial
    (n k : nat) (q : R) (va an : option bool) :
  (forall j, lgamma (Fin (INR j + 1)) = Fin (ln (INR (fact j)))) ->
  0 < tol ->
  0 < q < 1 ->
  (k <= n)%nat ->
  exists d pr,
    Multinomial.__init__ tol (Spec.nat_scalar n) None
      (Some (Spec.real_vector [q; 1 - q])) va an = Ok d /\
    Multinomial.prob lgamma d (Spec.nat_vector [k; (n - k)%nat]) = Ok pr /\
    run pr (Returns (val pr)) /\
    get (val pr) [] = Fin (C n k * q ^ k * (1 - q) ^ (n - k)).
Proof.
  intros Hlg Htol Hq Hk.
  destruct (prob_real n [q; 1 - q] [k; (n - k)%nat] va an)
    as (d & lp & pr & x & Hd & _ & Hpr & _ & Hfailed & _ & _ & Hget);
    trivial.
  { repeat constructor; lra. }
  { apply Rabs_sum_one; trivial. cbn. ring. }
  { cbn. lia. }
  exists d, pr. split; [exact Hd|]. split; [exact Hpr|].
  split; [now split|]. rewrite Hget. f_equal.
  rewrite (pmf_cons n k q [1 - q] [(n - k)%nat] Hk).
  rewrite (pmf_cons (n - k) (n - k) (1 - q) [] [] (le_n _)).
  rewrite Nat.sub_diag. unfold Spec.pmf, C. cbn [map combine Spec.Rprod fold_right fact INR].
  rewrite Nat.sub_diag. cbn [fact INR].
  pose proof (INR_fact_lt_0 (n - k)) as Hf.
  set (fnk := INR (fact (n - k))) in *.
  set (a := INR (fact n) / (INR (fact k) * fnk)).
  field. lra.
Qed.

(** X13: for positive probabilities summing to 1 and natural-number counts
    with total [n], [prob] evaluates to a real number in (0, 1], and
    [log_prob] to its logarithm, which is at most 0. *)
Theorem prob_is_a_probability
    (n : nat) (p : list R) (c : list nat) (va an : option bool) :
  (forall k, lgamma (Fin (INR k + 1)) = Fin (ln (INR (fact k)))) ->
  0 < tol ->
  Forall (fun x => 0 < x) p ->
  Spec.Rsum p = 1 ->
  length c = length p ->
  list_sum c = n ->
  exists d lp pr r,
    Multinomial.__init__ tol (Spec.nat_scalar n) None
      (Some (Spec.real_vector p)) va an = Ok d /\
    Multinomial.log_prob lgamma d (Spec.nat_vector c) = Ok lp /\
    Multinomial.prob lgamma d (Spec.nat_vector c) = Ok pr /\
    get (val pr) [] = Fin r /\ 0 < r <= 1 /\
    get (val lp) [] = Fin (ln r) /\ ln r <= 0.
Proof.
  intros Hlg Htol Hpos Hsum Hlen Htotal.
  destruct (prob_real n p c va an)
    as (d & lp & pr & x & Hd & Hlp & Hpr & _ & _ & Hx & Hexp & Hget);
    trivial.
  { now apply Rabs_sum_one. }
  assert (Hr : 0 < Spec.pmf n p c <= 1).
  { split; [now apply pmf_pos|].
    rewrite <- (pow1 n), <- Hsum, <- multinomial_theorem.
    apply Rsum_ge_element.
    - intros c' _. apply Rlt_le. now apply pmf_pos.
    - apply compositions_spec. now split. }
  exists d, lp, pr, (Spec.pmf n p c).
  split; [exact Hd|]. split; [exact Hlp|]. split; [exact Hpr|].
  split; [exact Hget|]. split; [exact Hr|].
  rewrite <- Hexp, ln_exp. split; [exact Hx|].
  destruct (Rle_lt_dec x 0) as [L|L]; trivial.
  apply exp_increasing in L. rewrite exp_0, Hexp in L. lra.
Qed.

Lemma one_hot_length (K j : nat) : length (Spec.one_hot K j) = K.
Proof.
  revert j; induction K as [|K IH]; intros [|j]; cbn; trivial.
  - now rewrite repeat_length.
  - now rewrite IH.
Qed.

Lemma list_sum_zeros (K : nat) : list_sum (repeat 0%nat K) = 0%nat.
Proof. induction K; cbn; auto. Qed.

Lemma one_hot_sum (K j : nat) :
  (j < K)%nat -> list_sum (Spec.one_hot K j) = 1%nat.
Proof.
  revert j; induction K as [|K IH]; intros [|j] Hj; try lia.
  - cbn [Spec.one_hot list_sum fold_right].
    change (fold_right Nat.add 0%nat (repeat 0%nat K))
      with (list_sum (repeat 0%nat K)).
    now rewrite list_sum_zeros.
  - cbn [Spec.one_hot list_sum fold_right].
    change (fold_right Nat.add 0%nat (Spec.one_hot K j))
      with (list_sum (Spec.one_hot K j)).
    rewrite IH; lia.
Qed.

Lemma one_hot_entries (K j k : nat) :
  In k (Spec.one_hot K j) -> k = 0%nat \/ k = 1%nat.
Proof.
  revert j; induction K as [|K IH]; intros [|j]; cbn; try tauto.
  - intros [<-|H]; auto. apply repeat_spec in H. auto.
  - intros [<-|H]; eauto.
Qed.

(** The mass of the draw that falls in class [j]. *)
Lemma pmf_one_hot (p : list R) (j : nat) :
  (j < length p)%nat ->
  Spec.pmf 1 p (Spec.one_hot (length p) j) = nth j p 0.
Proof.
  intros Hj. unfold Spec.pmf.
  assert (Hf : forall K i,
            Spec.Rprod (map (fun k => INR (fact k)) (Spec.one_hot K i)) = 1).
  { induction K as [|K IH]; intros [|i]; trivial.
    - cbn [Spec.one_hot map].
      change (Spec.Rprod (?a :: ?l)) with (a * Spec.Rprod l).
      replace (Spec.Rprod (map (fun k => INR (fact k)) (repeat 0%nat K)))
        with 1; [cbn; ring|].
      clear. induction K as [|K IH]; trivial. cbn [repeat map].
      change (Spec.Rprod (?a :: ?l)) with (a * Spec.Rprod l).
      rewrite <- IH. cbn. ring.
    - cbn [Spec.one_hot map].
      change (Spec.Rprod (?a :: ?l)) with (a * Spec.Rprod l).
      rewrite IH. cbn. ring. }
  assert (Hz : forall q : list R,
            Spec.Rprod (map (fun pk => fst pk ^ snd pk)
                            (combine q (repeat 0%nat (length q)))) = 1).
  { induction q as [|x q IH]; trivial. cbn [length repeat combine map fst snd].
    change (Spec.Rprod (?a :: ?l)) with (a * Spec.Rprod l).
    rewrite IH. cbn. ring. }
  rewrite Hf. revert j Hj. induction p as [|x p IH]; intros j Hj;
    [cbn in Hj; lia|].
  destruct j as [|j]; cbn [length Spec.one_hot combine map fst snd nth].
  - change (Spec.Rprod (?a :: ?l)) with (a * Spec.Rprod l).
    rewrite Hz. cbn. field.
  - change (Spec.Rprod (?a :: ?l)) with (a * Spec.Rprod l).
    cbn [length] in Hj. rewrite <- (IH j) by lia. cbn. field.
Qed.

(** X14: a single trial is a draw from the categorical distribution.  With
    [n = 1] and positive probabilities summing to 1, [prob] of the counts
    that put the one draw in class [j] evaluates, without failure, to
    [p_j]. *)
Theorem single_trial_is_categorical
    (p : list R) (j : nat) (va an : option bool) :
  lgamma (Fin 1) = Fin 0 ->
  lgamma (Fin 2) = Fin 0 ->
  0 < tol ->
  Forall (fun x => 0 < x) p ->
  Spec.Rsum p = 1 ->
  (j < length p)%nat ->
  exists d pr,
    Multinomial.__init__ tol (Spec.nat_scalar 1) None
      (Some (Spec.real_vector p)) va an = Ok d /\
    Multinomial.prob lgamma d (Spec.nat_vector (Spec.one_hot (length p) j))
      = Ok pr /\
    run pr (Returns (val pr)) /\
    get (val pr) [] = Fin (nth j p 0).
Proof.
  intros Hl1 Hl2 Htol Hpos Hsum Hj.
  assert (Hlg : forall k, k = 1%nat \/ In k (Spec.one_hot (length p) j) ->
                  lgamma (Fin (INR k + 1)) = Fin (ln (INR (fact k)))).
  { intros k Hk.
    assert (Hk' : k = 0%nat \/ k = 1%nat).
    { destruct Hk as [->|Hk]; [now right|]. now apply one_hot_entries in Hk. }
    destruct Hk' as [->| ->]; cbn [INR fact Nat.mul Nat.add].
    - replace (0 + 1) with 1 by ring. rewrite Hl1. cbn. now rewrite ln_1.
    - replace (1 + 1) with 2 by ring. rewrite Hl2. cbn. now rewrite ln_1. }
  destruct (prob_real 1 p (Spec.one_hot (length p) j) va an Hlg Hpos)
    as (d & lp & pr & x & Hd & _ & Hpr & _ & Hfailed & _ & _ & Hget).
  { now apply Rabs_sum_one. }
  { apply one_hot_length. }
  { now apply one_hot_sum. }
  exists d, pr. split; [exact Hd|]. split; [exact Hpr|]. split; [now split|].
  rewrite Hget. f_equal. now apply pmf_one_hot.
Qed.

End ParticularDraws.

(** ** Batches *)

Section Batches.

Variable lgamma : num -> num.
Variable tol : R.

Lemma combine_map_same {A B C : Type} (f : A -> B) (g : A -> C) (l : list A) :
  combine (map f l) (map g l) = map (fun a => (f a, g a)) l.
Proof. induction l as [|a l IH]; cbn; [|rewrite IH]; reflexivity. Qed.

(** X15: a batch is a collection of independent distributions.  The entry
    of [log_prob(counts)] for the batch element [b] is what [log_prob] gives
    for the single distribution made of the trial count and the probability
    vector read for [b], on the counts vector read for [b], each read
    through broadcasting. *)
Theorem batch_elements_are_independent
    (d : Multinomial.t) (counts : tensor) (lp : node)
    (K : nat) (C P b : list nat) (va an : option bool) :
  Multinomial.log_prob lgamma d counts = Ok lp ->
  shape counts = K :: C ->
  shape (val (Multinomial.p d)) = K :: P ->
  exists d1 lp1,
    Multinomial.__init__ tol
      (scalar (get (val (Multinomial.n d))
                   (bindex (shape (val (Multinomial.n d))) b)))
      None
      (Some (vector (Spec.row (val (Multinomial.p d)) K (bindex P b))))
      va an = Ok d1 /\
    Multinomial.log_prob lgamma d1 (vector (Spec.row counts K (bindex C b)))
      = Ok lp1 /\
    shape (val lp1) = [] /\
    get (val lp) b = get (val lp1) [].
Proof.
  intros Hlp HC HP.
  destruct (log_prob_inv _ _ _ _ Hlp)
    as (kc & C' & k & S & NC & HC' & Hs1 & _ & _ & Hget).
  cbn [val constant] in HC', Hget. rewrite HC in HC'.
  inversion HC'; subst kc C'; clear HC'.
  rewrite HP in Hs1. cbn in Hs1. rewrite bdim_refl in Hs1.
  destruct (broadcast_shape C P); inversion Hs1; subst k S; clear Hs1.
  set (x := get (val (Multinomial.n d))
                (bindex (shape (val (Multinomial.n d))) b)).
  set (ps := Spec.row (val (Multinomial.p d)) K (bindex P b)).
  set (cs := Spec.row counts K (bindex C b)).
  destruct (init_scalar_vector tol x ps va an) as (d1 & Hd1 & Hn1 & Hp1).
  assert (Hlen : length cs = length ps)
    by (unfold cs, ps, Spec.row; now rewrite !length_map).
  destruct (log_prob_vector lgamma d1 x ps cs Hn1 Hp1 Hlen)
    as (lp1 & Hlp1 & Hshape & Hget1).
  exists d1, lp1. split; [exact Hd1|]. split; [exact Hlp1|].
  split; [exact Hshape|]. rewrite Hget, Hget1, HP. fold x.
  unfold cs, ps, Spec.row. rewrite combine_map_same, !map_map.
  cbn [fst snd]. f_equal. f_equal. apply map_ext_in. intros j Hj.
  apply in_seq in Hj. now rewrite !bindex_cons_lt by lia.
Qed.

End Batches.

(** ** Worked examples *)

Section WorkedExamples.

Lemma lgamma_steps_factorial (k : nat) :
  Spec.lgamma_steps (Fin (INR k + 1)) = Fin (ln (INR (fact k))).
Proof.
  unfold Spec.lgamma_steps. rewrite <- S_INR, Int_part_INR, Nat2Z.id.
  now replace (S k - 1)%nat with k by lia.
Qed.

Lemma lgamma_steps_one : Spec.lgamma_steps (Fin 1) = Fin 0.
Proof.
  replace 1 with (INR 0 + 1) by (cbn; ring).
  rewrite lgamma_steps_factorial. cbn. now rewrite ln_1.
Qed.

Lemma example_tol_pos : 0 < Examples.tol.
Proof. unfold Examples.tol. lra. Qed.

Lemma example_p_pos : Forall (fun x => 0 < x) Examples.p.
Proof. unfold Examples.p. repeat constructor; lra. Qed.

Lemma example_p_sum : Spec.Rsum Examples.p = 1.
Proof. unfold Examples.p. cbn. field. Qed.

Local Open Scope string_scope.

Lemma bad_n_negative : Spec.has_negative Examples.bad_n.
Proof.
  exists []. split; [exact I|]. cbn.
  destruct (Rle_dec 0 (- (1 / 2))); trivial. lra.
Qed.


Lemma bad_counts_negative : Spec.has_negative Examples.bad_counts.
Proof.
  exists [0%nat]. split; [cbn; lia|]. cbn.
  destruct (Rle_dec 0 (-1)); trivial. lra.
Qed.

(** The scenario of the class docstring, [n = 4], [p = [.2, .3, .5]] and
    [counts = [1, 0, 3]]: no assertion fails and [log_prob] is
    [log(4!/(1! 0! 3!)) + 1 log(.2) + 3 log(.5)]. *)
Example log_prob_docstring :
  exists d lp,
    Multinomial.__init__ Examples.tol (Spec.nat_scalar 4) None
      (Some (Spec.real_vector Examples.p)) None None = Ok d /\
    Multinomial.log_prob Spec.lgamma_steps d (Spec.nat_vector Examples.counts)
      = Ok lp /\
    failed lp = [] /\
    get (val lp) [] = Fin (ln 4 + 1 * ln (2 / 10) + 3 * ln (5 / 10)).
Proof.
  destruct (init_real_vector Examples.tol 4 Examples.p None None)
    as (d & Hd & Hn & Hp & Hfn & Hfp).
  { eapply Forall_impl; [|exact example_p_pos]. intros x Hx. now apply Rlt_le. }
  { rewrite example_p_sum. replace (1 - 1) with 0 by ring.
    rewrite Rabs_R0. exact example_tol_pos. }
  destruct (log_prob_real Spec.lgamma_steps d 4 Examples.p Examples.counts
              Hn Hp eq_refl example_p_pos)
    as (lp & Hlp & _ & Hget).
  { intros k _. apply lgamma_steps_factorial. }
  exists d, lp. split; [exact Hd|]. split; [exact Hlp|]. split.
  { apply (valid_sample_no_failure Spec.lgamma_steps d 4 Examples.counts);
      trivial. }
  rewrite Hget. f_equal. cbn -[ln].
  replace (1 + 1 + 1 + 1 + 1 + 1 + 1 + 1 + 1 + 1 + 1 + 1 + 1 + 1 + 1 + 1 + 1
           + 1 + 1 + 1 + 1 + 1 + 1 + 1) with (4 * 6) by ring.
  replace (1 + 1 + 1 + 1 + 1 + 1) with 6 by ring.
  rewrite ln_mult, ln_1 by lra. ring.
Qed.

(** The mean of the docstring's 2-batch: the entry of class 2 in the second
    batch element is [5 * 0.4]. *)
Lemma mean_returns_stored_product_witness :
  exists d,
    Multinomial.__init__ Examples.tol Examples.batch_n None
      (Some Examples.batch_p) None None = Ok d /\
    Multinomial.mean d = Multinomial._mean_val d /\
    shape (val (Multinomial.mean d)) = [3; 2]%nat /\
    get (val (Multinomial.mean d)) [2; 1]%nat = nmul (Fin 5) (Fin (4 / 10)).
Proof.
  eexists. split; [reflexivity|].
  destruct (mean_returns_stored_product Examples.tol Examples.batch_n None
              (Some Examples.batch_p) None None _ eq_refl)
    as (Hm & _ & _ & _ & Hget).
  split; [exact Hm|]. split; [reflexivity|].
  rewrite (Hget 3%nat 2%nat [1%nat] eq_refl) by (cbn; lia). reflexivity.
Defined.

(** The covariance of the second element of the docstring's 2-batch: the
    entry [0,0] is [5 * 0.3 * 0.7] and the entry [0,1] is [-5 * 0.3 * 0.3]. *)
Lemma variance_entries_witness :
  exists d v,
    Multinomial.__init__ Examples.tol Examples.batch_n None
      (Some Examples.batch_p) None None = Ok d /\
    Spec.finite Examples.batch_n /\
    Spec.finite (val (Multinomial.p d)) /\
    Multinomial.variance d = Ok v /\
    shape (val v) = [3; 3; 2]%nat /\
    get (val v) [0; 0; 1]%nat = Fin (5 * (3 / 10) * (1 - 3 / 10)) /\
    get (val v) [1; 0; 1]%nat = Fin (- 5 * (3 / 10) * (3 / 10)).
Proof.
  assert (Hfn : Spec.finite Examples.batch_n).
  { intros [|[|[|j]] [|? ?]]; cbn; intros H; try exact I; lia. }
  assert (Hfp : Spec.finite Examples.batch_p).
  { intros [|[|[|[|j]]] [|[|[|b]] [|? ?]]]; cbn; intros H; try exact I; lia. }
  destruct (variance_entries Examples.tol Examples.batch_n None
              (Some Examples.batch_p) None None _ eq_refl Hfn Hfp)
    as (v & K & B & Hv & Hshape & Hvs & Hget).
  cbn in Hshape. inversion Hshape; subst K B.
  eexists. exists v. split; [reflexivity|]. split; [exact Hfn|].
  split; [exact Hfp|]. split; [exact Hv|]. split; [exact Hvs|]. split.
  - rewrite (Hget 0%nat 0%nat [1%nat]) by (cbn; lia). reflexivity.
  - rewrite (Hget 0%nat 1%nat [1%nat]) by (cbn; lia). reflexivity.
Defined.


(** With the default flag, counts with a negative component make [log_prob]
    and [prob] fail with the message of that constraint. *)
Lemma sample_validation_witness :
  exists d lp,
    Multinomial.__init__ Examples.tol (Spec.nat_scalar 4) None
      (Some (Spec.real_vector Examples.p)) None None = Ok d /\
    Multinomial.log_prob Spec.lgamma_steps d Examples.bad_counts = Ok lp /\
    run lp (Fails "counts has negative components.").
Proof.
  destruct (init_scalar_vector Examples.tol (Fin (INR 4))
              (map Fin Examples.p) None None) as (d & Hd & Hn & Hp).
  destruct (log_prob_vector Spec.lgamma_steps d (Fin (INR 4))
              (map Fin Examples.p) [Fin (-1); Fin 0; Fin 0] Hn Hp eq_refl)
    as (lp & Hlp & _).
  exists d, lp. split; [exact Hd|]. split; [exact Hlp|].
  destruct (sample_validation Spec.lgamma_steps d _ lp Hlp) as (Hiff & _).
  apply Hiff. right. right. split.
  - destruct (init_inv _ _ _ _ _ _ _ Hd)
      as (? & ? & ? & _ & _ & _ & _ & _ & _ & _ & _ & Hflag).
    exact Hflag.
  - left. split; [reflexivity|]. exact bad_counts_negative.
Defined.

(** The empty draw from the docstring's probabilities. *)
Lemma empty_draw_has_probability_one_witness :
  Spec.lgamma_steps (Fin 1) = Fin 0 /\
  0 < Examples.tol /\
  Forall (fun x => 0 < x) Examples.p /\
  Spec.Rsum Examples.p = 1 /\
  exists d lp pr,
    Multinomial.__init__ Examples.tol (Spec.nat_scalar 0) None
      (Some (Spec.real_vector Examples.p)) None None = Ok d /\
    Multinomial.log_prob Spec.lgamma_steps d (Spec.nat_vector [0; 0; 0]%nat)
      = Ok lp /\
    get (val lp) [] = Fin 0 /\
    Multinomial.prob Spec.lgamma_steps d (Spec.nat_vector [0; 0; 0]%nat)
      = Ok pr /\
    get (val pr) [] = Fin 1.
Proof.
  split; [exact lgamma_steps_one|]. split; [exact example_tol_pos|].
  split; [exact example_p_pos|]. split; [exact example_p_sum|].
  destruct (empty_draw_has_probability_one Spec.lgamma_steps Examples.tol
              Examples.p None None lgamma_steps_one example_tol_pos
              example_p_pos example_p_sum)
    as (d & lp & pr & Hd & Hlp & _ & _ & Hzero & Hpr & _ & _ & Hone).
  exists d, lp, pr. repeat split; assumption.
Defined.

(** The masses of the docstring's distribution over the fifteen count
    vectors with total 4 sum to 1. *)
Lemma prob_sums_to_one_witness :
  (forall k, Spec.lgamma_steps (Fin (INR k + 1)) = Fin (ln (INR (fact k)))) /\
  0 < Examples.tol /\
  Forall (fun x => 0 < x) Examples.p /\
  Spec.Rsum Examples.p = 1 /\
  exists d,
    Multinomial.__init__ Examples.tol (Spec.nat_scalar 4) None
      (Some (Spec.real_vector Examples.p)) None None = Ok d /\
    length (Spec.compositions 3 4) = 15%nat /\
    nsum (map (fun c => Spec.scalar_value
                 (Multinomial.prob Spec.lgamma_steps d (Spec.nat_vector c)))
              (Spec.compositions 3 4)) = Fin 1.
Proof.
  split; [exact lgamma_steps_factorial|]. split; [exact example_tol_pos|].
  split; [exact example_p_pos|]. split; [exact example_p_sum|].
  destruct (prob_sums_to_one Spec.lgamma_steps Examples.tol 4 Examples.p
              None None lgamma_steps_factorial example_tol_pos
              example_p_pos example_p_sum)
    as (d & Hd & _ & _ & _ & Hsum).
  exists d. split; [exact Hd|]. split; [reflexivity|]. exact Hsum.
Defined.

(** C8 fails as stated: with [p = [0, 0, 1]], [n = 1] and the valid counts
    [[1, 0, 0]], the first class has probability 0 and a positive count, no
    assertion fails, and [log_prob] is not minus infinity but not-a-number,
    whatever the log-gamma function is: the second class contributes
    [0 * log(0)]. *)
Lemma zero_probability_counterexample :
  exists d,
    Multinomial.__init__ Examples.tol (Spec.nat_scalar 1) None
      (Some (Spec.real_vector Examples.p_with_zeros)) None None = Ok d /\
    forall lgamma : num -> num,
    exists lp,
      Multinomial.log_prob lgamma d
        (Spec.nat_vector Examples.counts_in_zero_class) = Ok lp /\
      failed lp = [] /\
      get (val lp) [] = NaN /\
      get (val lp) [] <> NInf.
Proof.
  destruct (init_real_vector Examples.tol 1 Examples.p_with_zeros None None)
    as (d & Hd & Hn & Hp & Hfn & Hfp).
  { unfold Examples.p_with_zeros. repeat constructor; lra. }
  { unfold Examples.p_with_zeros, Examples.tol. cbn.
    replace (0 + (0 + (1 + 0)) - 1) with 0 by ring. rewrite Rabs_R0. lra. }
  exists d. split; [exact Hd|]. intros lgamma.
  destruct (log_prob_vector lgamma d (Fin (INR 1))
              (map Fin Examples.p_with_zeros)
              (map (fun k => Fin (INR k)) Examples.counts_in_zero_class)
              Hn Hp eq_refl) as (lp & Hlp & _ & Hget).
  exists lp. split; [exact Hlp|]. split.
  { apply (valid_sample_no_failure lgamma d 1
             Examples.counts_in_zero_class); trivial. }
  assert (HNaN : get (val lp) [] = NaN).
  { rewrite Hget. cbn [Examples.p_with_zeros Examples.counts_in_zero_class
                         map combine fst snd nsum fold_right nlog].
    destruct (Req_dec_T 0 0) as [_|E]; [|now destruct E].
    cbn [nmul INR]. unfold inf_times.
    destruct (Req_dec_T 0 0) as [_|E]; [|now destruct E].
    destruct (Req_dec_T 1 0) as [E|_]; [lra|].
    destruct (Rlt_dec 0 1) as [_|E]; [|lra].
    reflexivity. }
  split; [exact HNaN|]. rewrite HNaN. discriminate.
Defined.

(** With a single class of probability 0, holding the draw, [log_prob] is
    minus infinity. *)
Lemma zero_probability_log_prob_witness :
  exists d lp,
    Multinomial.__init__ Examples.tol (Spec.nat_scalar 1) None
      (Some (Spec.real_vector Examples.p_with_zero)) None None = Ok d /\
    Multinomial.log_prob Spec.lgamma_steps d
      (Spec.nat_vector Examples.counts_in_the_zero_class) = Ok lp /\
    get (val lp) [] = NInf.
Proof.
  destruct (init_scalar_vector Examples.tol (Fin (INR 1))
              (map Fin Examples.p_with_zero) None None) as (d & Hd & Hn & Hp).
  destruct (log_prob_vector Spec.lgamma_steps d (Fin (INR 1))
              (map Fin Examples.p_with_zero)
              (map (fun k => Fin (INR k)) Examples.counts_in_the_zero_class)
              Hn Hp eq_refl) as (lp & Hlp & _).
  exists d, lp. split; [exact Hd|]. split; [exact Hlp|].
  apply (zero_probability_log_prob Spec.lgamma_steps d _ lp 2 [] [] [] 1
           lgamma_steps_factorial Hlp eq_refl).
  - now rewrite Hp.
  - now rewrite Hn.
  - intros j Hj. rewrite Hp.
    destruct j as [|[|j]]; [exists 1%nat, 0 | exists 0%nat, 1 | lia];
      cbn; repeat split; try lra; try lia.
  - exists 0%nat. split; [lia|]. now rewrite Hp.
Defined.

(** C9 fails as stated: for a distribution constructed without supplying
    [validate_args], the checks on [n] of the constructor are on (a negative
    [n] makes the stored [n] fail), the flag the sample checks read is the
    same default, and the sample checks are on as well. *)
Lemma validate_args_default_counterexample :
  exists d,
    Multinomial.__init__ Examples.tol Examples.bad_n None
      (Some (Spec.real_vector Examples.p)) None None = Ok d /\
    run (Multinomial.n d) (Fails "n has negative components.") /\
    Multinomial.validate_args d = Multinomial.default_validate_args /\
    forall lgamma : num -> num,
    exists lp,
      Multinomial.log_prob lgamma d Examples.bad_counts = Ok lp /\
      run lp (Fails "counts has negative components.").
Proof.
  destruct (init_scalar_vector Examples.tol (Fin (- (1 / 2)))
              (map Fin Examples.p) None None) as (d & Hd & Hn & Hp).
  destruct (init_inv _ _ _ _ _ _ _ Hd)
    as (? & ? & ? & _ & _ & _ & _ & _ & HN & _ & _ & Hflag).
  exists d. split; [exact Hd|]. split; [|split; [exact Hflag|]].
  - unfold run, Multinomial.n. rewrite HN.
    cbn [control_dependencies with_dependencies failed op1 constant
         array_ops.identity].
    rewrite app_nil_r. apply n_checks_in. split; [reflexivity|]. left.
    split; [reflexivity|]. exact bad_n_negative.
  - intros lgamma.
    destruct (log_prob_vector lgamma d (Fin (- (1 / 2)))
                (map Fin Examples.p) [Fin (-1); Fin 0; Fin 0] Hn Hp eq_refl)
      as (lp & Hlp & _).
    exists lp. split; [exact Hlp|].
    destruct (log_prob_failed _ _ _ _ Hlp) as (c & Hc & Hfailed).
    apply Hfailed. left. apply (assert_valid_sample_failed _ _ _ Hc).
    right. split; [exact Hflag|]. right. left. split; [reflexivity|].
    exact bad_counts_negative.
Defined.

(** The flag of a distribution constructed without [validate_args]. *)
Lemma validate_args_gates_both_witness :
  exists d,
    Multinomial.__init__ Examples.tol (Spec.nat_scalar 4) None
      (Some (Spec.real_vector Examples.p)) None None = Ok d /\
    Multinomial.validate_args d = true /\
    Multinomial._n d =
      control_dependencies
        (Multinomial.n_checks (constant (Spec.nat_scalar 4)) true)
        (array_ops.identity (constant (Spec.nat_scalar 4))).
Proof.
  destruct (init_scalar_vector Examples.tol (Fin (INR 4))
              (map Fin Examples.p) None None) as (d & Hd & Hn & Hp).
  exists d. split; [exact Hd|].
  destruct (validate_args_gates_both Examples.tol _ _ _ _ _ _ Hd)
    as (Hflag & HN & _).
  split; [exact Hflag|]. now rewrite <- Hflag.
Defined.

End WorkedExamples.

(** ** Worked examples of shapes, moments and particular draws *)

Section FurtherExamples.

Local Open Scope string_scope.

Lemma lgamma_steps_two : Spec.lgamma_steps (Fin 2) = Fin 0.
Proof.
  replace 2 with (INR 1 + 1) by (cbn; ring).
  rewrite lgamma_steps_factorial. cbn. now rewrite ln_1.
Qed.

Lemma batch_n_finite : Spec.finite Examples.batch_n.
Proof. intros [|[|[|j]] [|? ?]]; cbn; intros H; try exact I; lia. Qed.

Lemma batch_p_finite : Spec.finite Examples.batch_p.
Proof.
  intros [|[|[|[|j]]] [|[|[|b]] [|? ?]]]; cbn; intros H; try exact I; lia.
Qed.

(** The 2-batch of the class docstring is constructed, with a mean of Python
    shape [[2, 3]]; three trial counts against it are refused. *)
Lemma constructor_shapes_witness :
  Spec.given None (Some Examples.batch_p) Examples.batch_p /\
  shape Examples.batch_p = [3; 2]%nat /\
  (exists d,
     Multinomial.__init__ Examples.tol Examples.batch_n None
       (Some Examples.batch_p) None None = Ok d /\
     shape (val (Multinomial.mean d)) = [3; 2]%nat) /\
  Multinomial.__init__ Examples.tol Examples.three_n None
    (Some Examples.batch_p) None None = Raise ShapeError.
Proof.
  assert (Hg : Spec.given None (Some Examples.batch_p) Examples.batch_p)
    by (right; split; reflexivity).
  split; [exact Hg|]. split; [reflexivity|]. split.
  - exact (constructor_shapes Examples.tol Examples.batch_n None
             (Some Examples.batch_p) Examples.batch_p 3 [2%nat] None None
             Hg eq_refl).
  - exact (constructor_shapes Examples.tol Examples.three_n None
             (Some Examples.batch_p) Examples.batch_p 3 [2%nat] None None
             Hg eq_refl).
Defined.

(** The static shapes of the docstring's 2-batch of 3-class distributions. *)
Lemma batch_and_event_shape_witness :
  exists d,
    Multinomial.__init__ Examples.tol Examples.batch_n None
      (Some Examples.batch_p) None None = Ok d /\
    Multinomial._get_event_shape d = [3%nat] /\
    broadcast_shape [2%nat] [2%nat] = Some (Multinomial._get_batch_shape d).
Proof.
  eexists. split; [reflexivity|].
  destruct (batch_and_event_shape Examples.tol Examples.batch_n None
              (Some Examples.batch_p) None None _ eq_refl)
    as (_ & Hevent & Hbatch).
  split; [exact Hevent | exact Hbatch].
Defined.

(** The shapes of the docstring's 2-batch computed in the graph. *)
Lemma dynamic_shapes_agree_witness :
  exists d e,
    Multinomial.__init__ Examples.tol Examples.batch_n None
      (Some Examples.batch_p) None None = Ok d /\
    val (Multinomial._batch_shape d) = Spec.nat_vector [2%nat] /\
    Multinomial._event_shape d = Ok e /\
    tensor_eq (val e) (Spec.nat_vector [3%nat]).
Proof.
  eexists.
  destruct (dynamic_shapes_agree Examples.tol Examples.batch_n None
              (Some Examples.batch_p) None None _ eq_refl)
    as (Hbatch & e & He & Heq & _).
  exists e. split; [reflexivity|]. split; [exact Hbatch|].
  split; [exact He | exact Heq].
Defined.

(** The counts of the docstring against its 2-batch give a result of Python
    shape [[2]]; counts without a class axis are refused. *)
Lemma log_prob_shape_witness :
  exists d,
    Multinomial.__init__ Examples.tol Examples.batch_n None
      (Some Examples.batch_p) None None = Ok d /\
    (exists lp,
       Multinomial.log_prob Spec.lgamma_steps d Examples.batch_counts = Ok lp /\
       shape (val lp) = [2%nat]) /\
    Multinomial.log_prob Spec.lgamma_steps d (scalar (Fin 1))
      = Raise ShapeError.
Proof.
  eexists. split; [reflexivity|]. split.
  - pose proof (log_prob_shape Spec.lgamma_steps Examples.tol Examples.batch_n
                  None (Some Examples.batch_p) None None _
                  Examples.batch_counts eq_refl) as H.
    destruct (Multinomial.log_prob Spec.lgamma_steps _ Examples.batch_counts)
      as [lp|e].
    + exists lp. split; [reflexivity|].
      destruct H as (kc & C & k & HC & _ & HB).
      inversion HC; subst kc C. now inversion HB.
    + destruct H as (_ & [H|H]); discriminate.
  - pose proof (log_prob_shape Spec.lgamma_steps Examples.tol Examples.batch_n
                  None (Some Examples.batch_p) None None _
                  (scalar (Fin 1)) eq_refl) as H.
    destruct (Multinomial.log_prob Spec.lgamma_steps _ (scalar (Fin 1)))
      as [lp|e].
    + destruct H as (kc & C & k & HC & _). discriminate.
    + destruct H as (-> & _). reflexivity.
Defined.

(** The distribution of the class docstring, with and without validation. *)
Lemma validation_does_not_change_values_witness :
  exists d d',
    Multinomial.__init__ Examples.tol (Spec.nat_scalar 4) None
      (Some (Spec.real_vector Examples.p)) None None = Ok d /\
    Multinomial.__init__ Examples.tol (Spec.nat_scalar 4) None
      (Some (Spec.real_vector Examples.p)) (Some false) None = Ok d' /\
    val (Multinomial.mean d') = val (Multinomial.mean d) /\
    Spec.same_value
      (Multinomial.log_prob Spec.lgamma_steps d'
         (Spec.nat_vector Examples.counts))
      (Multinomial.log_prob Spec.lgamma_steps d
         (Spec.nat_vector Examples.counts)).
Proof.
  destruct (init_scalar_vector Examples.tol (Fin (INR 4))
              (map Fin Examples.p) None None) as (d & Hd & _).
  destruct (validation_does_not_change_values Spec.lgamma_steps Examples.tol
              _ _ _ None None None d (Spec.nat_vector Examples.counts) Hd)
    as (d' & Hd' & Hmean & Hlp & _).
  exists d, d'. split; [exact Hd|]. split; [exact Hd'|].
  split; [exact Hmean | exact Hlp].
Defined.

(** Without validation, a trial count of [-1/2] and counts with a negative
    component raise nothing. *)
Lemma unvalidated_never_fails_witness :
  exists d lp,
    Multinomial.__init__ Examples.tol Examples.bad_n None
      (Some (Spec.real_vector Examples.p)) (Some false) None = Ok d /\
    run (Multinomial.n d) (Returns Examples.bad_n) /\
    Multinomial.log_prob Spec.lgamma_steps d Examples.bad_counts = Ok lp /\
    run lp (Returns (val lp)).
Proof.
  destruct (init_scalar_vector Examples.tol (Fin (- (1 / 2)))
              (map Fin Examples.p) (Some false) None) as (d & Hd & Hn & Hp).
  destruct (log_prob_vector Spec.lgamma_steps d (Fin (- (1 / 2)))
              (map Fin Examples.p) [Fin (-1); Fin 0; Fin 0] Hn Hp eq_refl)
    as (lp & Hlp & _).
  destruct (unvalidated_never_fails Spec.lgamma_steps Examples.tol _ _ _ _ d
              Examples.bad_counts Hd) as (HN & _ & _ & _ & Hrun & _).
  exists d, lp. split; [exact Hd|]. split; [exact HN|].
  split; [exact Hlp | exact (Hrun lp Hlp)].
Defined.

(** With the default flag, a trial count of [-1/2] makes the covariance
    fail with the message of the assertion on [n]. *)
Lemma moments_fail_with_parameters_witness :
  exists d v,
    Multinomial.__init__ Examples.tol Examples.bad_n None
      (Some (Spec.real_vector Examples.p)) None None = Ok d /\
    Multinomial.variance d = Ok v /\
    run v (Fails "n has negative components.").
Proof.
  destruct (init_scalar_vector Examples.tol (Fin (- (1 / 2)))
              (map Fin Examples.p) None None) as (d & Hd & _).
  destruct (moments_fail_with_parameters Examples.tol _ _ _ _ _ d Hd)
    as (Hmean & v & K & B & Hv & _ & _ & Hiff).
  exists d, v. split; [exact Hd|]. split; [exact Hv|].
  apply Hiff, Hmean. left.
  destruct (init_inv _ _ _ _ _ _ _ Hd)
    as (? & ? & ? & _ & _ & _ & _ & _ & HN & _).
  unfold Multinomial.n. rewrite HN.
  cbn [control_dependencies with_dependencies failed op1 constant
       array_ops.identity].
  rewrite app_nil_r. apply n_checks_in. split; [reflexivity|]. left.
  split; [reflexivity|]. exact bad_n_negative.
Defined.

(** The mean of the second element of the docstring's 2-batch sums to its
    trial count, 5. *)
Lemma mean_sums_to_n_witness :
  exists d,
    Multinomial.__init__ Examples.tol Examples.batch_n None
      (Some Examples.batch_p) None None = Ok d /\
    Spec.finite Examples.batch_n /\
    Spec.finite (val (Multinomial.p d)) /\
    get (val (Multinomial._broadcast_shape d)) [1%nat] = Fin 5.
Proof.
  eexists. split; [reflexivity|].
  split; [exact batch_n_finite|]. split; [exact batch_p_finite|].
  destruct (mean_sums_to_n Examples.tol Examples.batch_n None
              (Some Examples.batch_p) None None _ eq_refl
              batch_n_finite batch_p_finite)
    as (K & B & HM & _ & Hb).
  inversion HM; subst K B.
  destruct (Hb [1%nat]) as (_ & _ & Hn); [cbn; lia|].
  rewrite Hn; [reflexivity|]. cbn. field.
Defined.

(** The covariance of the second element of the docstring's 2-batch. *)
Lemma variance_is_symmetric_witness :
  exists d v,
    Multinomial.__init__ Examples.tol Examples.batch_n None
      (Some Examples.batch_p) None None = Ok d /\
    Spec.finite Examples.batch_n /\
    Spec.finite (val (Multinomial.p d)) /\
    Multinomial.variance d = Ok v /\
    get (val v) [2; 0; 1]%nat = get (val v) [0; 2; 1]%nat.
Proof.
  destruct (variance_is_symmetric Examples.tol Examples.batch_n None
              (Some Examples.batch_p) None None _ eq_refl
              batch_n_finite batch_p_finite)
    as (v & K & B & Hv & Hvs & Hsym).
  eexists. exists v. split; [reflexivity|].
  split; [exact batch_n_finite|]. split; [exact batch_p_finite|].
  split; [exact Hv|]. apply Hsym. rewrite <- Hvs.
  unfold Multinomial.variance in Hv. cbn in Hv. inversion Hv. cbn. lia.
Defined.

(** The first row of that covariance sums to 0. *)
Lemma variance_rows_sum_to_zero_witness :
  exists d v,
    Multinomial.__init__ Examples.tol Examples.batch_n None
      (Some Examples.batch_p) None None = Ok d /\
    Spec.finite Examples.batch_n /\
    Spec.finite (val (Multinomial.p d)) /\
    Multinomial.variance d = Ok v /\
    nsum (map (fun j => get (val v) [j; 0; 1]%nat) (seq 0 3)) = Fin 0.
Proof.
  destruct (variance_rows_sum_to_zero Examples.tol Examples.batch_n None
              (Some Examples.batch_p) None None _ eq_refl
              batch_n_finite batch_p_finite)
    as (v & K & B & Hv & Hvs & Hrow).
  eexists. exists v. split; [reflexivity|].
  split; [exact batch_n_finite|]. split; [exact batch_p_finite|].
  split; [exact Hv|].
  assert (HKB : K = 3%nat /\ B = [2%nat]).
  { unfold Multinomial.variance in Hv. cbn in Hv. inversion Hv; subst v.
    cbn in Hvs. inversion Hvs. auto. }
  destruct HKB as [-> ->].
  apply (Hrow 0%nat [1%nat]); [cbn; lia|]. cbn. field.
Defined.

(** The covariance of the first and the third class of that element is not
    positive. *)
Lemma variance_signs_witness :
  exists d v r,
    Multinomial.__init__ Examples.tol Examples.batch_n None
      (Some Examples.batch_p) None None = Ok d /\
    Multinomial.variance d = Ok v /\
    get (val v) [2; 0; 1]%nat = Fin r /\ r <= 0.
Proof.
  destruct (variance_signs Examples.tol Examples.batch_n None
              (Some Examples.batch_p) None None _ eq_refl)
    as (v & K & B & Hv & Hvs & Hsign).
  { intros [|[|[|j]] [|? ?]]; cbn; intros H; try lia;
      eexists; (split; [reflexivity|lra]). }
  { intros [|[|[|[|j]]] [|[|[|b]] [|? ?]]]; cbn; intros H; try lia;
      eexists; (split; [reflexivity|lra]). }
  assert (HKB : K = 3%nat /\ B = [2%nat]).
  { unfold Multinomial.variance in Hv. cbn in Hv. inversion Hv; subst v.
    cbn in Hvs. inversion Hvs. auto. }
  destruct HKB as [-> ->].
  destruct (Hsign 0%nat 2%nat [1%nat]) as (r & Hr & _ & Hneg); [cbn; lia|].
  eexists. exists v, r. split; [reflexivity|]. split; [exact Hv|].
  split; [exact Hr|]. apply Hneg. lia.
Defined.

(** The binomial distribution of the constructor's docstring, [n = 2] and
    [p = [.1, .9]]: one draw in each class has probability
    [C(2, 1) * .1 * .9]. *)
Lemma two_classes_are_binomial_witness :
  (forall j, Spec.lgamma_steps (Fin (INR j + 1)) = Fin (ln (INR (fact j)))) /\
  0 < Examples.tol /\
  0 < 1 / 10 < 1 /\
  (1 <= 2)%nat /\
  exists d pr,
    Multinomial.__init__ Examples.tol (Spec.nat_scalar 2) None
      (Some (Spec.real_vector [1 / 10; 1 - 1 / 10])) None None = Ok d /\
    Multinomial.prob Spec.lgamma_steps d (Spec.nat_vector [1; 1]%nat) = Ok pr /\
    get (val pr) [] = Fin (C 2 1 * (1 / 10) ^ 1 * (1 - 1 / 10) ^ 1).
Proof.
  assert (Hq : 0 < 1 / 10 < 1) by lra.
  split; [exact lgamma_steps_factorial|]. split; [exact example_tol_pos|].
  split; [exact Hq|]. split; [lia|].
  destruct (two_classes_are_binomial Spec.lgamma_steps Examples.tol 2 1
              (1 / 10) None None lgamma_steps_factorial example_tol_pos Hq
              (le_S 1 1 (le_n 1)))
    as (d & pr & Hd & Hpr & _ & Hget).
  exists d, pr. split; [exact Hd|]. split; [exact Hpr | exact Hget].
Defined.

(** The probability of the counts of the class docstring. *)
Lemma prob_is_a_probability_witness :
  (forall k, Spec.lgamma_steps (Fin (INR k + 1)) = Fin (ln (INR (fact k)))) /\
  0 < Examples.tol /\
  Forall (fun x => 0 < x) Examples.p /\
  Spec.Rsum Examples.p = 1 /\
  length Examples.counts = length Examples.p /\
  list_sum Examples.counts = 4%nat /\
  exists d pr r,
    Multinomial.__init__ Examples.tol (Spec.nat_scalar 4) None
      (Some (Spec.real_vector Examples.p)) None None = Ok d /\
    Multinomial.prob Spec.lgamma_steps d (Spec.nat_vector Examples.counts)
      = Ok pr /\
    get (val pr) [] = Fin r /\ 0 < r <= 1.
Proof.
  split; [exact lgamma_steps_factorial|]. split; [exact example_tol_pos|].
  split; [exact example_p_pos|]. split; [exact example_p_sum|].
  split; [reflexivity|]. split; [reflexivity|].
  destruct (prob_is_a_probability Spec.lgamma_steps Examples.tol 4 Examples.p
              Examples.counts None None lgamma_steps_factorial example_tol_pos
              example_p_pos example_p_sum eq_refl eq_refl)
    as (d & lp & pr & r & Hd & _ & Hpr & Hget & Hr & _).
  exists d, pr, r. split; [exact Hd|]. split; [exact Hpr|].
  split; [exact Hget | exact Hr].
Defined.

(** One draw from the docstring's probabilities falls in the third class
    with probability [.5]. *)
Lemma single_trial_is_categorical_witness :
  Spec.lgamma_steps (Fin 1) = Fin 0 /\
  Spec.lgamma_steps (Fin 2) = Fin 0 /\
  0 < Examples.tol /\
  Forall (fun x => 0 < x) Examples.p /\
  Spec.Rsum Examples.p = 1 /\
  (2 < length Examples.p)%nat /\
  exists d pr,
    Multinomial.__init__ Examples.tol (Spec.nat_scalar 1) None
      (Some (Spec.real_vector Examples.p)) None None = Ok d /\
    Multinomial.prob Spec.lgamma_steps d (Spec.nat_vector [0; 0; 1]%nat)
      = Ok pr /\
    get (val pr) [] = Fin (5 / 10).
Proof.
  assert (Hj : (2 < length Examples.p)%nat) by (cbn; lia).
  split; [exact lgamma_steps_one|]. split; [exact lgamma_steps_two|].
  split; [exact example_tol_pos|]. split; [exact example_p_pos|].
  split; [exact example_p_sum|]. split; [exact Hj|].
  destruct (single_trial_is_categorical Spec.lgamma_steps Examples.tol
              Examples.p 2 None None lgamma_steps_one lgamma_steps_two
              example_tol_pos example_p_pos example_p_sum Hj)
    as (d & pr & Hd & Hpr & _ & Hget).
  exists d, pr. split; [exact Hd|]. split; [exact Hpr | exact Hget].
Defined.

(** The distribution of the class docstring on two counts vectors at once:
    the second entry of the result is [log_prob] of the second vector,
    [[2, 2, 0]], the parameters being broadcast. *)
Lemma batch_elements_are_independent_witness :
  exists d lp d1 lp1,
    Multinomial.__init__ Examples.tol (Spec.nat_scalar 4) None
      (Some (Spec.real_vector Examples.p)) None None = Ok d /\
    Multinomial.log_prob Spec.lgamma_steps d Examples.two_counts = Ok lp /\
    Multinomial.__init__ Examples.tol (Spec.nat_scalar 4) None
      (Some (Spec.real_vector Examples.p)) None None = Ok d1 /\
    Multinomial.log_prob Spec.lgamma_steps d1 (vector [Fin 2; Fin 2; Fin 0])
      = Ok lp1 /\
    get (val lp) [1%nat] = get (val lp1) [].
Proof.
  destruct (init_scalar_vector Examples.tol (Fin (INR 4))
              (map Fin Examples.p) None None) as (d & Hd & Hn & Hp).
  assert (Hs1 : broadcast_shape [3; 2]%nat (shape (val (Multinomial.p d)))
                = Some [3; 2]%nat) by (now rewrite Hp).
  assert (HNC : broadcast_shape (shape (val (Multinomial.n d))) [2%nat]
                = Some [2%nat]) by (now rewrite Hn).
  destruct (log_prob_ok Spec.lgamma_steps d (constant Examples.two_counts)
              3 3 [2%nat] [2%nat] [2%nat] [2%nat] eq_refl Hs1 HNC eq_refl)
    as (lp & Hlp).
  assert (HP : shape (val (Multinomial.p d)) = [3%nat]) by (now rewrite Hp).
  destruct (batch_elements_are_independent Spec.lgamma_steps Examples.tol d
              Examples.two_counts lp 3 [2%nat] [] [1%nat] None None
              Hlp eq_refl HP)
    as (d1 & lp1 & Hd1 & Hlp1 & _ & Hget).
  rewrite Hn, Hp in Hd1.
  exists d, lp, d1, lp1. split; [exact Hd|]. split; [exact Hlp|].
  split; [exact Hd1|]. split; [exact Hlp1 | exact Hget].
Defined.

End FurtherExamples.
